(** * Verification of [calc_score] (app/score.py) and [divide]
      (mathoperation/division.py)

    The development embeds the two Python functions as Rocq functions.
    Python exceptions are an explicit [result] type, dictionaries are
    [gmap string pyval], floats are IEEE-754 binary64 values with
    round-to-nearest-even, written out over [Z]. *)

From Stdlib Require Import ZArith Lia Bool List String Ascii DecimalString.
From Stdlib Require Import SpecFloat.
From Stdlib Require Decimal DecimalFacts DecimalPos.
From stdpp Require Import gmap strings.

Open Scope Z_scope.

(** ** Exceptions *)

Inductive exn :=
| TypeError
| ValueError
| OverflowError
| ZeroDivisionError
| InvalidOperation          (* decimal.InvalidOperation *)
| DecimalOverflow           (* decimal.Overflow *)
| DivisionByZero            (* decimal.DivisionByZero, a ZeroDivisionError *)
| UserError (name : string) (* anything raised by user code *).

Inductive result (A : Type) :=
| Ok (a : A)
| Raise (e : exn).
Arguments Ok {A} a.
Arguments Raise {A} e.

Definition bind {A B} (r : result A) (k : A -> result B) : result B :=
  match r with
  | Ok a => k a
  | Raise e => Raise e
  end.

(** [try: r except: h] with a bare [except] clause. *)
Definition try_except {A} (r : result A) (h : result A) : result A :=
  match r with
  | Ok a => Ok a
  | Raise _ => h
  end.

Notation "'let?' x ':=' r 'in' k" := (bind r (fun x => k))
  (at level 10, x name, r at level 100, k at level 200).

(** ** IEEE-754 binary64 *)

Module B64.

(** A finite double is a sign and a magnitude counted in units of the
    smallest subnormal, [2^-1074]: the double [m * 2^e] has magnitude
    [m * 2^(e + 1074)] units, a non-negative integer.  [one] is the
    magnitude of [1.0] and [top] the magnitude of [2^1024], the first
    value that overflows. *)
Inductive float :=
| NaN
| Inf (neg : bool)
| Fin (neg : bool) (u : Z).

(** [2^k], computed by shifting. *)
Definition pow2 (k : Z) : Z := Z.shiftl 1 k.

Definition one : Z := Eval vm_compute in pow2 1074.
Definition top : Z := Eval vm_compute in pow2 2098.

(** Nearest integer to [n / d], ties to even ([0 <= n], [0 < d]). *)
Definition rne (n d : Z) : Z :=
  let '(q, r) := Z.div_eucl n d in
  match 2 * r ?= d with
  | Lt => q
  | Gt => q + 1
  | Eq => if Z.even q then q else q + 1
  end.

(** Spacing exponent of the binade of a magnitude [q]: below [2^53]
    units consecutive doubles are one unit apart (subnormals and the
    first normal binade), above they are [2^(log2 q - 52)] apart. *)
Definition binade (q : Z) : Z :=
  if q <? pow2 53 then 0 else Z.log2 q - 52.

(** Round the exact magnitude [n / d] units to the nearest double
    magnitude, ties to the even significand. *)
Definition round_units (n d : Z) : Z :=
  let k := binade (n / d) in
  rne n (d * pow2 k) * pow2 k.

(** Magnitudes of [2^1024] and above are infinite. *)
Definition pack (neg : bool) (u : Z) : float :=
  if u <? top then Fin neg u else Inf neg.

Definition signed (neg : bool) (u : Z) : Z := if neg then - u else u.

Definition fneg (x : float) : float :=
  match x with
  | NaN => NaN
  | Inf s => Inf (negb s)
  | Fin s u => Fin (negb s) u
  end.

Definition fadd (x y : float) : float :=
  match x, y with
  | NaN, _ | _, NaN => NaN
  | Inf s, Inf t => if Bool.eqb s t then Inf s else NaN
  | Inf s, Fin _ _ => Inf s
  | Fin _ _, Inf t => Inf t
  | Fin s u, Fin t v =>
      let z := signed s u + signed t v in
      if z =? 0 then Fin (s && t) 0
      else pack (z <? 0) (round_units (Z.abs z) 1)
  end.

Definition fsub (x y : float) : float := fadd x (fneg y).

Definition fmul (x y : float) : float :=
  match x, y with
  | NaN, _ | _, NaN => NaN
  | Inf s, Inf t => Inf (xorb s t)
  | Inf s, Fin t u => if u =? 0 then NaN else Inf (xorb s t)
  | Fin s u, Inf t => if u =? 0 then NaN else Inf (xorb s t)
  | Fin s u, Fin t v => pack (xorb s t) (round_units (Z.abs (u * v)) one)
  end.

(** Python's [==], [<], [<=], [>=] on floats: false on NaN, and the two
    zeros are equal. *)
Definition feq (x y : float) : bool :=
  match x, y with
  | NaN, _ | _, NaN => false
  | Inf s, Inf t => Bool.eqb s t
  | Inf _, Fin _ _ | Fin _ _, Inf _ => false
  | Fin s u, Fin t v => signed s u =? signed t v
  end.

Definition fle (x y : float) : bool :=
  match x, y with
  | NaN, _ | _, NaN => false
  | Inf s, Inf t => s || negb t
  | Inf s, Fin _ _ => s
  | Fin _ _, Inf t => negb t
  | Fin s u, Fin t v => signed s u <=? signed t v
  end.

Definition flt (x y : float) : bool :=
  match x, y with
  | NaN, _ | _, NaN => false
  | Inf s, Inf t => s && negb t
  | Inf s, Fin _ _ => s
  | Fin _ _, Inf t => negb t
  | Fin s u, Fin t v => signed s u <? signed t v
  end.

Definition is_finite (x : float) : bool :=
  match x with Fin _ _ => true | _ => false end.

Definition is_nan (x : float) : bool :=
  match x with NaN => true | _ => false end.

Definition is_inf (x : float) : bool :=
  match x with Inf _ => true | _ => false end.

(** The double nearest to the decimal [(-1)^neg * n * 10^k]
    (what [strtod] and float literals compute); overflow gives an
    infinity, underflow a signed zero. *)
Definition of_decimal (neg : bool) (n k : Z) : float :=
  if 0 <=? k then pack neg (round_units (n * 10 ^ k * one) 1)
  else pack neg (round_units (n * one) (10 ^ (- k))).

(** [float(z)] for a Python int: [OverflowError] when the rounded
    magnitude does not fit. *)
Definition of_int (z : Z) : result float :=
  let u := round_units (Z.abs z * one) 1 in
  if u <? top then Ok (Fin (z <? 0) u) else Raise OverflowError.

(** True division [a / b] of two Python ints. *)
Definition int_truediv (a b : Z) : result float :=
  if b =? 0 then Raise ZeroDivisionError
  else
    let u := round_units (Z.abs a * one) (Z.abs b) in
    if u <? top then Ok (Fin (xorb (a <? 0) (b <? 0)) u)
    else Raise OverflowError.

(** [int(x)] for a float: truncation toward zero. *)
Definition to_int (x : float) : result Z :=
  match x with
  | NaN => Raise ValueError
  | Inf _ => Raise OverflowError
  | Fin s u => Ok (signed s (u / one))
  end.

(** [round(x, 2)]: the exact binary value is rounded half-even to a
    whole number of hundredths, and the resulting decimal is converted
    back to the nearest double. *)
Definition round2_units (u : Z) : Z :=
  let cents := rne (u * 100) one in
  round_units (cents * one) 100.

Definition round2 (x : float) : result float :=
  match x with
  | Fin s u =>
      let r := round2_units u in
      if r <? top then Ok (Fin s r) else Raise OverflowError
  | _ => Ok x
  end.

(** A magnitude is that of a double when it is below [top] and a
    multiple of the spacing of its binade. *)
Definition representable (u : Z) : Prop :=
  0 <= u < top /\ u mod pow2 (binade u) = 0.

Definition valid (x : float) : Prop :=
  match x with
  | Fin _ u => representable u
  | _ => True
  end.

Definition representableb (u : Z) : bool :=
  (0 <=? u) && (u <? top) && (u mod pow2 (binade u) =? 0).

End B64.

(** ** Python values *)

(** What [str(v)] returns: a string, or the [repr] of a float, kept
    symbolic.  [float.__repr__] is the shortest decimal string that
    converts back to the same double, so [float(repr(f))] is [f]. *)
Inductive text :=
| Text (s : string)
| ReprOfFloat (f : B64.float).

(** An arbitrary object is characterised by what [float(o)], [str(o)]
    and [int(o)] do on it. *)
Record pyobject := {
  on_float : result B64.float;
  on_str : result string;
  on_int : result Z
}.

Inductive pyval :=
| PyNone
| PyBool (b : bool)
| PyInt (z : Z)
| PyFloat (f : B64.float)
| PyStr (s : string)
| PyObj (o : pyobject).

Abbreviation dict := (gmap string pyval).

(** *** Characters *)

Definition code (c : ascii) : Z := Z.of_N (N_of_ascii c).

Definition is_digit (c : ascii) : bool := (48 <=? code c) && (code c <=? 57).

Definition digit_val (c : ascii) : Z := code c - 48.

(** Whitespace among the code points below 256 ([str.isspace]): what
    the [Decimal] constructor strips from a string. *)
Definition is_space (c : ascii) : bool :=
  let n := code c in
  ((9 <=? n) && (n <=? 13)) || ((28 <=? n) && (n <=? 32))
  || (n =? 133) || (n =? 160).

(** What [float] and [int] strip from a string.  They first turn the
    whitespace above code point 127 (U+0085, U+00A0) into a space and
    then strip the C whitespace, code points 9 to 13 and 32; the
    separators U+001C to U+001F stay and make the literal malformed. *)
Definition is_numeric_space (c : ascii) : bool :=
  let n := code c in
  ((9 <=? n) && (n <=? 13)) || (n =? 32) || (n =? 133) || (n =? 160).

Definition to_lower (c : ascii) : ascii :=
  let n := code c in
  if (65 <=? n) && (n <=? 90) then ascii_of_N (Z.to_N (n + 32)) else c.

Fixpoint lower (s : string) : string :=
  match s with
  | EmptyString => EmptyString
  | String c r => String (to_lower c) (lower r)
  end.

Fixpoint lstrip (space : ascii -> bool) (s : string) : string :=
  match s with
  | String c r => if space c then lstrip space r else s
  | EmptyString => EmptyString
  end.

Fixpoint rev_string (s acc : string) : string :=
  match s with
  | EmptyString => acc
  | String c r => rev_string r (String c acc)
  end.

Definition rstrip (space : ascii -> bool) (s : string) : string :=
  rev_string (lstrip space (rev_string s EmptyString)) EmptyString.

Definition strip (space : ascii -> bool) (s : string) : string :=
  rstrip space (lstrip space s).

(** Leading run of decimal digits, as digit values, and the rest. *)
Fixpoint take_digits (s : string) : list Z * string :=
  match s with
  | String c r =>
      if is_digit c then
        let '(ds, rest) := take_digits r in (digit_val c :: ds, rest)
      else (nil, s)
  | EmptyString => (nil, EmptyString)
  end.

Definition digits_value (ds : list Z) : Z :=
  fold_left (fun acc d => 10 * acc + d) ds 0.

(** Optional sign: [true] for ['-']. *)
Definition take_sign (s : string) : bool * string :=
  match s with
  | String "-" r => (true, r)
  | String "+" r => (false, r)
  | _ => (false, s)
  end.

(** Numeric literals may hold single underscores between digits; they
    are checked and removed before parsing ([prev] is the previous
    character). *)
Fixpoint drop_underscores (prev : ascii) (s : string) : option string :=
  match s with
  | EmptyString => if Ascii.eqb prev "_" then None else Some EmptyString
  | String c r =>
      if Ascii.eqb c "_" then
        if is_digit prev then drop_underscores c r else None
      else if Ascii.eqb prev "_" && negb (is_digit c) then None
      else option_map (String c) (drop_underscores c r)
  end.

(** *** [float(s)] for a string *)

(** Exponent part [e[+-]ddd]; a malformed exponent is left unread. *)
Definition take_exponent (s : string) : Z * string :=
  match s with
  | String c r =>
      if Ascii.eqb (to_lower c) "e" then
        let '(neg, r1) := take_sign r in
        match take_digits r1 with
        | (nil, _) => (0, s)
        | (ds, rest) => (B64.signed neg (digits_value ds), rest)
        end
      else (0, s)
  | EmptyString => (0, s)
  end.

Definition float_of_literal (s : string) : option B64.float :=
  let '(neg, body) := take_sign s in
  let low := lower body in
  if String.eqb low "inf" || String.eqb low "infinity" then Some (B64.Inf neg)
  else if String.eqb low "nan" then Some B64.NaN
  else
    let '(ip, r1) := take_digits body in
    let '(fp, r2) :=
      match r1 with
      | String "." r => take_digits r
      | _ => (nil, r1)
      end in
    match ip ++ fp with
    | nil => None
    | ds =>
        match take_exponent r2 with
        | (ex, EmptyString) =>
            Some (B64.of_decimal neg (digits_value ds)
                    (ex - Z.of_nat (length fp)))
        | _ => None
        end
    end.

Definition float_of_string (s : string) : result B64.float :=
  match drop_underscores "000" (strip is_numeric_space s) with
  | Some t =>
      match float_of_literal t with
      | Some f => Ok f
      | None => Raise ValueError
      end
  | None => Raise ValueError
  end.

(** *** [int(s)] for a string, base 10 *)

Definition int_max_str_digits : Z := 4300.

Definition int_of_string (s : string) : result Z :=
  match drop_underscores "000" (strip is_numeric_space s) with
  | Some t =>
      let '(neg, body) := take_sign t in
      match take_digits body with
      | (d :: ds, EmptyString) =>
          if Z.of_nat (length (d :: ds)) <=? int_max_str_digits
          then Ok (B64.signed neg (digits_value (d :: ds)))
          else Raise ValueError
      | _ => Raise ValueError
      end
  | None => Raise ValueError
  end.

(** *** The conversions [float(v)], [str(v)], [int(v)] *)

Definition zero : B64.float := B64.Fin false 0.

Definition py_float (v : pyval) : result B64.float :=
  match v with
  | PyNone => Raise TypeError
  | PyBool b => B64.of_int (if b then 1 else 0)
  | PyInt z => B64.of_int z
  | PyFloat f => Ok f
  | PyStr s => float_of_string s
  | PyObj o => on_float o
  end.

Definition str_of_int (z : Z) : result string :=
  let s := NilZero.string_of_int (Z.to_int z) in
  let digits := Z.of_nat (String.length s) - (if z <? 0 then 1 else 0) in
  if digits <=? int_max_str_digits then Ok s else Raise ValueError.

Definition py_str (v : pyval) : result text :=
  match v with
  | PyNone => Ok (Text "None")
  | PyBool b => Ok (Text (if b then "True" else "False"))
  | PyInt z => let? s := str_of_int z in Ok (Text s)
  | PyFloat f => Ok (ReprOfFloat f)
  | PyStr s => Ok (Text s)
  | PyObj o => let? s := on_str o in Ok (Text s)
  end.

(** [float(t)] for the result of [str]. *)
Definition float_of_text (t : text) : result B64.float :=
  match t with
  | Text s => float_of_string s
  | ReprOfFloat f => Ok f
  end.

Definition py_int (v : pyval) : result Z :=
  match v with
  | PyNone => Raise TypeError
  | PyBool b => Ok (if b then 1 else 0)
  | PyInt z => Ok z
  | PyFloat f => B64.to_int f
  | PyStr s => int_of_string s
  | PyObj o => on_int o
  end.

(** ** [datetime] *)

Record datetime := {
  dt_year : Z;
  dt_month : Z;
  dt_day : Z;
  dt_hour : Z;
  dt_minute : Z;
  dt_second : Z;
  dt_microsecond : Z;
  dt_aware : bool   (* [utcoffset()] is not [None] *)
}.

Definition is_leap (y : Z) : bool :=
  (y mod 4 =? 0) && (negb (y mod 100 =? 0) || (y mod 400 =? 0)).

Definition days_before_year (year : Z) : Z :=
  let y := year - 1 in
  y * 365 + y / 4 - y / 100 + y / 400.

Definition DAYS_IN_MONTH : list Z :=
  [31; 28; 31; 30; 31; 30; 31; 31; 30; 31; 30; 31].

Definition days_in_month (year month : Z) : Z :=
  if (month =? 2) && is_leap year then 29
  else nth (Z.to_nat (month - 1)) DAYS_IN_MONTH 0.

Definition DAYS_BEFORE_MONTH : list Z :=
  [0; 31; 59; 90; 120; 151; 181; 212; 243; 273; 304; 334].

Definition days_before_month (year month : Z) : Z :=
  nth (Z.to_nat (month - 1)) DAYS_BEFORE_MONTH 0
  + (if (2 <? month) && is_leap year then 1 else 0).

Definition ymd2ord (year month day : Z) : Z :=
  days_before_year year + days_before_month year month + day.

Definition toordinal (d : datetime) : Z :=
  ymd2ord (dt_year d) (dt_month d) (dt_day d).

(** The constructor checks of [datetime(year, month, day)]. *)
Definition make_datetime (year month day : Z) : result datetime :=
  if (1 <=? year) && (year <=? 9999) && (1 <=? month) && (month <=? 12)
     && (1 <=? day) && (day <=? days_in_month year month)
  then Ok {| dt_year := year; dt_month := month; dt_day := day;
             dt_hour := 0; dt_minute := 0; dt_second := 0;
             dt_microsecond := 0; dt_aware := false |}
  else Raise ValueError.

(** The field ranges every [datetime] object satisfies. *)
Definition valid_datetime (d : datetime) : Prop :=
  1 <= dt_year d <= 9999 /\ 1 <= dt_month d <= 12
  /\ 1 <= dt_day d <= days_in_month (dt_year d) (dt_month d)
  /\ 0 <= dt_hour d < 24 /\ 0 <= dt_minute d < 60
  /\ 0 <= dt_second d < 60 /\ 0 <= dt_microsecond d < 1000000.

(** *** [datetime.strptime(s, "%Y-%m-%d")]

    The format compiles to the regular expression
    [(\d\d\d\d)-(1[0-2]|0[1-9]|[1-9])-(3[0-1]|[1-2]\d|0[1-9]|[1-9]| [1-9])],
    matched at the start of the string; the match must cover the whole
    string.  Alternatives are tried in order. *)

Definition in_range (c lo hi : ascii) : bool :=
  (code lo <=? code c) && (code c <=? code hi).

Definition match_year (s : string) : option (Z * string) :=
  match s with
  | String a (String b (String c (String d r))) =>
      if is_digit a && is_digit b && is_digit c && is_digit d
      then Some (digits_value (map digit_val [a; b; c; d]), r)
      else None
  | _ => None
  end.

Definition match_month (s : string) : list (Z * string) :=
  match s with
  | String a r =>
      match r with
      | String b r' =>
          (if Ascii.eqb a "1" && in_range b "0" "2"
           then [(10 + digit_val b, r')] else [])
          ++ (if Ascii.eqb a "0" && in_range b "1" "9"
              then [(digit_val b, r')] else [])
      | EmptyString => []
      end
      ++ (if in_range a "1" "9" then [(digit_val a, r)] else [])
  | EmptyString => []
  end.

Definition match_day (s : string) : list (Z * string) :=
  match s with
  | String a r =>
      match r with
      | String b r' =>
          (if Ascii.eqb a "3" && in_range b "0" "1"
           then [(30 + digit_val b, r')] else [])
          ++ (if in_range a "1" "2" && is_digit b
              then [(10 * digit_val a + digit_val b, r')] else [])
          ++ (if Ascii.eqb a "0" && in_range b "1" "9"
              then [(digit_val b, r')] else [])
      | EmptyString => []
      end
      ++ (if in_range a "1" "9" then [(digit_val a, r)] else [])
      ++ match r with
         | String b r' =>
             if Ascii.eqb a " " && in_range b "1" "9"
             then [(digit_val b, r')] else []
         | EmptyString => []
         end
  | EmptyString => []
  end.

Definition skip_dash (s : string) : option string :=
  match s with
  | String c r => if Ascii.eqb c "-" then Some r else None
  | EmptyString => None
  end.

(** First match of the regular expression: year, month, day and the
    unread rest. *)
Definition match_ymd (s : string) : option (Z * Z * Z * string) :=
  match match_year s with
  | Some (y, r0) =>
      match skip_dash r0 with
      | Some r1 =>
          head (flat_map (fun '(m, r2) =>
                  match skip_dash r2 with
                  | Some r3 => map (fun '(d, r4) => (y, m, d, r4)) (match_day r3)
                  | None => []
                  end) (match_month r1))
      | None => None
      end
  | None => None
  end.

Definition strptime (v : pyval) : result datetime :=
  match v with
  | PyStr s =>
      match match_ymd s with
      | Some (y, m, d, EmptyString) => make_datetime y m d
      | _ => Raise ValueError
      end
  | _ => Raise TypeError
  end.

(** [(a - b).days]: mixing an aware and a naive datetime is a
    [TypeError]; otherwise the difference is normalised so that the
    seconds and microseconds are non-negative. *)
Definition sub_days (a b : datetime) : result Z :=
  if negb (Bool.eqb (dt_aware a) (dt_aware b)) then Raise TypeError
  else
    let secs x := dt_second x + dt_minute x * 60 + dt_hour x * 3600 in
    let us := (secs a - secs b) * 1000000
              + (dt_microsecond a - dt_microsecond b) in
    Ok (toordinal a - toordinal b + us / 86400000000).

(** ** app/score.py *)

Definition lit_0_005 : B64.float := Eval vm_compute in B64.of_decimal false 5 (-3).
Definition lit_1_2 : B64.float := Eval vm_compute in B64.of_decimal false 12 (-1).
Definition lit_1_1 : B64.float := Eval vm_compute in B64.of_decimal false 11 (-1).
Definition lit_1_0 : B64.float := Eval vm_compute in B64.of_decimal false 10 (-1).

(** [int * float] and [float * int]: the int operand is converted
    first, which raises [OverflowError] when it is too large. *)
Definition fmul_int (x : B64.float) (z : Z) : result B64.float :=
  let? y := B64.of_int z in Ok (B64.fmul x y).

(** Lines 20-27: value parsing. *)
Definition parse_value (e : dict) : result B64.float :=
  let v := default PyNone (e !! "value") in
  try_except (py_float v)
    (try_except (let? t := py_str v in float_of_text t)
       (Ok zero)).

(** Lines 30-34: weight parsing. *)
Definition int_weight (e : dict) : result Z :=
  let w := default (PyInt 1) (e !! "weight") in
  try_except (py_int w) (Ok 1).

(** Lines 36-39: clamping, with the [w == -0] branch. *)
Definition clamp_weight (w : Z) : Z :=
  let w := if w <? 0 then 0 else w in
  if w =? - 0 then 0 else w.

Definition parse_weight (e : dict) : result Z :=
  let? w := int_weight e in
  Ok (clamp_weight w).

(** Lines 18-42: one iteration of the loop. *)
Definition add_event (total : B64.float) (e : dict) : result B64.float :=
  let? v := parse_value e in
  let? w := parse_weight e in
  let? vw := fmul_int v w in
  Ok (B64.fadd total vw).

Fixpoint accumulate (total : B64.float) (events : list dict)
  : result B64.float :=
  match events with
  | [] => Ok total
  | e :: rest =>
      let? total := add_event total e in
      accumulate total rest
  end.

Definition clamp_years (years : Z) : Z :=
  let years := if 7 <=? years then 6 else years in
  if years <=? -1 then 0 else years.

(** Lines 45-60: the loyalty bonus. *)
Definition loyalty_bonus (user : dict) (now : datetime) : result B64.float :=
  let bonus := zero in
  try_except
    (let created_raw := default (PyStr "") (user !! "created_at") in
     let? created := strptime created_raw in
     let? days := sub_days now created in
     let? q := B64.int_truediv days 365 in
     let? years := B64.to_int q in
     let years := clamp_years years in
     let? y := B64.of_int years in
     Ok (B64.fmul y lit_0_005))
    (Ok (B64.fadd bonus zero)).

(** Line 63. *)
Definition apply_bonus (total bonus : B64.float) : B64.float :=
  B64.fsub total (B64.fmul total bonus).

Definition tier_is (tier : pyval) (name : string) : bool :=
  match tier with
  | PyStr s => String.eqb s name
  | _ => false
  end.

(** Lines 65-74. *)
Definition tier_multiplier (user : dict) : B64.float :=
  let tier := default PyNone (user !! "tier") in
  if tier_is tier "vip" then lit_1_2
  else if tier_is tier "pro" then lit_1_1
  else lit_1_0.

(** [calc_score(events, user, now)] with [now] given; [resolve_now]
    is the [now is None] default of lines 13-14, the clock reading
    [utcnow] being naive. *)
Definition resolve_now (now : option datetime) (utcnow : datetime) : datetime :=
  match now with
  | Some n => n
  | None => utcnow
  end.

Definition calc_score (events : list dict) (user : dict) (now : datetime)
  : result B64.float :=
  let? total := accumulate zero events in
  let? bonus := loyalty_bonus user now in
  let total := apply_bonus total bonus in
  let total := B64.fmul total (tier_multiplier user) in
  let? total := B64.round2 total in
  B64.round2 total.

(** ** [decimal.Decimal] under the default context

    Precision 28, [ROUND_HALF_EVEN], [Emax = 999999], [Emin = -999999],
    traps on [InvalidOperation], [DivisionByZero] and [Overflow]. *)

Module Dec.

Inductive decimal :=
| DFin (neg : bool) (coeff : Z) (exp : Z)   (* (-1)^neg * coeff * 10^exp *)
| DInf (neg : bool)
| DNaN (neg : bool) (signaling : bool) (payload : Z).

Definition prec : Z := 28.
Definition Emax : Z := 999999.
Definition Emin : Z := -999999.
Definition Etiny : Z := Emin - prec + 1.
Definition Etop : Z := Emax - prec + 1.

(** [len(self._int)]: the number of decimal digits of the coefficient. *)
Definition ndigits (n : Z) : Z :=
  Z.of_nat (String.length (NilZero.string_of_int (Z.to_int n))).

(** [_fix_nan]: the payload keeps its last [prec] digits. *)
Definition fix_nan (d : decimal) : decimal :=
  match d with
  | DNaN s g p => DNaN s g (p mod 10 ^ prec)
  | _ => d
  end.

(** [_fix]: round to the context's precision and exponent range. *)
Definition fix_ (d : decimal) : result decimal :=
  match d with
  | DFin s c e =>
      if c =? 0 then Ok (DFin s 0 (Z.min (Z.max e Etiny) Emax))
      else
        let exp_min := ndigits c + e - prec in
        if Etop <? exp_min then Raise DecimalOverflow
        else
          let exp_min := Z.max exp_min Etiny in
          if e <? exp_min then
            let digits := ndigits c + e - exp_min in
            let '(c, e) := if digits <? 0 then (1, exp_min - 1) else (c, e) in
            let c' := B64.rne c (10 ^ (exp_min - e)) in
            let '(c', exp_min) :=
              if prec <? ndigits c' then (c' / 10, exp_min + 1)
              else (c', exp_min) in
            if Etop <? exp_min then Raise DecimalOverflow
            else Ok (DFin s c' exp_min)
          else Ok d
  | DInf _ => Ok d
  | DNaN _ _ _ => Ok (fix_nan d)
  end.

(** The loop of [__truediv__] that brings an exact quotient as close to
    the ideal exponent as its trailing zeros allow. *)
Fixpoint to_ideal (fuel : nat) (coeff exp ideal : Z) : Z * Z :=
  match fuel with
  | O => (coeff, exp)
  | S f =>
      if (exp <? ideal) && (coeff mod 10 =? 0)
      then to_ideal f (coeff / 10) (exp + 1) ideal
      else (coeff, exp)
  end.

(** [Decimal.__truediv__]. *)
Definition truediv (a b : decimal) : result decimal :=
  match a, b with
  | DNaN _ true _, _ => Raise InvalidOperation
  | _, DNaN _ true _ => Raise InvalidOperation
  | DNaN _ false _, _ => Ok (fix_nan a)
  | _, DNaN _ false _ => Ok (fix_nan b)
  | DInf _, DInf _ => Raise InvalidOperation
  | DInf s, DFin t _ _ => Ok (DInf (xorb s t))
  | DFin s _ _, DInf t => Ok (DFin (xorb s t) 0 Etiny)
  | DFin s c1 e1, DFin t c2 e2 =>
      let sign := xorb s t in
      if c2 =? 0 then
        if c1 =? 0 then Raise InvalidOperation   (* DivisionUndefined *)
        else Raise DivisionByZero
      else if c1 =? 0 then fix_ (DFin sign 0 (e1 - e2))
      else
        let shift := ndigits c2 - ndigits c1 + prec + 1 in
        let exp := e1 - e2 - shift in
        let '(coeff, remainder) :=
          if 0 <=? shift then Z.div_eucl (c1 * 10 ^ shift) c2
          else Z.div_eucl c1 (c2 * 10 ^ (- shift)) in
        let '(coeff, exp) :=
          if remainder =? 0
          then to_ideal (Z.to_nat (e1 - e2 - exp)) coeff exp (e1 - e2)
          else (if coeff mod 5 =? 0 then coeff + 1 else coeff, exp) in
        fix_ (DFin sign coeff exp)
  end.

(** [d == 0]: a signalling NaN raises, a quiet NaN compares unequal. *)
Definition eq_zero (d : decimal) : result bool :=
  match d with
  | DFin _ c _ => Ok (c =? 0)
  | DInf _ => Ok false
  | DNaN _ true _ => Raise InvalidOperation
  | DNaN _ false _ => Ok false
  end.

Fixpoint strip_zeros (fuel : nat) (coeff exp : Z) : Z * Z :=
  match fuel with
  | O => (coeff, exp)
  | S f =>
      if (coeff mod 10 =? 0) && (exp <? Emax)
      then strip_zeros f (coeff / 10) (exp + 1)
      else (coeff, exp)
  end.

(** [Decimal.normalize]. *)
Definition normalize (d : decimal) : result decimal :=
  match d with
  | DNaN _ true _ => Raise InvalidOperation
  | DNaN _ false _ => Ok (fix_nan d)
  | _ =>
      let? dup := fix_ d in
      match dup with
      | DFin s c e =>
          if c =? 0 then Ok (DFin s 0 0)
          else
            let '(c', e') := strip_zeros (Z.to_nat (ndigits c)) c e in
            Ok (DFin s c' e')
      | _ => Ok dup
      end
  end.

(** *** The constructor [Decimal(x)] *)

Fixpoint remove_underscores (s : string) : string :=
  match s with
  | EmptyString => EmptyString
  | String c r =>
      if Ascii.eqb c "_" then remove_underscores r
      else String c (remove_underscores r)
  end.

(** Exponent part of a decimal literal: [E[+-]ddd] up to the end. *)
Definition literal_exponent (s : string) : option Z :=
  match s with
  | EmptyString => Some 0
  | String c r =>
      if Ascii.eqb (to_lower c) "e" then
        let '(neg, r1) := take_sign r in
        match take_digits r1 with
        | (d :: ds, EmptyString) => Some (B64.signed neg (digits_value (d :: ds)))
        | _ => None
        end
      else None
  end.

(** The constructor converts exactly, in the widest context of the
    library: precision and [Emax] are [10^18 - 1] there and [Emin] is
    [- Emax].  A coefficient [c] with exponent [e] is held exactly when
    its adjusted exponent is at most [Emax] and [e] is at least
    [Etiny]; a zero coefficient counts as one digit.  (A coefficient
    of [10^18] digits or more is refused too; no string is that
    long.) *)
Definition MAX_PREC : Z := 999999999999999999.
Definition MAX_EMAX : Z := 999999999999999999.
Definition MAX_ETINY : Z := - MAX_EMAX - MAX_PREC + 1.

Definition is_exact (c e : Z) : bool :=
  (e + ndigits c - 1 <=? MAX_EMAX) && (MAX_ETINY <=? e).

Definition of_literal (s : string) : option decimal :=
  let '(neg, body) := take_sign s in
  let low := lower body in
  if String.eqb low "inf" || String.eqb low "infinity" then Some (DInf neg)
  else
    match low with
    | String "n" (String "a" (String "n" diag)) =>
        match take_digits diag with
        | (ds, EmptyString) => Some (DNaN neg false (digits_value ds))
        | _ => None
        end
    | String "s" (String "n" (String "a" (String "n" diag))) =>
        match take_digits diag with
        | (ds, EmptyString) => Some (DNaN neg true (digits_value ds))
        | _ => None
        end
    | _ =>
        let '(ip, r1) := take_digits body in
        let '(fp, r2) :=
          match r1 with
          | String "." r => take_digits r
          | _ => (nil, r1)
          end in
        match ip ++ fp with
        | nil => None
        | ds =>
            match literal_exponent r2 with
            | Some ex =>
                let c := digits_value ds in
                let e := ex - Z.of_nat (length fp) in
                if is_exact c e then Some (DFin neg c e) else None
            | None => None
            end
        end
    end.

Definition of_string (s : string) : result decimal :=
  match of_literal (remove_underscores (strip is_space s)) with
  | Some d => Ok d
  | None => Raise InvalidOperation
  end.

(** *** [Decimal] of a tuple or list [(sign, digits, exponent)] *)

(** An element of the digit sequence: an int ([True] and [False] are
    the ints 1 and 0) or anything else. *)
Inductive element :=
| EInt (z : Z)
| EOther.

(** An element of the tuple or list. *)
Inductive item :=
| IInt (z : Z)               (* an int; [True] and [False] are 1 and 0 *)
| IStr (s : string)
| ISeq (xs : list element)   (* a tuple or a list *)
| IOther.                    (* anything else *)

(** An int as a C [long] or [ssize_t], both of 64 bits. *)
Definition as_long (z : Z) : result Z :=
  if (- 2 ^ 63 <=? z) && (z <? 2 ^ 63) then Ok z else Raise OverflowError.

(** The sign: the int 0 or 1. *)
Definition sign_of (x : item) : result bool :=
  match x with
  | IInt z =>
      let? l := as_long z in
      if l =? 0 then Ok false
      else if l =? 1 then Ok true
      else Raise ValueError
  | _ => Raise ValueError
  end.

(** The third element: ["F"] for an infinity, ["n"] for a quiet and
    ["N"] for a signalling NaN, or an int exponent. *)
Inductive kind :=
| KInf
| KNaN (signaling : bool)
| KExp (e : Z).

Definition kind_of (x : item) : result kind :=
  match x with
  | IStr s =>
      if String.eqb s "F" then Ok KInf
      else if String.eqb s "n" then Ok (KNaN false)
      else if String.eqb s "N" then Ok (KNaN true)
      else Raise ValueError
  | IInt z => let? e := as_long z in Ok (KExp e)
  | _ => Raise ValueError
  end.

(** The digits, checked from left to right: ints from 0 to 9. *)
Fixpoint digits_of (xs : list element) : result (list Z) :=
  match xs with
  | [] => Ok []
  | EInt z :: rest =>
      let? l := as_long z in
      if (0 <=? l) && (l <=? 9) then
        let? ds := digits_of rest in Ok (l :: ds)
      else Raise ValueError
  | EOther :: _ => Raise ValueError
  end.

Definition coefficient_of (x : item) : result (list Z) :=
  match x with
  | ISeq ys => digits_of ys
  | _ => Raise ValueError
  end.

(** The sign is checked first, then the exponent, then the digits.
    The digits of an infinity are checked and dropped; no digits at
    all stand for a zero coefficient or an empty payload. *)
Definition of_sequence (xs : list item) : result decimal :=
  match xs with
  | [sign; coefficient; exponent] =>
      let? neg := sign_of sign in
      let? k := kind_of exponent in
      let? ds := coefficient_of coefficient in
      match k with
      | KInf => Ok (DInf neg)
      | KNaN signaling => Ok (DNaN neg signaling (digits_value ds))
      | KExp e =>
          let c := digits_value ds in
          if is_exact c e then Ok (DFin neg c e) else Raise InvalidOperation
      end
  | _ => Raise ValueError
  end.

(** Number of trailing zero bits, at most [fuel]. *)
Fixpoint trailing_zeros (fuel : nat) (u : Z) : Z :=
  match fuel with
  | O => 0
  | S f => if Z.even u then 1 + trailing_zeros f (u / 2) else 0
  end.

(** [Decimal.from_float]: exact.  The value [u * 2^-1074] is the ratio
    [n / 2^k] in lowest terms, that is [n * 5^k * 10^-k]. *)
Definition of_float (f : B64.float) : decimal :=
  match f with
  | B64.NaN => DNaN false false 0
  | B64.Inf s => DInf s
  | B64.Fin s u =>
      if u =? 0 then DFin s 0 0
      else
        let j := trailing_zeros 1074 u in
        let k := 1074 - j in
        DFin s (u / B64.pow2 j * 5 ^ k) (- k)
  end.

End Dec.

(** ** mathoperation/division.py *)

(** What [divide] may be called with. *)
Inductive number :=
| NInt (z : Z)
| NBool (b : bool)
| NFloat (f : B64.float)
| NDecimal (d : Dec.decimal)
| NStr (s : string)
| NSeq (xs : list Dec.item)         (* a tuple or a list *)
| NNone
| NObject (eq_zero : result bool).  (* any other object [o], with what
                                       [o == 0] gives as a truth value *)

Definition Decimal (x : number) : result Dec.decimal :=
  match x with
  | NInt z => Ok (Dec.DFin (z <? 0) (Z.abs z) 0)
  | NBool b => Ok (Dec.DFin false (if b then 1 else 0) 0)
  | NFloat f => Ok (Dec.of_float f)
  | NDecimal d => Ok d
  | NStr s => Dec.of_string s
  | NSeq xs => Dec.of_sequence xs
  | NNone => Raise TypeError
  | NObject _ => Raise TypeError
  end.

(** [except (InvalidOperation, ValueError, TypeError)]. *)
Definition caught (e : exn) : bool :=
  match e with
  | InvalidOperation | ValueError | TypeError => true
  | _ => false
  end.

Definition divide (numerator denominator : number) : result Dec.decimal :=
  let? converted :=
    match (let? num := Decimal numerator in
           let? den := Decimal denominator in
           Ok (num, den)) with
    | Ok p => Ok p
    | Raise exc => if caught exc then Raise ValueError else Raise exc
    end in
  let '(num, den) := converted in
  let? z := Dec.eq_zero den in
  if z then Raise ZeroDivisionError
  else
    let? q := Dec.truediv num den in
    Dec.normalize q.

(** ** Sample inputs: the reference time and records of the test vectors *)

Definition now_2025 : datetime :=
  {| dt_year := 2025; dt_month := 1; dt_day := 1;
     dt_hour := 0; dt_minute := 0; dt_second := 0;
     dt_microsecond := 0; dt_aware := false |}.

(** The same instant with [tzinfo=timezone.utc]. *)
Definition now_2025_utc : datetime :=
  {| dt_year := 2025; dt_month := 1; dt_day := 1;
     dt_hour := 0; dt_minute := 0; dt_second := 0;
     dt_microsecond := 0; dt_aware := true |}.

Definition user_of (tier created_at : string) : dict :=
  {[ "tier" := PyStr tier; "created_at" := PyStr created_at ]}.

Definition user_created (created_at : string) : dict :=
  {[ "created_at" := PyStr created_at ]}.

Definition event_of (value weight : pyval) : dict :=
  {[ "value" := value; "weight" := weight ]}.

Definition event_value (value : pyval) : dict := {[ "value" := value ]}.

(** ** Auxiliary notions used in the statements *)

Import B64.

Definition magnitude (x : float) : Z :=
  match x with
  | Fin _ u => u
  | _ => 0
  end.

(** The floats [2.675] and [1e300]. *)
Definition float_2_675 : float := Eval vm_compute in of_decimal false 2675 (-3).
Definition float_1e300 : float := Eval vm_compute in of_decimal false 1 300.

(** The double nearest to [c] hundredths. *)
Definition of_cents (c : Z) : Z := round_units (c * one) 100.

(** A total the loop can hold: a double other than [-0.0]. *)
Definition reachable (t : float) : Prop := valid t /\ t <> Fin true 0.

(** Non-negative doubles and [+inf]. *)
Definition nonneg_ext (x : float) : Prop :=
  match x with
  | Fin false u => representable u
  | Inf false => True
  | _ => False
  end.

(** The score as a function of the bonus-adjusted total and the
    multiplier (lines 68-78). *)
Definition tier_score (t m : float) : result float :=
  let? a := round2 (fmul t m) in round2 a.

(** [isinstance(e, ZeroDivisionError)]. *)
Definition is_zero_division (e : exn) : bool :=
  match e with
  | ZeroDivisionError | DivisionByZero => true
  | _ => false
  end.

Definition is_snan (d : Dec.decimal) : bool :=
  match d with
  | Dec.DNaN _ true _ => true
  | _ => false
  end.

Definition is_dinf (d : Dec.decimal) : bool :=
  match d with
  | Dec.DInf _ => true
  | _ => false
  end.

Definition is_dfin (d : Dec.decimal) : bool :=
  match d with
  | Dec.DFin _ _ _ => true
  | _ => false
  end.

(** Whether every character of a string satisfies [p]. *)
Fixpoint string_forall (p : ascii -> bool) (s : string) : bool :=
  match s with
  | EmptyString => true
  | String c r => p c && string_forall p r
  end.

(** The digit values of a decimal numeral, most significant first. *)
Fixpoint uint_digits (d : Decimal.uint) : list Z :=
  match d with
  | Decimal.Nil => []
  | Decimal.D0 d => 0 :: uint_digits d
  | Decimal.D1 d => 1 :: uint_digits d
  | Decimal.D2 d => 2 :: uint_digits d
  | Decimal.D3 d => 3 :: uint_digits d
  | Decimal.D4 d => 4 :: uint_digits d
  | Decimal.D5 d => 5 :: uint_digits d
  | Decimal.D6 d => 6 :: uint_digits d
  | Decimal.D7 d => 7 :: uint_digits d
  | Decimal.D8 d => 8 :: uint_digits d
  | Decimal.D9 d => 9 :: uint_digits d
  end.

(** ** Comparison with the Standard Library's binary64 specification

    [to_spec] maps a double of this model to the [spec_float] of
    [SpecFloat]: significand and exponent instead of a magnitude in
    units. *)

Definition to_spec (x : float) : spec_float :=
  match x with
  | NaN => S754_nan
  | Inf s => S754_infinity s
  | Fin s u =>
      match u / pow2 (binade u) with
      | Zpos m => S754_finite s m (binade u - 1074)
      | _ => S754_zero s
      end
  end.

Definition same_spec (x y : spec_float) : bool :=
  match x, y with
  | S754_nan, S754_nan => true
  | S754_zero s, S754_zero t => Bool.eqb s t
  | S754_infinity s, S754_infinity t => Bool.eqb s t
  | S754_finite s m e, S754_finite t n f =>
      Bool.eqb s t && Pos.eqb m n && (e =? f)
  | _, _ => false
  end.

Definition samples : list float :=
  Eval vm_compute in
  [NaN; Inf false; Inf true; Fin false 0; Fin true 0; Fin false 1;
   of_decimal true 11 (-1); of_decimal false 2925 (-3);
   of_decimal false 17 307; of_decimal false 3 (-320);
   Fin false (pow2 53 + 2)].

Definition agree (f : float -> float -> float)
    (g : spec_float -> spec_float -> spec_float) : bool :=
  forallb (fun x => forallb (fun y =>
    same_spec (to_spec (f x y)) (g (to_spec x) (to_spec y))) samples) samples.

Definition int_samples : list Z :=
  [1; -7; 365; 1827; 3; 1000000007; -3652059; 9007199254740991].

Definition agree_truediv : bool :=
  forallb (fun a => forallb (fun b =>
    match int_truediv a b with
    | Ok q => same_spec (to_spec q)
                (SFdiv 53 1024 (binary_normalize 53 1024 a 0 false)
                   (binary_normalize 53 1024 b 0 false))
    | Raise _ => false
    end) int_samples) (0 :: int_samples).

Definition agree_of_int : bool :=
  forallb (fun a =>
    match of_int a with
    | Ok q => same_spec (to_spec q) (binary_normalize 53 1024 a 0 false)
    | Raise _ => false
    end) [0; 1; -7; 9007199254740993; 9007199254740995;
          -12345678901234567890; 10 ^ 300 + 7].

(** ** Further constants *)

(** The float [0.03]. *)
Definition float_0_03 : float := Eval vm_compute in of_decimal false 3 (-2).

(** The first integer whose conversion to a float overflows:
    [2^1024 - 2^970], halfway between the largest double and [2^1024]. *)
Definition float_int_limit : Z := Eval vm_compute in 2 ^ 1024 - 2 ^ 970.

(** The product [v * w] of an event (lines 20-42). *)
Definition event_product (e : dict) : result float :=
  let? v := parse_value e in
  let? w := parse_weight e in
  fmul_int v w.

(** ** tests/resources/division: the reference copy and the faulty
    variants of [divide] *)

(** [denominator == 0] on the argument as passed: numbers compare by
    value; a string, a tuple, a list or [None] is not equal to [0];
    any other object decides by its own [__eq__]. *)
Definition raw_eq_zero (x : number) : result bool :=
  match x with
  | NInt z => Ok (z =? 0)
  | NBool b => Ok (negb b)
  | NFloat f => Ok (feq f zero)
  | NDecimal d => Dec.eq_zero d
  | NStr _ | NSeq _ | NNone => Ok false
  | NObject eq_zero => eq_zero
  end.

(** Well-formed arguments: a float is a double, the coefficient of a
    decimal is not negative. *)
Definition wf_decimal (d : Dec.decimal) : Prop :=
  match d with
  | Dec.DFin _ c _ => 0 <= c
  | _ => True
  end.

Definition wf_number (x : number) : Prop :=
  match x with
  | NFloat f => valid f
  | NDecimal d => wf_decimal d
  | _ => True
  end.

(** correct.py *)
Module Correct.
Definition divide (numerator denominator : number) : result Dec.decimal :=
  let? converted :=
    match (let? num := Decimal numerator in
           let? den := Decimal denominator in
           Ok (num, den)) with
    | Ok p => Ok p
    | Raise exc => if caught exc then Raise ValueError else Raise exc
    end in
  let '(num, den) := converted in
  let? z := Dec.eq_zero den in
  if z then Raise ZeroDivisionError
  else
    let? q := Dec.truediv num den in
    Dec.normalize q.
End Correct.

(** broken_invalid_input.py: no conversion guard. *)
Module BrokenInvalidInput.
Definition divide (numerator denominator : number) : result Dec.decimal :=
  let? z := raw_eq_zero denominator in
  if z then Raise ZeroDivisionError
  else
    let? num := Decimal numerator in
    let? den := Decimal denominator in
    Dec.truediv num den.
End BrokenInvalidInput.

(** broken_zero_division.py: a zero denominator gives [Decimal("0")]. *)
Module BrokenZeroDivision.
Definition divide (numerator denominator : number) : result Dec.decimal :=
  let? z := raw_eq_zero denominator in
  if z then Dec.of_string "0"
  else
    let? num := Decimal numerator in
    let? den := Decimal denominator in
    Dec.truediv num den.
End BrokenZeroDivision.

(** ** mathoperation/test_division.py *)

Definition implementation : Type := number -> number -> result Dec.decimal.

(** [a == b] on two decimals: numeric equality; a signalling NaN
    raises, a quiet NaN is unequal to everything. *)
Definition decimal_eq (a b : Dec.decimal) : result bool :=
  match a, b with
  | Dec.DNaN _ true _, _ | _, Dec.DNaN _ true _ => Raise InvalidOperation
  | Dec.DNaN _ false _, _ | _, Dec.DNaN _ false _ => Ok false
  | Dec.DInf s, Dec.DInf t => Ok (Bool.eqb s t)
  | Dec.DInf _, Dec.DFin _ _ _ | Dec.DFin _ _ _, Dec.DInf _ => Ok false
  | Dec.DFin s c e, Dec.DFin t d f =>
      if (c =? 0) || (d =? 0) then Ok ((c =? 0) && (d =? 0))
      else
        let m := Z.min e f in
        Ok (Bool.eqb s t && (c * 10 ^ (e - m) =? d * 10 ^ (f - m)))
  end.

Inductive outcome := passed | failed.

(** [assertEqual(Decimal("2.5"), divide(10, 4))] *)
Definition test_divides_numbers_as_decimal (divide : implementation) : outcome :=
  match (let? result := divide (NInt 10) (NInt 4) in
         let? expected := Dec.of_string "2.5" in
         decimal_eq expected result) with
  | Ok true => passed
  | _ => failed
  end.

(** [with assertRaises(ZeroDivisionError): divide(1, 0)] *)
Definition test_zero_denominator_raises (divide : implementation) : outcome :=
  match divide (NInt 1) (NInt 0) with
  | Raise e => if is_zero_division e then passed else failed
  | Ok _ => failed
  end.

(** [with assertRaises(ValueError): divide("a", 3)] *)
Definition test_non_numeric_input_raises_value_error
    (divide : implementation) : outcome :=
  match divide (NStr "a") (NInt 3) with
  | Raise ValueError => passed
  | _ => failed
  end.

Definition DivisionFunctionTest : list (implementation -> outcome) :=
  [test_divides_numbers_as_decimal;
   test_zero_denominator_raises;
   test_non_numeric_input_raises_value_error].

(** ** tests/test_division_meta.py *)

(** The outcomes of the suite run against an implementation. *)
Definition run_division_suite (impl : implementation) : list outcome :=
  map (fun test => test impl) DivisionFunctionTest.

Fixpoint count_failed (outcomes : list outcome) : Z :=
  match outcomes with
  | [] => 0
  | failed :: rest => 1 + count_failed rest
  | passed :: rest => count_failed rest
  end.

(** [_assert_min_failed]: whether the assertion holds. *)
Definition assert_min_failed (outcomes : list outcome) (minimum : Z) : bool :=
  minimum <=? count_failed outcomes.

Definition test_suite_detects_missing_zero_division_guard : bool :=
  assert_min_failed (run_division_suite BrokenZeroDivision.divide) 1.

Definition test_suite_detects_missing_value_error : bool :=
  assert_min_failed (run_division_suite BrokenInvalidInput.divide) 1.

Definition test_suite_passes_for_correct_divide : bool :=
  assert_min_failed (run_division_suite Correct.divide) 0.

(** ** tests/test_calc_score_equivalence.py *)

(** What [_call] returns: [("ok", value)] or [("err", type, message)]. *)
Inductive call_result :=
| CallOk (value : float)
| CallErr (type : exn) (message : string).

(** Identity of exception classes. *)
Definition exn_eqb (a b : exn) : bool :=
  match a, b with
  | TypeError, TypeError | ValueError, ValueError
  | OverflowError, OverflowError | ZeroDivisionError, ZeroDivisionError
  | InvalidOperation, InvalidOperation | DecimalOverflow, DecimalOverflow
  | DivisionByZero, DivisionByZero => true
  | UserError m, UserError n => String.eqb m n
  | _, _ => false
  end.

(** [a == b] on the tuples: equal lengths and equal components. *)
Definition tuple_eq (a b : call_result) : bool :=
  match a, b with
  | CallOk x, CallOk y => feq x y
  | CallErr t m, CallErr u n => exn_eqb t u && String.eqb m n
  | _, _ => false
  end.

Definition results_equal (a b : call_result) : bool :=
  if tuple_eq a b then true
  else
    match a, b with
    | CallOk x, CallOk y => is_nan x && is_nan y
    | _, _ => false
    end.

(** * Properties *)

(** ** Rounding to nearest, ties to even *)

Lemma pow2_spec k : 0 <= k -> pow2 k = 2 ^ k.
Proof. intros Hk. unfold pow2. now rewrite Z.shiftl_1_l. Qed.

Lemma pow2_pos k : 0 <= k -> 0 < pow2 k.
Proof. intros Hk. rewrite pow2_spec by easy. now apply Z.pow_pos_nonneg. Qed.

Lemma pow2_add a b : 0 <= a -> 0 <= b -> pow2 (a + b) = pow2 a * pow2 b.
Proof. intros. rewrite !pow2_spec by lia. now apply Z.pow_add_r. Qed.

Lemma pow2_le a b : 0 <= a <= b -> pow2 a <= pow2 b.
Proof. intros. rewrite !pow2_spec by lia. apply Z.pow_le_mono_r; lia. Qed.

Lemma pow2_lt a b : 0 <= a < b -> pow2 a < pow2 b.
Proof.
  intros H. replace b with (a + 1 + (b - a - 1)) by lia.
  rewrite !pow2_add by lia. change (pow2 1) with 2.
  pose proof (pow2_pos a ltac:(lia)). pose proof (pow2_pos (b - a - 1) ltac:(lia)).
  nia.
Qed.

Lemma rne_eq n d :
  rne n d = match 2 * (n mod d) ?= d with
            | Lt => n / d
            | Gt => n / d + 1
            | Eq => if Z.even (n / d) then n / d else n / d + 1
            end.
Proof. unfold rne, Z.div, Z.modulo. now destruct (Z.div_eucl n d). Qed.

(** The defining property of rounding to nearest, ties to even. *)
Lemma rne_spec n d :
  0 < d ->
  2 * n - d <= 2 * (rne n d * d) <= 2 * n + d
  /\ (2 * (rne n d * d) = 2 * n + d -> Z.even (rne n d) = true)
  /\ (2 * (rne n d * d) = 2 * n - d -> Z.even (rne n d) = true).
Proof.
  intros Hd. rewrite rne_eq.
  pose proof (Z.div_mod n d ltac:(lia)) as E.
  pose proof (Z.mod_pos_bound n d Hd) as B.
  set (q := n / d) in *. set (r := n mod d) in *.
  destruct (Z.compare_spec (2 * r) d) as [H|H|H].
  - destruct (Z.even q) eqn:Ev.
    + repeat split; try lia; auto.
    + assert (Z.even (q + 1) = true).
      { rewrite Z.even_add, Ev. reflexivity. }
      repeat split; try lia; auto.
  - repeat split; try lia.
  - repeat split; try lia.
Qed.

Lemma rne_unique n d z :
  0 < d ->
  2 * n - d <= 2 * (z * d) <= 2 * n + d ->
  (2 * (z * d) = 2 * n + d -> Z.even z = true) ->
  (2 * (z * d) = 2 * n - d -> Z.even z = true) ->
  rne n d = z.
Proof.
  intros Hd Hb Hu Hl.
  destruct (rne_spec n d Hd) as (Rb & Ru & Rl).
  set (r := rne n d) in *.
  assert (Hdiff : -1 <= r - z <= 1) by nia.
  assert (C : r = z \/ r = z + 1 \/ z = r + 1) by lia.
  destruct C as [C | [C | C]]; auto.
  - (* r = z + 1: r is the upper tie, z the lower one *)
    assert (Z.even r = true) by (apply Ru; nia).
    assert (Z.even z = true) by (apply Hl; nia).
    subst r. rewrite C, Z.even_add in H. rewrite H0 in H. discriminate.
  - assert (Z.even z = true) by (apply Hu; nia).
    assert (Z.even r = true) by (apply Rl; nia).
    rewrite C, Z.even_add in H. rewrite H0 in H. discriminate.
Qed.

Lemma rne_mono n1 d1 n2 d2 :
  0 < d1 -> 0 < d2 -> n1 * d2 <= n2 * d1 -> rne n1 d1 <= rne n2 d2.
Proof.
  intros H1 H2 Hle.
  destruct (rne_spec n1 d1 H1) as (B1 & U1 & _).
  destruct (rne_spec n2 d2 H2) as (B2 & _ & L2).
  set (z1 := rne n1 d1) in *. set (z2 := rne n2 d2) in *.
  destruct (Z_le_gt_dec z1 z2) as [|Hgt]; auto. exfalso.
  assert (P : 0 < d1 * d2) by nia.
  assert (A : 2 * (z1 * (d1 * d2)) <= 2 * (n2 * d1) + d1 * d2) by nia.
  assert (B : 2 * (n2 * d1) - d1 * d2 <= 2 * (z2 * (d1 * d2))) by nia.
  assert (D : z1 = z2 + 1) by nia.
  assert (E1 : 2 * (z1 * d1) = 2 * n1 + d1) by nia.
  assert (E2 : 2 * (z2 * d2) = 2 * n2 - d2) by nia.
  specialize (U1 E1). specialize (L2 E2).
  rewrite D, Z.even_add, L2 in U1. discriminate.
Qed.

Lemma rne_exact m d : 0 < d -> rne (m * d) d = m.
Proof.
  intros Hd. apply rne_unique; auto; try lia; intros; lia.
Qed.

Lemma rne_nonneg n d : 0 <= n -> 0 < d -> 0 <= rne n d.
Proof.
  intros Hn Hd. rewrite <- (rne_exact 0 d Hd). apply rne_mono; lia.
Qed.

Lemma rne_floor n d : 0 < d -> n / d <= rne n d <= n / d + 1.
Proof.
  intros _. rewrite rne_eq.
  destruct (2 * (n mod d) ?= d); [destruct (Z.even (n / d))| |]; lia.
Qed.

(** ** Rounding to a double magnitude *)

Lemma binade_nonneg q : 0 <= binade q.
Proof.
  unfold binade. destruct (Z.ltb_spec q (pow2 53)); [lia|].
  assert (Z.log2 (pow2 53) <= Z.log2 q) by now apply Z.log2_le_mono.
  rewrite pow2_spec, Z.log2_pow2 in H0; lia.
Qed.

Lemma binade_small q : q < pow2 53 -> binade q = 0.
Proof. intros H. unfold binade. destruct (Z.ltb_spec q (pow2 53)); lia. Qed.

Lemma binade_large q :
  pow2 53 <= q ->
  0 < binade q /\ pow2 (52 + binade q) <= q < pow2 (53 + binade q).
Proof.
  intros H. unfold binade. destruct (Z.ltb_spec q (pow2 53)); [lia|].
  assert (P : 0 < q) by (pose proof (pow2_pos 53); lia).
  assert (L : 53 <= Z.log2 q).
  { assert (Z.log2 (pow2 53) <= Z.log2 q) by now apply Z.log2_le_mono.
    rewrite pow2_spec, Z.log2_pow2 in H1; lia. }
  destruct (Z.log2_spec q P) as [Lo Hi].
  rewrite !pow2_spec by lia.
  replace (52 + (Z.log2 q - 52)) with (Z.log2 q) by lia.
  replace (53 + (Z.log2 q - 52)) with (Z.succ (Z.log2 q)) by lia.
  lia.
Qed.

Lemma binade_mono q1 q2 : q1 <= q2 -> binade q1 <= binade q2.
Proof.
  intros H. unfold binade.
  destruct (Z.ltb_spec q1 (pow2 53)), (Z.ltb_spec q2 (pow2 53)); try lia.
  - pose proof (binade_large q2 H1) as [B _]. unfold binade in B.
    destruct (Z.ltb_spec q2 (pow2 53)); lia.
  - pose proof (Z.log2_le_mono q1 q2 H). lia.
Qed.

(** A magnitude in the binade with spacing [2^k]. *)
Lemma binade_unique r k :
  0 < k -> pow2 (52 + k) <= r < pow2 (53 + k) -> binade r = k.
Proof.
  intros Hk [Lo Hi]. unfold binade.
  assert (pow2 53 <= pow2 (52 + k)) by (apply pow2_le; lia).
  destruct (Z.ltb_spec r (pow2 53)); [lia|].
  rewrite !pow2_spec in Lo, Hi by lia.
  assert (Z.log2 r = 52 + k).
  { apply Z.log2_unique; [lia|]. replace (Z.succ (52 + k)) with (53 + k) by lia. lia. }
  lia.
Qed.

Lemma div_pow2_range q k :
  0 <= k -> pow2 (52 + k) <= q < pow2 (53 + k) ->
  pow2 52 <= q / pow2 k < pow2 53.
Proof.
  intros Hk [Lo Hi].
  pose proof (pow2_pos k Hk).
  rewrite pow2_add in Lo, Hi by lia.
  split.
  - apply Z.div_le_lower_bound; lia.
  - apply Z.div_lt_upper_bound; lia.
Qed.

(** Shape of a rounded magnitude: a significand times the spacing. *)
Lemma round_units_shape n d :
  0 <= n -> 0 < d ->
  let k := binade (n / d) in
  let m := rne n (d * pow2 k) in
  round_units n d = m * pow2 k
  /\ (n / d < pow2 53 -> k = 0 /\ n / d <= m <= n / d + 1)
  /\ (pow2 53 <= n / d -> 0 < k /\ pow2 52 <= m <= pow2 53
                          /\ pow2 (52 + k) <= n / d < pow2 (53 + k)).
Proof.
  intros Hn Hd k m. split; [reflexivity|]. split.
  - intros Hs. assert (K : k = 0) by now apply binade_small.
    split; auto. subst m. rewrite K.
    change (pow2 0) with 1. rewrite Z.mul_1_r.
    now apply rne_floor.
  - intros Hl. destruct (binade_large _ Hl) as [Kp R]. fold k in Kp, R.
    split; auto. split; auto.
    pose proof (pow2_pos k ltac:(lia)) as Pk.
    assert (F : n / (d * pow2 k) = n / d / pow2 k) by (rewrite Z.div_div; lia).
    pose proof (rne_floor n (d * pow2 k) ltac:(nia)) as B. fold m in B.
    rewrite F in B.
    pose proof (div_pow2_range _ k ltac:(lia) R). lia.
Qed.

Lemma round_units_nonneg n d : 0 <= n -> 0 < d -> 0 <= round_units n d.
Proof.
  intros Hn Hd. unfold round_units.
  pose proof (binade_nonneg (n / d)).
  pose proof (pow2_pos (binade (n / d)) H).
  apply Z.mul_nonneg_nonneg; [|lia].
  apply rne_nonneg; nia.
Qed.

Lemma pow2_53_binade : binade (pow2 53) = 1.
Proof. reflexivity. Qed.

(** Every rounded magnitude is a multiple of the spacing of its own
    binade. *)
Lemma round_units_multiple n d :
  0 <= n -> 0 < d ->
  round_units n d mod pow2 (binade (round_units n d)) = 0.
Proof.
  intros Hn Hd.
  destruct (round_units_shape n d Hn Hd) as (E & S & L).
  set (k := binade (n / d)) in *. set (m := rne n (d * pow2 k)) in *.
  rewrite E.
  destruct (Z_lt_ge_dec (n / d) (pow2 53)) as [Hs|Hl].
  - destruct (S Hs) as [K B]. rewrite K.
    change (pow2 0) with 1. rewrite Z.mul_1_r.
    destruct (Z_lt_ge_dec m (pow2 53)).
    + rewrite binade_small by lia. apply Z.mod_1_r.
    + replace m with (pow2 53) by lia. reflexivity.
  - destruct (L ltac:(lia)) as (Kp & B & _).
    pose proof (pow2_pos k ltac:(lia)) as Pk.
    destruct (Z_lt_ge_dec m (pow2 53)).
    + rewrite (binade_unique (m * pow2 k) k); auto.
      * apply Z.mod_mul; lia.
      * rewrite !pow2_add by lia. nia.
    + replace m with (pow2 53) by lia.
      rewrite <- pow2_add by lia.
      rewrite (binade_unique (pow2 (53 + k)) (k + 1)); try lia.
      * replace (53 + k) with (52 + (k + 1)) by lia.
        rewrite (pow2_add 52) by lia. apply Z.mod_mul.
        pose proof (pow2_pos (k + 1)); lia.
      * replace (52 + (k + 1)) with (53 + k) by lia.
        split; [lia|].
        replace (53 + (k + 1)) with (53 + k + 1) by lia.
        rewrite (pow2_add (53 + k) 1) by lia.
        pose proof (pow2_pos (53 + k)). change (pow2 1) with 2. lia.
Qed.

(** Rounding leaves a double magnitude unchanged. *)
Lemma round_units_id u d :
  0 <= u -> u mod pow2 (binade u) = 0 -> 0 < d -> round_units (u * d) d = u.
Proof.
  intros Hu Hm Hd. unfold round_units.
  rewrite Z.div_mul by lia.
  pose proof (binade_nonneg u) as Kn.
  pose proof (pow2_pos _ Kn) as Pk.
  set (k := binade u) in *.
  apply Z.div_exact in Hm; [|lia].
  set (m := u / pow2 k) in *.
  clearbody m k. subst u.
  replace (pow2 k * m * d) with (m * (d * pow2 k)) by ring.
  rewrite rne_exact by nia. ring.
Qed.

Lemma round_units_id1 u :
  0 <= u -> u mod pow2 (binade u) = 0 -> round_units u 1 = u.
Proof.
  intros H0 H1. rewrite <- (Z.mul_1_r u) at 1. apply round_units_id; auto; lia.
Qed.

Lemma div_mono_cross n1 d1 n2 d2 :
  0 < d1 -> 0 < d2 -> n1 * d2 <= n2 * d1 -> n1 / d1 <= n2 / d2.
Proof.
  intros H1 H2 H.
  apply Z.div_le_lower_bound; auto.
  pose proof (Z.mul_div_le n1 d1 H1).
  nia.
Qed.

(** Rounding is monotone. *)
Lemma round_units_mono n1 d1 n2 d2 :
  0 <= n1 -> 0 < d1 -> 0 < d2 -> n1 * d2 <= n2 * d1 ->
  round_units n1 d1 <= round_units n2 d2.
Proof.
  intros Hn1 H1 H2 Hle.
  assert (Hn2 : 0 <= n2) by nia.
  pose proof (div_mono_cross _ _ _ _ H1 H2 Hle) as Q.
  pose proof (binade_mono _ _ Q) as K.
  destruct (round_units_shape n1 d1 Hn1 H1) as (E1 & S1 & L1).
  destruct (round_units_shape n2 d2 Hn2 H2) as (E2 & S2 & L2).
  set (k1 := binade (n1 / d1)) in *. set (k2 := binade (n2 / d2)) in *.
  pose proof (binade_nonneg (n1 / d1)) as K1n. fold k1 in K1n.
  pose proof (pow2_pos k1 K1n) as P1.
  pose proof (pow2_pos k2 ltac:(lia)) as P2.
  rewrite E1, E2.
  destruct (Z.eq_dec k1 k2) as [Ek|Nk].
  - rewrite <- Ek. apply Z.mul_le_mono_nonneg_r; [lia|].
    apply rne_mono; nia.
  - assert (Lt : k1 < k2) by lia.
    assert (Hl2 : pow2 53 <= n2 / d2).
    { destruct (Z_lt_ge_dec (n2 / d2) (pow2 53)); [|lia].
      destruct (S2 l); lia. }
    destruct (L2 Hl2) as (_ & [B2 _] & _).
    assert (B1 : rne n1 (d1 * pow2 k1) <= pow2 53).
    { destruct (Z_lt_ge_dec (n1 / d1) (pow2 53)) as [Hs|Hl].
      - destruct (S1 Hs); lia.
      - destruct (L1 ltac:(lia)) as (_ & ? & _); lia. }
    assert (pow2 (53 + k1) <= pow2 (52 + k2)) by (apply pow2_le; lia).
    rewrite !pow2_add in H by lia.
    nia.
Qed.

Lemma round_units_pos n : 0 < n -> 0 < round_units n 1.
Proof.
  intros H.
  assert (round_units (1 * 1) 1 <= round_units n 1)
    by (apply round_units_mono; lia).
  rewrite round_units_id in H0 by (try reflexivity; lia). lia.
Qed.

(** Rounding error: at most half the spacing [s], which is one unit or
    at most [2^-52] of the exact value. *)
Lemma round_units_error n d :
  0 <= n -> 0 < d ->
  exists s, 0 < s
            /\ 2 * n - d * s <= 2 * (round_units n d * d) <= 2 * n + d * s
            /\ (s = 1 \/ pow2 52 * s * d <= n).
Proof.
  intros Hn Hd.
  destruct (round_units_shape n d Hn Hd) as (E & S & L).
  set (k := binade (n / d)) in *.
  pose proof (binade_nonneg (n / d)) as Kn. fold k in Kn.
  pose proof (pow2_pos k Kn) as Pk.
  destruct (rne_spec n (d * pow2 k) ltac:(nia)) as (B & _ & _).
  exists (pow2 k). split; [assumption|]. split.
  - rewrite E. nia.
  - destruct (Z_lt_ge_dec (n / d) (pow2 53)) as [Hs|Hl].
    + destruct (S Hs) as [K0 _]. left. rewrite K0. reflexivity.
    + destruct (L ltac:(lia)) as (_ & _ & [Q _]). right.
      rewrite pow2_add in Q by lia.
      pose proof (Z.mul_div_le n d Hd). nia.
Qed.

(** ** Doubles *)

Lemma one_eq : one = pow2 1074.
Proof. reflexivity. Qed.

Lemma top_eq : top = pow2 2098.
Proof. reflexivity. Qed.

Lemma one_pos : 0 < one.
Proof. reflexivity. Qed.

Lemma top_pos : 0 < top.
Proof. reflexivity. Qed.

Lemma one_large : 4503599627370496 * 4 <= one.
Proof. apply Z.leb_le. vm_compute. reflexivity. Qed.

Lemma le_cancel_one x y : x * one <= y * one -> x <= y.
Proof. intros H. apply (Z.mul_le_mono_pos_r x y one); [apply one_pos|assumption]. Qed.

(** The spacing at a value of at most [c * a], for [a >= 0.5]. *)
Lemma spacing_small s n d c a :
  0 < d -> one <= 2 * a -> 0 <= c <= 1000 ->
  n <= c * a * d ->
  s = 1 \/ pow2 52 * s * d <= n ->
  1000000 * s <= a.
Proof.
  intros Hd Ha Hc Hn [->|S]; pose proof one_large as O.
  - lia.
  - change (pow2 52) with 4503599627370496 in S.
    assert (4503599627370496 * s * d <= c * a * d) by lia.
    assert (4503599627370496 * s <= c * a).
    { apply (Z.mul_le_mono_pos_r _ _ d); assumption. }
    assert (c * a <= 1000 * a) by (apply Z.mul_le_mono_nonneg_r; lia).
    lia.
Qed.

Lemma representableb_spec u : representableb u = true -> representable u.
Proof.
  unfold representableb, representable.
  intros H. apply andb_prop in H as [H H3]. apply andb_prop in H as [H1 H2].
  apply Z.leb_le in H1. apply Z.ltb_lt in H2. apply Z.eqb_eq in H3. auto.
Qed.

Lemma multiple_representable y j :
  0 <= j -> 0 <= y < pow2 (53 + j) -> y mod pow2 j = 0 ->
  y mod pow2 (binade y) = 0.
Proof.
  intros Hj [Hy Hlt] Hm.
  destruct (Z_lt_ge_dec y (pow2 53)) as [Hs|Hl].
  - rewrite binade_small by assumption. apply Z.mod_1_r.
  - destruct (binade_large y ltac:(lia)) as [Kp [Lo _]].
    set (k := binade y) in *.
    assert (Kj : k <= j).
    { destruct (Z_le_gt_dec k j); auto.
      assert (pow2 (53 + j) <= pow2 (52 + k)) by (apply pow2_le; lia). lia. }
    pose proof (pow2_pos k ltac:(lia)) as Pk.
    pose proof (pow2_pos j Hj) as Pj.
    apply Z.div_exact in Hm; [|lia].
    rewrite Hm. replace j with (k + (j - k)) at 1 by lia.
    rewrite pow2_add by lia.
    rewrite <- Z.mul_assoc, Z.mul_comm. apply Z.mod_mul. lia.
Qed.

(** Integers below [2^53] are doubles. *)
Lemma representable_int q : 0 <= q < pow2 53 -> representable (q * one).
Proof.
  intros [Hq Hlt]. pose proof one_pos.
  assert (B : q * one < pow2 (53 + 1074)).
  { rewrite pow2_add by lia. change (pow2 1074) with one. nia. }
  split; [split; [nia|]|].
  - assert (pow2 (53 + 1074) <= top) by (rewrite top_eq; apply pow2_le; lia). lia.
  - apply (multiple_representable _ 1074); try lia.
    change (pow2 1074) with one. apply Z.mod_mul. lia.
Qed.

Lemma representable_pow2 k : 0 <= k < 2098 -> representable (pow2 k).
Proof.
  intros H. pose proof (pow2_pos k ltac:(lia)).
  split; [split; [lia|rewrite top_eq; apply pow2_lt; lia]|].
  destruct (Z_lt_ge_dec k 53).
  - rewrite binade_small by (apply pow2_lt; lia). apply Z.mod_1_r.
  - rewrite (binade_unique (pow2 k) (k - 52)).
    + replace k with (52 + (k - 52)) at 1 by lia.
      rewrite pow2_add by lia. apply Z.mod_mul.
      pose proof (pow2_pos (k - 52)); lia.
    + lia.
    + replace (52 + (k - 52)) with k by lia. split; [lia|].
      apply pow2_lt; lia.
Qed.

Lemma pack_small s u : u < top -> pack s u = Fin s u.
Proof. intros H. unfold pack. destruct (Z.ltb_spec u top); [reflexivity|lia]. Qed.

Lemma pack_cases s u : pack s u = Fin s u /\ u < top \/ pack s u = Inf s /\ top <= u.
Proof. unfold pack. destruct (Z.ltb_spec u top); auto. Qed.

Lemma valid_pack s n d : 0 <= n -> 0 < d -> valid (pack s (round_units n d)).
Proof.
  intros Hn Hd. destruct (pack_cases s (round_units n d)) as [[-> H]|[-> H]]; simpl; auto.
  split; [split; [now apply round_units_nonneg|assumption]|].
  now apply round_units_multiple.
Qed.

Lemma valid_zero s : valid (Fin s 0).
Proof. simpl. split; [split; [lia|apply top_pos]|reflexivity]. Qed.

Lemma fadd_valid x y : valid (fadd x y).
Proof.
  destruct x as [|s|s u], y as [|t|t v]; simpl; auto.
  - now destruct (Bool.eqb s t).
  - destruct (Z.eqb_spec (signed s u + signed t v) 0).
    + apply valid_zero.
    + apply valid_pack; lia.
Qed.

Lemma fmul_valid x y : valid (fmul x y).
Proof.
  destruct x as [|s|s u], y as [|t|t v]; cbn [fmul valid]; auto.
  - destruct (v =? 0); exact I.
  - destruct (u =? 0); exact I.
  - apply valid_pack; [lia|apply one_pos].
Qed.

(** [x * 0.0] and [0.0 * x] are zeros. *)
Lemma fmul_zero_r s u t : fmul (Fin s u) (Fin t 0) = Fin (xorb s t) 0.
Proof. cbn [fmul]. rewrite Z.mul_0_r. reflexivity. Qed.

Lemma fmul_zero_l s t v : fmul (Fin s 0) (Fin t v) = Fin (xorb s t) 0.
Proof. reflexivity. Qed.

(** Adding a zero to a double other than [-0.0] returns it. *)
Lemma fadd_zero_r x t :
  valid x -> x <> Fin true 0 -> fadd x (Fin t 0) = x.
Proof.
  destruct x as [|s|s u]; cbn [fadd valid]; auto.
  intros [[Hu Ht] Hm] Hn.
  replace (signed t 0) with 0 by now destruct t.
  rewrite Z.add_0_r.
  destruct (Z.eqb_spec (signed s u) 0) as [E|E].
  - assert (u = 0) by (destruct s; simpl in E; lia). subst u.
    destruct s; [congruence|reflexivity].
  - assert (Hp : 0 < u) by (destruct s; simpl in E; lia).
    assert (A : Z.abs (signed s u) = u) by (destruct s; simpl; lia).
    rewrite A, round_units_id1 by (auto; lia).
    rewrite pack_small by assumption.
    f_equal. destruct s; simpl; [apply Z.ltb_lt|apply Z.ltb_ge]; lia.
Qed.

Lemma lit_1_0_eq : lit_1_0 = Fin false one.
Proof. reflexivity. Qed.

(** Multiplying a double by [1.0] returns it. *)
Lemma fmul_one s u : representable u -> fmul (Fin s u) lit_1_0 = Fin s u.
Proof.
  intros [[Hu Ht] M]. pose proof one_pos. rewrite lit_1_0_eq. cbn [fmul].
  rewrite xorb_false_r, Z.abs_eq, round_units_id by (auto; nia).
  now apply pack_small.
Qed.

Lemma feq_refl x : is_nan x = false -> feq x x = true.
Proof.
  destruct x as [|s|s u]; [discriminate| |]; intros _; cbn [feq].
  - destruct s; reflexivity.
  - apply Z.eqb_refl.
Qed.

Lemma of_int_small z :
  Z.abs z < pow2 53 -> of_int z = Ok (Fin (z <? 0) (Z.abs z * one)).
Proof.
  intros H. unfold of_int.
  destruct (representable_int (Z.abs z) ltac:(lia)) as [[R0 R1] R2].
  rewrite round_units_id1 by auto.
  destruct (Z.ltb_spec (Z.abs z * one) top); [reflexivity|lia].
Qed.

Lemma of_int_valid z y : of_int z = Ok y -> valid y.
Proof.
  unfold of_int. destruct (Z.ltb_spec (round_units (Z.abs z * one) 1) top); [|discriminate].
  intros [= <-]. cbn [valid]. pose proof one_pos.
  split; [split; [apply round_units_nonneg; nia|assumption]|].
  apply round_units_multiple; nia.
Qed.

Lemma of_int_raises z err : of_int z = Raise err -> err = OverflowError.
Proof.
  unfold of_int. destruct (_ <? top); [discriminate|]. now intros [= <-].
Qed.

(** ** Agreement with the Standard Library's specification *)

(** On the samples, multiplication, addition and subtraction agree
    with [SFmul], [SFadd] and [SFsub] at precision 53. *)
Example fmul_agrees_with_SpecFloat : agree fmul (SFmul 53 1024) = true.
Proof. vm_compute. reflexivity. Qed.

Example fadd_agrees_with_SpecFloat : agree fadd (SFadd 53 1024) = true.
Proof. vm_compute. reflexivity. Qed.

Example fsub_agrees_with_SpecFloat : agree fsub (SFsub 53 1024) = true.
Proof. vm_compute. reflexivity. Qed.

(** Integer true division and [float(int)] agree with [SFdiv] and
    [binary_normalize]. *)
Example int_truediv_agrees_with_SpecFloat : agree_truediv = true.
Proof. vm_compute. reflexivity. Qed.

Example of_int_agrees_with_SpecFloat : agree_of_int = true.
Proof. vm_compute. reflexivity. Qed.

(** ** Rounding to two decimals *)

Lemma round2_zero s : round2 (Fin s 0) = Ok (Fin s 0).
Proof. reflexivity. Qed.

Lemma round2_units_nonneg a : 0 <= a -> 0 <= round2_units a.
Proof.
  intros H. unfold round2_units. pose proof one_pos.
  apply round_units_nonneg; [|lia].
  apply Z.mul_nonneg_nonneg; [|lia]. apply rne_nonneg; lia.
Qed.

Lemma round2_units_mono a b :
  0 <= a <= b -> round2_units a <= round2_units b.
Proof.
  intros H. unfold round2_units. pose proof one_pos.
  assert (0 <= rne (a * 100) one) by (apply rne_nonneg; lia).
  assert (rne (a * 100) one <= rne (b * 100) one) by (apply rne_mono; nia).
  apply round_units_mono; nia.
Qed.

(** Doubles of [2^52] and above are whole numbers. *)
Lemma large_is_integer a :
  representable a -> pow2 1126 <= a -> a mod one = 0.
Proof.
  intros [[Ha _] M] L.
  assert (pow2 53 <= pow2 1126) by (apply pow2_le; lia).
  destruct (binade_large a ltac:(lia)) as [Kp [Lo Hi]].
  set (k := binade a) in *.
  assert (Kj : 1074 <= k).
  { destruct (Z_le_gt_dec 1074 k); auto.
    assert (pow2 (53 + k) <= pow2 1126) by (apply pow2_le; lia). lia. }
  apply Z.div_exact in M; [|pose proof (pow2_pos k); lia].
  rewrite M. replace k with (1074 + (k - 1074)) at 1 by lia.
  rewrite pow2_add, <- one_eq by lia.
  rewrite <- Z.mul_assoc. rewrite Z.mul_comm. apply Z.mod_mul.
  pose proof one_pos; lia.
Qed.

(** [round(x, 2)] never overflows on a double. *)
Lemma round2_units_lt_top a : representable a -> round2_units a < top.
Proof.
  intros R. pose proof R as [[Ha Ht] M]. pose proof one_pos as P1.
  destruct (Z_lt_ge_dec a (pow2 1126)) as [S|L].
  - (* below 2^52 the result stays below 2^53 *)
    destruct (representable_pow2 1127 ltac:(lia)) as [[P7 T] M2].
    assert (round2_units a <= pow2 1127); [|lia].
    unfold round2_units.
    rewrite <- (round_units_id (pow2 1127) 100) by (auto; lia).
    pose proof (rne_floor (a * 100) one P1) as [_ F].
    assert (0 <= rne (a * 100) one) by (apply rne_nonneg; lia).
    pose proof (Z.mul_div_le (a * 100) one P1).
    assert (pow2 1127 = 2 * pow2 1126).
    { replace 1127 with (1 + 1126) by lia. now rewrite pow2_add by lia. }
    assert (one <= pow2 1126) by (rewrite one_eq; apply pow2_le; lia).
    apply round_units_mono; nia.
  - (* whole numbers are returned unchanged *)
    pose proof (large_is_integer a R ltac:(lia)) as I.
    apply Z.div_exact in I; [|lia].
    unfold round2_units.
    replace (a * 100) with (a / one * 100 * one) by lia.
    rewrite rne_exact by lia.
    replace (a / one * 100 * one) with (a * 100) by lia.
    rewrite round_units_id by (auto; lia). assumption.
Qed.

Lemma round2_finite s a :
  representable a ->
  round2 (Fin s a) = Ok (Fin s (round2_units a))
  /\ representable (round2_units a).
Proof.
  intros R. pose proof (round2_units_lt_top a R) as T.
  destruct R as [[Ha _] _]. pose proof one_pos.
  cbn [round2]. destruct (Z.ltb_spec (round2_units a) top); [|lia].
  split; [reflexivity|].
  split; [split; [now apply round2_units_nonneg|assumption]|].
  unfold round2_units. apply round_units_multiple; [|lia].
  apply Z.mul_nonneg_nonneg; [|lia]. apply rne_nonneg; lia.
Qed.

(** [round(x, 2)] returns on every double and keeps its kind. *)
Lemma round2_total x :
  valid x ->
  exists y, round2 x = Ok y /\ valid y
            /\ is_inf y = is_inf x /\ is_nan y = is_nan x.
Proof.
  destruct x as [|s|s a]; intros V.
  - exists NaN. repeat split.
  - exists (Inf s). repeat split.
  - destruct (round2_finite s a V) as [E R].
    exists (Fin s (round2_units a)).
    split; [exact E|split; [exact R|split; reflexivity]].
Qed.

(** [round(x, 2)] on the usual examples: 2.675 is below the tie,
    0.125 is a tie and goes to the even hundredth. *)
Example round2_2_675 : round2 float_2_675 = Ok (of_decimal false 267 (-2)).
Proof. vm_compute. reflexivity. Qed.

Example round2_0_125 :
  round2 (of_decimal false 125 (-3)) = Ok (of_decimal false 12 (-2)).
Proof. vm_compute. reflexivity. Qed.

(** ** Rounding twice to two decimals *)

Lemma round2_units_eq a : round2_units a = of_cents (rne (a * 100) one).
Proof. reflexivity. Qed.

Lemma one_128 : one = 128 * pow2 1067.
Proof. reflexivity. Qed.

Lemma one_64 : one = 64 * pow2 1068.
Proof. reflexivity. Qed.

(** A double that is a whole number is returned as it is. *)
Lemma round2_units_integer r :
  0 <= r -> r mod pow2 (binade r) = 0 -> r mod one = 0 ->
  round2_units r = r.
Proof.
  intros Hr M I. pose proof one_pos.
  apply Z.div_exact in I; [|lia].
  unfold round2_units.
  replace (r * 100) with (r / one * 100 * one) by lia.
  rewrite rne_exact by lia.
  replace (r / one * 100 * one) with (r * 100) by lia.
  apply round_units_id; auto; lia.
Qed.

(** Rounding the double nearest to a whole number of hundredths gives
    that double again. *)
Lemma round2_units_of_cents c :
  0 <= c -> round2_units (of_cents c) = of_cents c.
Proof.
  intros Hc. pose proof one_pos as P1.
  set (r := of_cents c).
  assert (Hn : 0 <= c * one) by nia.
  destruct (round_units_shape (c * one) 100 Hn ltac:(lia)) as (E & S & L).
  set (k := binade (c * one / 100)) in *.
  set (m := rne (c * one) (100 * pow2 k)) in *.
  fold (of_cents c) in E. fold r in E.
  pose proof (binade_nonneg (c * one / 100)) as Kn. fold k in Kn.
  pose proof (pow2_pos k Kn) as Pk.
  destruct (rne_spec (c * one) (100 * pow2 k) ltac:(lia)) as (B & _ & _).
  fold m in B.
  assert (Rm : 0 <= r /\ r mod pow2 (binade r) = 0).
  { split; [apply round_units_nonneg; lia|apply round_units_multiple; lia]. }
  destruct Rm as [Hr Mr].
  destruct (Z_le_gt_dec k 1067) as [Ks|Kl].
  - (* the hundredths are recovered exactly *)
    assert (pow2 k <= pow2 1067) by (apply pow2_le; lia).
    pose proof one_128.
    assert (C : rne (r * 100) one = c).
    { apply rne_unique; [lia| |intros; exfalso|intros; exfalso]; nia. }
    rewrite round2_units_eq, C. reflexivity.
  - assert (K8 : pow2 1068 <= pow2 k) by (apply pow2_le; lia).
    pose proof one_64 as O64.
    assert (Kp : 0 < k) by lia.
    destruct (Z_lt_ge_dec (c * one / 100) (pow2 53)) as [Hs|Hl].
    { destruct (S Hs) as [K0 _]. lia. }
    destruct (L ltac:(lia)) as (_ & [M1 M2] & Qr).
    destruct (Z_le_gt_dec 1074 k) as [K74|K73].
    { (* spacing of one or more: a whole number *)
      apply round2_units_integer; auto.
      rewrite E. replace k with (1074 + (k - 1074)) by lia.
      rewrite pow2_add, <- one_eq by lia.
      replace (m * (one * pow2 (k - 1074))) with (m * pow2 (k - 1074) * one) by ring.
      apply Z.mod_mul. lia. }
    assert (Pw : forall j, 52 <= j <= 53 -> (pow2 j * pow2 k) mod one = 0).
    { intros j Hj. rewrite <- pow2_add by lia.
      replace (j + k) with (1074 + (j + k - 1074)) by lia.
      rewrite pow2_add, <- one_eq by lia. rewrite Z.mul_comm. apply Z.mod_mul. lia. }
    destruct (Z.eq_dec m (pow2 52)) as [E52|N52].
    { apply round2_units_integer; auto. rewrite E, E52. apply Pw; lia. }
    destruct (Z.eq_dec m (pow2 53)) as [E53|N53].
    { apply round2_units_integer; auto. rewrite E, E53. apply Pw; lia. }
    (* inside the binade: the second rounding works at the same spacing *)
    set (c' := rne (r * 100) one).
    destruct (rne_spec (r * 100) one P1) as (B' & _ & _). fold c' in B'.
    assert (Hc' : 0 <= c') by (apply rne_nonneg; lia).
    assert (P52 : pow2 (52 + k) = pow2 52 * pow2 k) by (apply pow2_add; lia).
    assert (P53 : pow2 (53 + k) = pow2 53 * pow2 k) by (apply pow2_add; lia).
    assert (Q' : pow2 (52 + k) <= c' * one / 100 < pow2 (53 + k)).
    { split.
      - apply Z.div_le_lower_bound; [lia|]. rewrite P52. nia.
      - apply Z.div_lt_upper_bound; [lia|]. rewrite P53. nia. }
    rewrite round2_units_eq. fold c'. unfold of_cents, round_units.
    rewrite (binade_unique _ k Kp Q').
    assert (C : rne (c' * one) (100 * pow2 k) = m).
    { apply rne_unique; [lia| |intros; exfalso|intros; exfalso]; nia. }
    rewrite C. symmetry. exact E.
Qed.

Lemma round2_units_idempotent a :
  0 <= a -> round2_units (round2_units a) = round2_units a.
Proof.
  intros Ha. rewrite (round2_units_eq a). apply round2_units_of_cents.
  apply rne_nonneg; [lia|apply one_pos].
Qed.

Lemma round2_idempotent (x : float) :
  valid x -> exists y, round2 x = Ok y /\ round2 y = Ok y.
Proof.
  intros V. destruct x as [|s|s a].
  - exists NaN. split; reflexivity.
  - exists (Inf s). split; reflexivity.
  - destruct (round2_finite s a V) as [E R]. pose proof V as [[Ha _] _].
    exists (Fin s (round2_units a)). split; [exact E|].
    destruct (round2_finite s _ R) as [E' _].
    rewrite E', round2_units_idempotent by assumption. reflexivity.
Qed.

(** ** Conversions from strings *)

(** String conversions. *)
Example int_of_string_examples :
  map int_of_string ["-0"; " 4 "; "1_000"; "+7"; "007"]
  = [Ok 0; Ok 4; Ok 1000; Ok 7; Ok 7]
  /\ map int_of_string ["3.0"; "_1"; "1__0"; ""; "bad"]
     = [Raise ValueError; Raise ValueError; Raise ValueError;
        Raise ValueError; Raise ValueError].
Proof. split; reflexivity. Qed.

Example float_of_string_examples :
  map float_of_string ["1.5"; " 4 "; "-INF"; "nan"; "1e3"; ".5"; "5."; "1e400"]
  = [Ok (of_decimal false 15 (-1)); Ok (of_decimal false 4 0); Ok (Inf true);
     Ok NaN; Ok (of_decimal false 1000 0); Ok (of_decimal false 5 (-1));
     Ok (of_decimal false 5 0); Ok (Inf false)]
  /\ map float_of_string ["1e"; "."; "1_.5"; "0x10"; "bad"; ""; "None"]
     = [Raise ValueError; Raise ValueError; Raise ValueError; Raise ValueError;
        Raise ValueError; Raise ValueError; Raise ValueError].
Proof. split; vm_compute; reflexivity. Qed.

(** [float] and [int] keep the separators U+001C to U+001F, which
    [Decimal] strips; the no-break space is stripped by all three. *)
Example separators_are_not_stripped :
  float_of_string (String "028" "1") = Raise ValueError
  /\ int_of_string (String "031" "3") = Raise ValueError
  /\ Dec.of_string (String "028" "1") = Ok (Dec.DFin false 1 0)
  /\ float_of_string (String "160" "1") = float_of_string "1"
  /\ int_of_string (String "133" "3") = Ok 3
  /\ Dec.of_string (String "160" "1") = Ok (Dec.DFin false 1 0).
Proof. repeat split; vm_compute; reflexivity. Qed.

Example strptime_examples :
  map strptime [PyStr "2019-02-29"; PyStr "2020-13-01"; PyStr "bad-date";
                PyStr ""; PyStr "0000-01-01"; PyStr "2020-01-015"; PyNone]
  = [Raise ValueError; Raise ValueError; Raise ValueError; Raise ValueError;
     Raise ValueError; Raise ValueError; Raise TypeError]
  /\ strptime (PyStr "2020-1-5") = make_datetime 2020 1 5
  /\ strptime (PyStr "2020-02-29") = make_datetime 2020 2 29.
Proof. split; [|split]; vm_compute; reflexivity. Qed.

(** ** The text form of an int, read back *)

Lemma rev_string_rev s : forall a b,
  rev_string (rev_string s a) b = rev_string a (s ++ b)%string.
Proof.
  induction s as [|c r IH]; intros a b; cbn [rev_string]; [reflexivity|].
  now rewrite IH.
Qed.

Lemma rev_string_forall p s : forall a,
  string_forall p s = true -> string_forall p a = true ->
  string_forall p (rev_string s a) = true.
Proof.
  induction s as [|c r IH]; intros a Hs Ha; cbn [rev_string]; [exact Ha|].
  cbn [string_forall] in Hs. apply andb_prop in Hs as [Hc Hr].
  apply IH; [exact Hr|]. cbn [string_forall]. now rewrite Hc.
Qed.

Lemma lstrip_id space s :
  string_forall (fun c => negb (space c)) s = true -> lstrip space s = s.
Proof.
  destruct s as [|c r]; [reflexivity|]. cbn [string_forall lstrip].
  intros H. apply andb_prop in H as [Hc _].
  now destruct (space c).
Qed.

(** A string without whitespace is stripped to itself. *)
Lemma strip_id space s :
  string_forall (fun c => negb (space c)) s = true -> strip space s = s.
Proof.
  intros H. unfold strip, rstrip. rewrite (lstrip_id _ _ H).
  rewrite lstrip_id by (apply rev_string_forall; [exact H|reflexivity]).
  rewrite rev_string_rev. cbn [rev_string]. clear H.
  induction s as [|c r IH]; [reflexivity|].
  change (String c (r ++ "")%string = String c r). now rewrite IH.
Qed.

Lemma is_digit_cases c :
  is_digit c = true ->
  In c ["0"; "1"; "2"; "3"; "4"; "5"; "6"; "7"; "8"; "9"]%char.
Proof.
  destruct c as [[|] [|] [|] [|] [|] [|] [|] [|]]; try discriminate;
    intros _; cbn [In]; tauto.
Qed.

Ltac digit_cases c H :=
  apply is_digit_cases in H; cbn [In] in H;
  repeat (destruct H as [<- |H]); [..|contradiction].

Lemma digit_not_space c : is_digit c = true -> is_numeric_space c = false.
Proof. intros H. digit_cases c H; reflexivity. Qed.

Lemma digits_forall p s :
  (forall c, is_digit c = true -> p c = true) ->
  string_forall is_digit s = true -> string_forall p s = true.
Proof.
  intros P. induction s as [|c r IH]; [reflexivity|]. cbn [string_forall].
  intros H. apply andb_prop in H as [Hc Hr]. now rewrite (P c Hc), IH.
Qed.

Lemma drop_underscores_digits s : forall prev,
  Ascii.eqb prev "_"%char = false ->
  string_forall is_digit s = true ->
  drop_underscores prev s = Some s.
Proof.
  induction s as [|c r IH]; intros prev P H; cbn [drop_underscores].
  - now rewrite P.
  - cbn [string_forall] in H. apply andb_prop in H as [Hc Hr].
    assert (U : Ascii.eqb c "_"%char = false) by (digit_cases c Hc; reflexivity).
    rewrite U, Hc, andb_false_r, (IH c U Hr). reflexivity.
Qed.

Lemma take_digits_all s :
  string_forall is_digit s = true ->
  exists ds, take_digits s = (ds, EmptyString)
             /\ (s <> EmptyString -> ds <> []).
Proof.
  induction s as [|c r IH]; cbn [string_forall take_digits].
  - intros _. exists []. split; [reflexivity|congruence].
  - intros H. apply andb_prop in H as [Hc Hr]. rewrite Hc.
    destruct (IH Hr) as (ds & -> & _). eexists. split; [reflexivity|].
    discriminate.
Qed.

(** A run of digits is a float literal: digits only, neither sign
    nor point nor exponent. *)
Lemma float_of_literal_digits s (neg : bool) :
  string_forall is_digit s = true -> s <> EmptyString ->
  float_of_literal (if neg then String "-"%char s else s)
  = Some (of_decimal neg (digits_value (fst (take_digits s))) 0).
Proof.
  intros H N.
  destruct (take_digits_all s H) as (ds & T & D). specialize (D N).
  assert (L : lower s = s).
  { clear -H. induction s as [|c r IH]; [reflexivity|].
    cbn [string_forall] in H. apply andb_prop in H as [Hc Hr].
    cbn [lower]. rewrite (IH Hr). f_equal.
    digit_cases c Hc; reflexivity. }
  assert (S : take_sign s = (false, s)).
  { destruct s as [|c r]; [reflexivity|].
    cbn [string_forall] in H. apply andb_prop in H as [Hc _].
    digit_cases c Hc; reflexivity. }
  assert (W : (String.eqb s "inf" || String.eqb s "infinity" = false
               /\ String.eqb s "nan" = false)%string).
  { destruct s as [|c r]; [now elim N|].
    cbn [string_forall] in H. apply andb_prop in H as [Hc _].
    digit_cases c Hc; split; reflexivity. }
  destruct W as [W1 W2].
  unfold float_of_literal.
  replace (take_sign (if neg then String "-"%char s else s)) with (neg, s)
    by (destruct neg; [reflexivity|now rewrite S]).
  rewrite L, W1, W2, T. cbn [take_exponent fst]. rewrite app_nil_r.
  destruct ds as [|d ds]; [now elim D|]. reflexivity.
Qed.

Lemma string_of_uint_digits d :
  string_forall is_digit (NilEmpty.string_of_uint d) = true
  /\ take_digits (NilEmpty.string_of_uint d) = (uint_digits d, EmptyString).
Proof.
  induction d as [|d [F T]|d [F T]|d [F T]|d [F T]|d [F T]|d [F T]|d [F T]
                  |d [F T]|d [F T]|d [F T]];
    cbn [NilEmpty.string_of_uint string_forall take_digits uint_digits];
    [split; reflexivity|..];
    rewrite F, T; split; reflexivity.
Qed.

Lemma uint_digits_acc d : forall acc,
  fold_left (fun a x => 10 * a + x) (uint_digits d) (Z.pos acc)
  = Z.pos (Pos.of_uint_acc d acc).
Proof.
  induction d; intros acc; cbn [uint_digits fold_left Pos.of_uint_acc];
    [reflexivity|..];
    rewrite <- IHd; f_equal; lia.
Qed.

Lemma uint_digits_value d :
  digits_value (uint_digits d) = Z.of_N (Pos.of_uint d).
Proof.
  unfold digits_value.
  induction d; cbn [uint_digits fold_left Pos.of_uint]; [reflexivity|..];
    try (cbn [Z.of_N]; rewrite <- uint_digits_acc; reflexivity).
  exact IHd.
Qed.

(** The decimal numeral of [z]: its digits are those of [|z|]. *)
Lemma string_of_int_digits z :
  exists s,
    NilZero.string_of_int (Z.to_int z) = (if z <? 0 then String "-"%char s else s)
    /\ string_forall is_digit s = true /\ s <> EmptyString
    /\ digits_value (fst (take_digits s)) = Z.abs z.
Proof.
  destruct z as [|p|p]; cbn [Z.to_int NilZero.string_of_int Z.ltb Z.compare].
  - exists "0"%string. repeat split; discriminate.
  - pose proof (DecimalPos.Unsigned.to_uint_nonnil p) as N.
    exists (NilEmpty.string_of_uint (Pos.to_uint p)).
    destruct (string_of_uint_digits (Pos.to_uint p)) as [F T].
    split; [|split; [exact F|split]].
    + unfold NilZero.string_of_uint. destruct (Pos.to_uint p); congruence.
    + destruct (Pos.to_uint p); try discriminate. now elim N.
    + rewrite T. cbn [fst]. rewrite uint_digits_value.
      now rewrite DecimalPos.Unsigned.of_to.
  - pose proof (DecimalPos.Unsigned.to_uint_nonnil p) as N.
    exists (NilEmpty.string_of_uint (Pos.to_uint p)).
    destruct (string_of_uint_digits (Pos.to_uint p)) as [F T].
    split; [|split; [exact F|split]].
    + unfold NilZero.string_of_uint. destruct (Pos.to_uint p); congruence.
    + destruct (Pos.to_uint p); try discriminate. now elim N.
    + rewrite T. cbn [fst]. rewrite uint_digits_value.
      now rewrite DecimalPos.Unsigned.of_to.
Qed.

(** [float(str(z))] is the double nearest to [z], an infinity when
    [z] is beyond the doubles. *)
Lemma float_of_string_of_int z :
  float_of_string (NilZero.string_of_int (Z.to_int z))
  = Ok (of_decimal (z <? 0) (Z.abs z) 0).
Proof.
  destruct (string_of_int_digits z) as (s & -> & F & N & V).
  assert (P : string_forall (fun c => negb (is_numeric_space c))
                (if z <? 0 then String "-"%char s else s) = true).
  { assert (string_forall (fun c => negb (is_numeric_space c)) s = true).
    { apply digits_forall; [|exact F]. intros c Hc.
      now rewrite digit_not_space. }
    destruct (z <? 0); [cbn [string_forall]|]; assumption. }
  unfold float_of_string. rewrite (strip_id _ _ P).
  assert (U : drop_underscores "000"%char (if z <? 0 then String "-"%char s else s)
              = Some (if z <? 0 then String "-"%char s else s)).
  { destruct (z <? 0).
    - cbn [drop_underscores]. change (Ascii.eqb "-"%char "_"%char) with false.
      change (Ascii.eqb "000"%char "_"%char) with false. cbn [andb].
      rewrite drop_underscores_digits by (reflexivity || exact F). reflexivity.
    - apply drop_underscores_digits; [reflexivity|exact F]. }
  rewrite U, (float_of_literal_digits s (z <? 0) F N), V. reflexivity.
Qed.

Lemma of_decimal_int z :
  of_decimal (z <? 0) (Z.abs z) 0
  = match of_int z with
    | Ok f => f
    | Raise _ => Inf (z <? 0)
    end.
Proof.
  unfold of_decimal, of_int, pack. cbn [Z.leb Z.compare].
  rewrite Z.pow_0_r, Z.mul_1_r.
  destruct (_ <? top); reflexivity.
Qed.

(** ** Value and weight parsing *)

(** Claim C8: the value of an event is [float(v)] when that succeeds,
    else [float(str(v))] when that succeeds, else 0.0; whatever either
    conversion raises is absorbed, so value parsing never raises.
    Kind by kind: a missing value or [None] counts as 0.0, a bool as
    1.0 or 0.0, a float as itself; an int is its nearest double, and
    an int beyond the doubles, which [float] refuses, is read back from
    its digits as an infinity, or counts as 0.0 when it has more than
    4300 digits and [str] refuses it as well; a string counts as 0.0
    when [float] rejects it, the second attempt repeating the first;
    any other object goes through its own [__float__] and
    [__str__]. *)
Theorem parse_value_fallback_chain (e : dict) :
  let v := default PyNone (e !! "value") in
  parse_value e =
  Ok match py_float v with
     | Ok f => f
     | Raise _ =>
         match (let? t := py_str v in float_of_text t) with
         | Ok f => f
         | Raise _ => zero
         end
     end
  /\ parse_value e =
     Ok match v with
        | PyNone => zero
        | PyBool b => Fin false (if b then one else 0)
        | PyInt z =>
            match of_int z with
            | Ok f => f
            | Raise _ =>
                match str_of_int z with
                | Ok _ => Inf (z <? 0)
                | Raise _ => zero
                end
            end
        | PyFloat f => f
        | PyStr s =>
            match float_of_string s with
            | Ok f => f
            | Raise _ => zero
            end
        | PyObj o =>
            match on_float o with
            | Ok f => f
            | Raise _ =>
                match (let? s := on_str o in float_of_string s) with
                | Ok f => f
                | Raise _ => zero
                end
            end
        end.
Proof.
  intros v.
  assert (Chain : parse_value e =
    Ok match py_float v with
       | Ok f => f
       | Raise _ =>
           match (let? t := py_str v in float_of_text t) with
           | Ok f => f
           | Raise _ => zero
           end
       end).
  { unfold parse_value. fold v.
    destruct (py_float v) as [f|err]; cbn [try_except]; [reflexivity|].
    destruct (py_str v) as [t|err']; cbn [bind try_except]; [|reflexivity].
    destruct (float_of_text t); reflexivity. }
  split; [exact Chain|]. rewrite Chain. f_equal.
  destruct v as [|b|z|f|s|o]; cbn [py_float py_str bind float_of_text].
  - reflexivity.
  - destruct b; reflexivity.
  - destruct (of_int z) as [f|err] eqn:O; [reflexivity|].
    unfold str_of_int. destruct (_ <=? int_max_str_digits); cbn [bind];
      [|reflexivity].
    cbn [float_of_text].
    now rewrite float_of_string_of_int, of_decimal_int, O.
  - reflexivity.
  - destruct (float_of_string s); reflexivity.
  - destruct (on_float o); [reflexivity|].
    destruct (on_str o); reflexivity.
Qed.

Lemma parse_value_returns e : exists v, parse_value e = Ok v.
Proof.
  unfold parse_value.
  destruct (py_float _); cbn [try_except]; eauto.
  destruct (let? t := _ in _); cbn [try_except]; eauto.
Qed.

Lemma int_weight_returns e : exists w, int_weight e = Ok w.
Proof.
  unfold int_weight. destruct (py_int _); cbn [try_except]; eauto.
Qed.

Lemma parse_weight_returns e : exists w, parse_weight e = Ok w /\ 0 <= w.
Proof.
  unfold parse_weight, clamp_weight.
  destruct (int_weight_returns e) as [w ->]. cbn [bind].
  eexists. split; [reflexivity|].
  destruct (Z.ltb_spec w 0); [apply Z.leb_le; reflexivity|].
  destruct (Z.eqb_spec w (- 0)); lia.
Qed.

Lemma parse_weight_negative e w :
  int_weight e = Ok w -> w < 0 -> parse_weight e = Ok 0.
Proof.
  intros E H. unfold parse_weight, clamp_weight. rewrite E. cbn [bind].
  destruct (Z.ltb_spec w 0); [reflexivity|lia].
Qed.

(** ** The accumulated total *)

Lemma fadd_reachable x y : reachable x -> valid y -> reachable (fadd x y).
Proof.
  intros [Vx Nx] Vy. split; [apply fadd_valid|].
  destruct x as [|s|s u], y as [|t|t v]; cbn [fadd]; try discriminate.
  - destruct (Bool.eqb s t); discriminate.
  - destruct Vx as [[Hu _] _], Vy as [[Hv _] _].
    destruct (Z.eqb_spec (signed s u + signed t v) 0) as [E|E].
    + destruct s; cbn [andb]; [|discriminate].
      destruct t; [|discriminate]. cbn [signed] in E.
      assert (u = 0) by lia. subst u. contradiction.
    + destruct (pack_cases (signed s u + signed t v <? 0)
                  (round_units (Z.abs (signed s u + signed t v)) 1))
        as [[-> _]|[-> _]]; [|discriminate].
      pose proof (round_units_pos (Z.abs (signed s u + signed t v)) ltac:(lia)).
      intros C. injection C as _ C. lia.
Qed.

Lemma add_event_reachable total e r :
  reachable total -> add_event total e = Ok r -> reachable r.
Proof.
  intros R. unfold add_event, fmul_int.
  destruct (parse_value e) as [v|]; cbn [bind]; [|discriminate].
  destruct (parse_weight e) as [w|]; cbn [bind]; [|discriminate].
  destruct (of_int w) as [y|]; cbn [bind]; [|discriminate].
  intros [= <-]. apply fadd_reachable; [assumption|apply fmul_valid].
Qed.

Lemma accumulate_reachable events : forall total r,
  reachable total -> accumulate total events = Ok r -> reachable r.
Proof.
  induction events as [|e rest IH]; intros total r R; cbn [accumulate].
  - intros [= <-]. assumption.
  - destruct (add_event total e) as [t|] eqn:E; cbn [bind]; [|discriminate].
    apply IH. eapply add_event_reachable; eassumption.
Qed.

Lemma reachable_zero : reachable zero.
Proof. split; [apply valid_zero|discriminate]. Qed.

(** Claim C6, as amended: when the weight of an event parses to a
    negative integer and its value parses to a finite float, the total
    after the event equals the total before it, for every total the
    loop can have accumulated. *)
Theorem negative_weight_keeps_total
    (prefix : list dict) (e : dict) (total v : float) (w : Z) :
  accumulate zero prefix = Ok total ->
  int_weight e = Ok w -> w < 0 ->
  parse_value e = Ok v -> is_finite v = true ->
  add_event total e = Ok total.
Proof.
  intros A W Hw V F.
  destruct (accumulate_reachable _ _ _ reachable_zero A) as [Vt Nt].
  unfold add_event, fmul_int. rewrite V, (parse_weight_negative e w W Hw).
  cbn [bind]. change (of_int 0) with (Ok (Fin false 0)). cbn [bind].
  destruct v as [| |s u]; try discriminate.
  rewrite fmul_zero_r, fadd_zero_r by assumption. reflexivity.
Qed.

(** Claim C6: the amended statement for value "3" and weight -2 on
    the initial total. *)
Lemma negative_weight_keeps_total_witness :
  add_event zero (event_of (PyStr "3") (PyInt (-2))) = Ok zero.
Proof.
  apply (negative_weight_keeps_total [] _ zero (of_decimal false 3 0) (-2));
    try reflexivity.
Defined.

(** Claim C6 as stated fails: for value "inf" and weight -1 the
    product [inf * 0] is NaN and the total 0.0 becomes NaN. *)
Lemma negative_weight_changes_total :
  int_weight (event_of (PyStr "inf") (PyInt (-1))) = Ok (-1)
  /\ add_event zero (event_of (PyStr "inf") (PyInt (-1))) = Ok NaN
  /\ add_event zero (event_of (PyStr "inf") (PyInt (-1))) <> Ok zero.
Proof.
  split; [reflexivity|]. split; [vm_compute; reflexivity|].
  vm_compute. discriminate.
Qed.

(** The loop raises only when a weight is too large for a float. *)
Lemma accumulate_raises events : forall total err,
  accumulate total events = Raise err ->
  err = OverflowError
  /\ exists e w, In e events /\ parse_weight e = Ok w
                 /\ of_int w = Raise OverflowError.
Proof.
  induction events as [|e rest IH]; intros total err; cbn [accumulate];
    [discriminate|].
  destruct (add_event total e) as [t|err'] eqn:A; cbn [bind].
  - intros H. destruct (IH _ _ H) as (-> & e' & w & I & W & O).
    split; [reflexivity|]. exists e', w. split; [now right|]. auto.
  - intros [= <-]. unfold add_event, fmul_int in A.
    destruct (parse_value_returns e) as [v V]. rewrite V in A.
    destruct (parse_weight_returns e) as (w & W & _). rewrite W in A.
    cbn [bind] in A.
    destruct (of_int w) as [y|err] eqn:O; cbn [bind] in A; [discriminate|].
    injection A as <-. pose proof (of_int_raises _ _ O) as ->.
    split; [reflexivity|]. exists e, w. split; [now left|]. auto.
Qed.

(** ** Whole years: [int(days / 365)] truncates the exact quotient *)

Lemma one_split : one = pow2 1065 * 512.
Proof. reflexivity. Qed.

Lemma int_truediv_365 days :
  Z.abs days < 2 ^ 40 ->
  exists q, int_truediv days 365 = Ok q /\ to_int q = Ok (Z.quot days 365).
Proof.
  intros B. unfold int_truediv.
  change (365 =? 0) with false. change (Z.abs 365) with 365.
  change (365 <? 0) with false. cbv iota.
  set (a := Z.abs days) in *.
  assert (Ha : 0 <= a) by (subst a; lia).
  set (q := a / 365).
  assert (Hq : 365 * q <= a < 365 * q + 365).
  { pose proof (Z.div_mod a 365 ltac:(lia)). fold q in H.
    pose proof (Z.mod_pos_bound a 365 ltac:(lia)). lia. }
  assert (Hq0 : 0 <= q) by lia.
  assert (Hq1 : q < 2 ^ 40) by lia.
  pose proof one_pos as P1.
  pose proof (pow2_pos 1065 ltac:(lia)) as P2.
  pose proof one_split as S.
  set (u := round_units (a * one) 365).
  (* below: the double [q] *)
  assert (Lo : q * one <= u).
  { destruct (representable_int q) as [[_ _] M].
    { change (pow2 53) with (2 ^ 53). lia. }
    rewrite <- (round_units_id (q * one) 365) by (auto; nia).
    apply round_units_mono; nia. }
  (* above: the double just below [q + 1] *)
  set (y := (q + 1) * one - pow2 1065).
  assert (Hy : 0 <= y) by (subst y; nia).
  assert (My : y mod pow2 (binade y) = 0).
  { apply (multiple_representable y 1065); try lia.
    - split; [lia|]. rewrite pow2_add by lia.
      change (pow2 53) with (2 ^ 53). subst y. nia.
    - subst y. rewrite S.
      replace ((q + 1) * (pow2 1065 * 512) - pow2 1065)
        with (((q + 1) * 512 - 1) * pow2 1065) by ring.
      apply Z.mod_mul. lia. }
  assert (Hi : u <= y).
  { rewrite <- (round_units_id1 y) by assumption.
    apply round_units_mono; [nia|lia|lia|]. subst y. nia. }
  assert (Hlt : u < (q + 1) * one) by (subst y; lia).
  assert (D : u / one = q).
  { symmetry. apply (Z.div_unique u one q (u - q * one)); lia. }
  assert (T : u < top).
  { assert ((q + 1) * one <= pow2 53 * one).
    { change (pow2 53) with (2 ^ 53). nia. }
    assert (pow2 53 * one < top).
    { rewrite one_eq, top_eq, <- pow2_add by lia.
      assert (pow2 (53 + 1074) <= pow2 2097) by (apply pow2_le; lia).
      assert (pow2 2097 < pow2 2098).
      { replace 2098 with (2097 + 1) by lia. rewrite pow2_add by lia.
        change (pow2 1) with 2. pose proof (pow2_pos 2097); lia. }
      lia. }
    lia. }
  destruct (Z.ltb_spec u top); [|lia].
  eexists. split; [reflexivity|].
  cbn [to_int]. rewrite D, xorb_false_r. f_equal.
  rewrite Z.quot_div by lia. subst q a.
  destruct (Z.ltb_spec days 0); cbn [signed].
  - rewrite Z.sgn_neg by lia. change (Z.sgn 365) with 1. change (Z.abs 365) with 365. lia.
  - destruct (Z.eq_dec days 0) as [->|].
    + reflexivity.
    + rewrite Z.sgn_pos by lia. change (Z.sgn 365) with 1. change (Z.abs 365) with 365. lia.
Qed.

(** ** Account age and the loyalty bonus *)

Lemma days_before_month_range year month :
  1 <= month <= 12 -> 0 <= days_before_month year month <= 335.
Proof.
  intros H. unfold days_before_month.
  assert (C : month = 1 \/ month = 2 \/ month = 3 \/ month = 4 \/ month = 5
              \/ month = 6 \/ month = 7 \/ month = 8 \/ month = 9
              \/ month = 10 \/ month = 11 \/ month = 12) by lia.
  destruct (is_leap year);
    repeat (destruct C as [->|C];
            [split; apply Z.leb_le; vm_compute; reflexivity|]);
    subst; split; apply Z.leb_le; vm_compute; reflexivity.
Qed.

Lemma days_in_month_range year month :
  1 <= month <= 12 -> 28 <= days_in_month year month <= 31.
Proof.
  intros H. unfold days_in_month.
  assert (C : month = 1 \/ month = 2 \/ month = 3 \/ month = 4 \/ month = 5
              \/ month = 6 \/ month = 7 \/ month = 8 \/ month = 9
              \/ month = 10 \/ month = 11 \/ month = 12) by lia.
  destruct (is_leap year);
    repeat (destruct C as [->|C];
            [split; apply Z.leb_le; vm_compute; reflexivity|]);
    subst; split; apply Z.leb_le; vm_compute; reflexivity.
Qed.

Lemma toordinal_range d :
  valid_datetime d -> 1 <= toordinal d <= 3652060.
Proof.
  intros (Y & M & D & _).
  pose proof (days_before_month_range (dt_year d) (dt_month d) M).
  pose proof (days_in_month_range (dt_year d) (dt_month d) M).
  unfold toordinal, ymd2ord, days_before_year.
  pose proof (Z.div_mod (dt_year d - 1) 4 ltac:(lia)).
  pose proof (Z.mod_pos_bound (dt_year d - 1) 4 ltac:(lia)).
  pose proof (Z.div_mod (dt_year d - 1) 100 ltac:(lia)).
  pose proof (Z.mod_pos_bound (dt_year d - 1) 100 ltac:(lia)).
  pose proof (Z.div_mod (dt_year d - 1) 400 ltac:(lia)).
  pose proof (Z.mod_pos_bound (dt_year d - 1) 400 ltac:(lia)).
  lia.
Qed.

(** What [strptime] returns is a naive, valid datetime at midnight. *)
Lemma strptime_shape v c :
  strptime v = Ok c ->
  valid_datetime c /\ dt_aware c = false /\ dt_hour c = 0
  /\ dt_minute c = 0 /\ dt_second c = 0 /\ dt_microsecond c = 0.
Proof.
  unfold strptime. destruct v; try discriminate.
  destruct (match_ymd s) as [[[[y m] d] [|? ?]]|]; try discriminate.
  unfold make_datetime.
  destruct ((1 <=? y) && (y <=? 9999) && (1 <=? m) && (m <=? 12)
            && (1 <=? d) && (d <=? days_in_month y m)) eqn:G; [|discriminate].
  intros [= <-].
  repeat (apply andb_prop in G as [G ?]).
  unfold valid_datetime; cbn. lia.
Qed.

Lemma sub_days_naive now c :
  valid_datetime now -> dt_aware now = false ->
  dt_aware c = false -> dt_hour c = 0 -> dt_minute c = 0 ->
  dt_second c = 0 -> dt_microsecond c = 0 ->
  sub_days now c = Ok (toordinal now - toordinal c).
Proof.
  intros (_ & _ & _ & Hh & Hm & Hs & Hu) An Ac Ch Cm Cs Cu.
  unfold sub_days. rewrite An, Ac, Ch, Cm, Cs, Cu. cbn [Bool.eqb negb].
  f_equal.
  replace (_ / 86400000000) with 0; [lia|].
  symmetry. apply Z.div_small. lia.
Qed.

Lemma sub_days_aware now c :
  dt_aware now = true -> dt_aware c = false -> sub_days now c = Raise TypeError.
Proof. intros An Ac. unfold sub_days. rewrite An, Ac. reflexivity. Qed.

Lemma valid_now_2025 : valid_datetime now_2025.
Proof. unfold valid_datetime. vm_compute. repeat split; discriminate. Qed.

Lemma clamp_years_range y : 0 <= clamp_years y <= 6.
Proof.
  unfold clamp_years.
  destruct (Z.leb_spec 7 y); [simpl; lia|].
  destruct (Z.leb_spec y (-1)); lia.
Qed.

(** The seven possible non-fallback bonuses [k * 0.005] are doubles in
    [0, 0.03]. *)
Lemma year_bonus_shape k :
  0 <= k <= 6 ->
  exists v, fmul (Fin false (k * one)) lit_0_005 = Fin false v
            /\ representable v /\ 100 * v <= 3 * one.
Proof.
  intros H.
  assert (C : k = 0 \/ k = 1 \/ k = 2 \/ k = 3 \/ k = 4 \/ k = 5 \/ k = 6) by lia.
  destruct C as [-> | [-> | [-> | [-> | [-> | [-> | ->]]]]]];
    eexists; (split; [vm_compute; reflexivity|]);
    (split; [apply representableb_spec; vm_compute; reflexivity
            | apply Z.leb_le; vm_compute; reflexivity]).
Qed.

Lemma fallback_bonus : fadd zero zero = zero.
Proof. reflexivity. Qed.

(** The loyalty bonus never raises and is a double in [0, 0.03]. *)
Lemma loyalty_bonus_shape user now :
  exists v, loyalty_bonus user now = Ok (Fin false v)
            /\ representable v /\ 100 * v <= 3 * one.
Proof.
  assert (Z0 : exists v, Ok (fadd zero zero) = Ok (Fin false v)
                         /\ representable v /\ 100 * v <= 3 * one).
  { exists 0. split; [reflexivity|]. split; [apply (valid_zero false)|]. pose proof one_pos; lia. }
  unfold loyalty_bonus.
  destruct (strptime _) as [created|]; cbn [bind try_except]; auto.
  destruct (sub_days now created) as [days|]; cbn [bind try_except]; auto.
  destruct (int_truediv days 365) as [q|]; cbn [bind try_except]; auto.
  destruct (to_int q) as [years|]; cbn [bind try_except]; auto.
  pose proof (clamp_years_range years) as R.
  rewrite of_int_small by (change (pow2 53) with 9007199254740992; lia).
  cbn [bind try_except].
  replace (clamp_years years <? 0) with false by (symmetry; apply Z.ltb_ge; lia).
  rewrite Z.abs_eq by lia.
  destruct (year_bonus_shape _ R) as (v & E & Hv). exists v. rewrite E. split; [reflexivity|exact Hv].
Qed.

(** A zero bonus leaves the accumulated total as it is, unless the
    total is infinite. *)
Lemma apply_zero_bonus total :
  reachable total ->
  apply_bonus total zero = if is_inf total then NaN else total.
Proof.
  intros [V N]. unfold apply_bonus, zero.
  destruct total as [|s|s u]; try reflexivity.
  rewrite fmul_zero_r, xorb_false_r. cbn [is_inf fsub fneg].
  now apply fadd_zero_r.
Qed.

(** Claim C3, as amended: for every user record and every valid
    reference time, (1) when [created_at] does not parse as a
    YYYY-MM-DD date the bonus is 0.0, as it is when [now] is
    timezone-aware, and when it parses and [now] is naive the bonus is
    [clamp(trunc(days / 365)) * 0.005], the year count truncated
    toward zero and clamped to 6 from 7 on and to 0 below 0; (2) a zero
    bonus leaves every accumulated total unchanged, except that an
    infinite total becomes NaN; (3) the bonus is applied by replacing
    [total] with [total - total * bonus]. *)
Theorem loyalty_bonus_step (user : dict) (now : datetime) :
  valid_datetime now ->
  let created_raw := default (PyStr "") (user !! "created_at") in
  match strptime created_raw with
  | Ok created =>
      if dt_aware now then loyalty_bonus user now = Ok zero
      else exists years,
          of_int (clamp_years
                    (Z.quot (toordinal now - toordinal created) 365))
          = Ok years
          /\ loyalty_bonus user now = Ok (fmul years lit_0_005)
  | Raise _ => loyalty_bonus user now = Ok zero
  end
  /\ (forall events total,
        accumulate zero events = Ok total ->
        apply_bonus total zero = if is_inf total then NaN else total)
  /\ (forall events bonus,
        loyalty_bonus user now = Ok bonus ->
        calc_score events user now =
        let? total := accumulate zero events in
        let total := fsub total (fmul total bonus) in
        let? total := round2 (fmul total (tier_multiplier user)) in
        round2 total).
Proof.
  intros Vn created_raw. split; [|split].
  - unfold loyalty_bonus. fold created_raw.
    destruct (strptime created_raw) as [created|err] eqn:P;
      cbn [bind try_except]; [|reflexivity].
    destruct (strptime_shape _ _ P) as (Vc & Ac & Ch & Cm & Cs & Cu).
    destruct (dt_aware now) eqn:An.
    + rewrite sub_days_aware by assumption. reflexivity.
    + rewrite sub_days_naive by assumption. cbn [bind].
      pose proof (toordinal_range _ Vn). pose proof (toordinal_range _ Vc).
      destruct (int_truediv_365 (toordinal now - toordinal created))
        as (q & Eq & Et); [lia|].
      rewrite Eq. cbn [bind]. rewrite Et. cbn [bind].
      pose proof (clamp_years_range
                    (Z.quot (toordinal now - toordinal created) 365)) as R.
      rewrite of_int_small by (change (pow2 53) with 9007199254740992; lia).
      cbn [bind try_except]. eexists. split; reflexivity.
  - intros events total A. apply apply_zero_bonus.
    exact (accumulate_reachable _ _ _ reachable_zero A).
  - intros events bonus B. unfold calc_score. rewrite B. reflexivity.
Qed.

(** Claim C3: the amended statement at the reference time of the test
    vectors. *)
Lemma loyalty_bonus_step_witness :
  valid_datetime now_2025
  /\ forall events total,
       accumulate zero events = Ok total ->
       apply_bonus total zero = if is_inf total then NaN else total.
Proof.
  split; [exact valid_now_2025|].
  apply (loyalty_bonus_step (user_of "pro" "2020-01-01") now_2025 valid_now_2025).
Defined.

(** Claim C3 as stated fails: with value "inf" and an unparseable
    [created_at] the total [inf] becomes NaN at the bonus step
    ([inf - inf * 0.0]); and with a timezone-aware [now] the bonus is
    0.0 although "2020-01-01" parses (it is 0.025 for the naive
    [now]). *)
Lemma loyalty_bonus_step_counterexample :
  (accumulate zero [event_of (PyStr "inf") (PyInt 1)] = Ok (Inf false)
   /\ strptime (PyStr "not-a-date") = Raise ValueError
   /\ loyalty_bonus (user_of "free" "not-a-date") now_2025 = Ok zero
   /\ apply_bonus (Inf false) zero = NaN)
  /\ (strptime (PyStr "2020-01-01") <> Raise ValueError
      /\ loyalty_bonus (user_of "free" "2020-01-01") now_2025 = Ok (of_decimal false 25 (-3))
      /\ loyalty_bonus (user_of "free" "2020-01-01") now_2025_utc = Ok zero).
Proof.
  split; [split; [|split; [|split]]|split; [|split]];
    try (vm_compute; reflexivity).
  vm_compute. discriminate.
Qed.

(** ** The bonus step and the tier multiplier on finite totals *)

Lemma tier_multiplier_cases user :
  tier_multiplier user = lit_1_2 \/ tier_multiplier user = lit_1_1
  \/ tier_multiplier user = lit_1_0.
Proof.
  unfold tier_multiplier.
  destruct (tier_is _ "vip"); [left; reflexivity|].
  destruct (tier_is _ "pro"); [right; left|right; right]; reflexivity.
Qed.

Lemma tier_multiplier_shape user :
  exists v, tier_multiplier user = Fin false v /\ representable v
            /\ one <= v /\ 10 * v <= 12 * one + one.
Proof.
  destruct (tier_multiplier_cases user) as [-> | [-> | ->]];
    eexists; (split; [vm_compute; reflexivity|]);
    (split; [apply representableb_spec; vm_compute; reflexivity|]);
    split; apply Z.leb_le; vm_compute; reflexivity.
Qed.

Lemma tier_multiplier_insert user tier :
  tier_multiplier (<["tier" := PyStr tier]> user)
  = if String.eqb tier "vip" then lit_1_2
    else if String.eqb tier "pro" then lit_1_1 else lit_1_0.
Proof. unfold tier_multiplier. rewrite lookup_insert_eq. reflexivity. Qed.

Lemma tier_multiplier_gaps :
  9 * one <= 100 * (magnitude lit_1_1 - one)
  /\ 9 * one <= 100 * (magnitude lit_1_2 - magnitude lit_1_1)
  /\ magnitude lit_1_2 <= 2 * one
  /\ magnitude float_1e300 <= pow2 2096.
Proof. repeat split; apply Z.leb_le; vm_compute; reflexivity. Qed.

Lemma apply_bonus_zero t v : apply_bonus zero (Fin t v) = zero.
Proof.
  unfold apply_bonus, zero. rewrite fmul_zero_l.
  destruct t; reflexivity.
Qed.

Lemma fmul_finite_le s u vb :
  representable u -> 0 <= vb <= one ->
  exists p, fmul (Fin s u) (Fin false vb) = Fin s p /\ 0 <= p <= u.
Proof.
  intros [[Hu Ht] M] Hb. pose proof one_pos.
  cbn [fmul]. rewrite xorb_false_r, Z.abs_eq by nia.
  assert (round_units (u * vb) one <= u).
  { rewrite <- (round_units_id u one) at 2 by (auto; lia).
    apply round_units_mono; nia. }
  assert (0 <= round_units (u * vb) one) by (apply round_units_nonneg; nia).
  rewrite pack_small by lia. eauto.
Qed.

(** Subtracting [total * bonus] keeps a finite total finite, with a
    magnitude that does not grow and a sign that does not turn
    negative. *)
Lemma apply_bonus_finite s u vb :
  representable u -> 0 <= vb <= one ->
  exists s' u', apply_bonus (Fin s u) (Fin false vb) = Fin s' u'
                /\ representable u' /\ u' <= u /\ (s = false -> s' = false).
Proof.
  intros R Hb. pose proof R as [[Hu Ht] M].
  destruct (fmul_finite_le s u vb R Hb) as (p & E & Hp).
  unfold apply_bonus. rewrite E. cbn [fsub fneg fadd].
  set (z := signed s u + signed (negb s) p).
  assert (Az : Z.abs z = u - p) by (subst z; destruct s; cbn [signed negb]; lia).
  destruct (Z.eqb_spec z 0) as [Z0|Zn].
  - exists (s && negb s), 0. split; [reflexivity|].
    split; [apply (valid_zero false)|]. split; [lia|]. now intros ->.
  - rewrite Az.
    assert (L : round_units (u - p) 1 <= u).
    { rewrite <- (round_units_id1 u) at 2 by (auto; lia).
      apply round_units_mono; lia. }
    assert (N : 0 <= round_units (u - p) 1) by (apply round_units_nonneg; lia).
    rewrite pack_small by lia.
    exists (z <? 0), (round_units (u - p) 1).
    split; [reflexivity|]. split; [|split; [assumption|]].
    + split; [split; lia|]. apply round_units_multiple; lia.
    + intros ->. subst z. cbn [signed negb]. apply Z.ltb_ge. lia.
Qed.

(** An infinite or NaN total becomes NaN. *)
Lemma apply_bonus_not_finite total vb :
  is_finite total = false -> apply_bonus total (Fin false vb) = NaN.
Proof.
  destruct total as [|s|s u]; try discriminate; intros _; [reflexivity|].
  unfold apply_bonus. cbn [fmul]. destruct (vb =? 0); [reflexivity|].
  destruct s; reflexivity.
Qed.

(** For a total of at least 1.0 the bonus step keeps more than half. *)
Lemma apply_bonus_keeps_half u vb :
  representable u -> one <= u -> 0 <= vb -> 100 * vb <= 3 * one ->
  exists a, apply_bonus (Fin false u) (Fin false vb) = Fin false a
            /\ representable a /\ a <= u /\ u <= 2 * a.
Proof.
  intros R Hu Hv Hb. pose proof one_pos as P1. pose proof one_large as O.
  destruct (apply_bonus_finite false u vb R ltac:(lia))
    as (s' & a & E & Ra & La & S).
  rewrite (S eq_refl) in E. exists a. split; [exact E|]. split; [exact Ra|].
  split; [exact La|].
  (* recompute the magnitude *)
  unfold apply_bonus in E. cbn [fmul xorb] in E.
  rewrite Z.abs_eq in E by nia.
  assert (Hn : 0 <= u * vb) by nia.
  destruct (round_units_error (u * vb) one Hn P1) as (s & Ps & [_ Up] & Ss).
  assert (MB : u * vb <= 1 * u * one) by nia.
  pose proof (spacing_small s _ one 1 u P1 ltac:(lia) ltac:(lia) MB Ss) as Sa.
  set (p := round_units (u * vb) one) in *.
  assert (Hp : 0 <= p) by (apply round_units_nonneg; lia).
  assert (Pu : 10 * p <= u).
  { apply le_cancel_one.
    assert (one * (1000000 * s) <= one * u) by (apply Z.mul_le_mono_nonneg_l; lia).
    assert (100 * (u * vb) <= 3 * (u * one)) by nia.
    lia. }
  destruct R as [[_ Ht] _].
  rewrite pack_small in E by lia.
  cbn [fsub fneg negb fadd signed] in E.
  destruct (Z.eqb_spec (u + - p) 0) as [Z0|Zn]; [lia|].
  rewrite Z.abs_eq in E by lia.
  destruct (round_units_error (u + - p) 1 ltac:(lia) ltac:(lia)) as (t & Pt & [Lo _] & St).
  assert (Tu : 1000000 * t <= u).
  { apply (spacing_small t (u + - p) 1 1 u); lia. }
  destruct (pack_cases (u + - p <? 0) (round_units (u + - p) 1)) as [[Ep _]|[Ep _]];
    rewrite Ep in E; [|discriminate].
  injection E as _ <-. lia.
Qed.

(** ** The whole function *)

(** Claim C2: with the reference time 2025-01-01T00:00:00, [calc_score]
    gives 0.0 for no events and a free user created 2020-01-01, 3.22
    for value "1.5", weight "2" and a pro user created 2020-01-01,
    116.4 for value "100", weight "1" and a vip user created
    2018-01-01, and 0.0 for value "-1", weight "-0" and a vip user
    created 2020-01-01. *)
Theorem reference_vectors :
  calc_score [] (user_of "free" "2020-01-01") now_2025 = Ok zero
  /\ calc_score [event_of (PyStr "1.5") (PyStr "2")]
       (user_of "pro" "2020-01-01") now_2025
     = Ok (of_decimal false 322 (-2))
  /\ calc_score [event_of (PyStr "100") (PyStr "1")]
       (user_of "vip" "2018-01-01") now_2025
     = Ok (of_decimal false 1164 (-1))
  /\ calc_score [event_of (PyStr "-1") (PyStr "-0")]
       (user_of "vip" "2020-01-01") now_2025
     = Ok zero.
Proof. split; [|split; [|split]]; vm_compute; reflexivity. Qed.

(** The remaining reference vectors of tests/test_before.py. *)
Example more_reference_vectors :
  calc_score [event_of PyNone PyNone; event_of (PyStr "3") (PyInt (-2))]
    (user_of "vip" "2010-01-01") now_2025 = Ok zero
  /\ calc_score [event_of (PyStr "2") (PyStr "bad");
                 event_of (PyStr "bad") (PyStr "3")]
       (user_of "free" "bad-date") now_2025 = Ok (of_decimal false 2 0)
  /\ calc_score [event_of (PyInt 5) (PyInt 0)]
       (user_of "pro" "2024-12-31") now_2025 = Ok zero
  /\ calc_score [event_of (PyFloat (of_decimal false 1005 (-3))) (PyInt 1)]
       (user_of "free" "2020-01-01") now_2025 = Ok (of_decimal false 98 (-2)).
Proof. split; [|split; [|split]]; vm_compute; reflexivity. Qed.

(** Claim C7: for every user record and every reference time,
    [calc_score([], user, now)] returns exactly 0.0. *)
Theorem calc_score_no_events (user : dict) (now : datetime) :
  calc_score [] user now = Ok zero.
Proof.
  unfold calc_score. cbn [accumulate bind].
  destruct (loyalty_bonus_shape user now) as (b & -> & _).
  destruct (tier_multiplier_shape user) as (m & -> & _).
  cbn [bind]. rewrite apply_bonus_zero. unfold zero. rewrite fmul_zero_l. cbn [xorb].
  rewrite round2_zero. cbn [bind]. apply round2_zero.
Qed.

(** Claim C1: for every events list, user record and reference time,
    [calc_score] returns a number and raises no exception.  The code
    does not do this: for the integer weight [10**400] the conversion
    [int(w)] succeeds, and the product [v * w] of line 42, which lies
    outside every [try], raises [OverflowError].  The value path
    absorbs the same error ([float(10**400)] is caught on line 23). *)
Theorem calc_score_raises_on_huge_weight :
  calc_score [event_of (PyInt 1) (PyInt (10 ^ 400))]
    (user_of "free" "2020-01-01") now_2025
  = Raise OverflowError.
Proof. vm_compute. reflexivity. Qed.

(** Past the loop nothing raises: [calc_score] raises exactly the
    [OverflowError] of a weight that does not fit a float, and returns
    on every other input. *)
Lemma calc_score_raises events user now err :
  calc_score events user now = Raise err ->
  err = OverflowError
  /\ exists e w, In e events /\ parse_weight e = Ok w
                 /\ of_int w = Raise OverflowError.
Proof.
  unfold calc_score.
  destruct (accumulate zero events) as [total|err'] eqn:A; cbn [bind].
  - destruct (loyalty_bonus_shape user now) as (vb & B & _). rewrite B.
    cbn [bind].
    destruct (round2_idempotent _
                (fmul_valid (apply_bonus total (Fin false vb))
                   (tier_multiplier user))) as (y & E & E').
    rewrite E. cbn [bind]. rewrite E'. discriminate.
  - intros [= <-]. eapply accumulate_raises. eassumption.
Qed.

(** Claim C10, as amended: rounding to two decimals is idempotent as a
    function: for every float [x], [round(round(x, 2), 2)] is the
    float [round(x, 2)], so [calc_score] returns what a single final
    rounding returns.  The comparison
    [round(round(x, 2), 2) == round(x, 2)] is true exactly when [x] is
    not NaN: NaN is rounded to NaN, which compares unequal to
    itself. *)
Theorem double_rounding_is_single :
  (forall x : float,
      valid x ->
      exists y z, round2 x = Ok y /\ round2 y = Ok z /\ z = y
                  /\ feq z y = negb (is_nan x))
  /\ (forall events user now,
        calc_score events user now =
        (let? total := accumulate zero events in
         let? bonus := loyalty_bonus user now in
         round2 (fmul (apply_bonus total bonus) (tier_multiplier user)))).
Proof.
  split.
  - intros x V. destruct (round2_idempotent x V) as (y & E & E').
    exists y, y. split; [exact E|]. split; [exact E'|]. split; [reflexivity|].
    destruct x as [|s|s a].
    + injection E as <-. reflexivity.
    + injection E as <-. cbn [is_nan negb]. now apply feq_refl.
    + cbn [round2] in E. destruct (_ <? top); [|discriminate].
      injection E as <-. cbn [is_nan negb]. now apply feq_refl.
  - intros events user now. unfold calc_score.
    destruct (accumulate zero events) as [total|]; cbn [bind]; [|reflexivity].
    destruct (loyalty_bonus user now) as [bonus|]; cbn [bind]; [|reflexivity].
    destruct (round2_idempotent _
                (fmul_valid (apply_bonus total bonus) (tier_multiplier user)))
      as (y & E & E').
    rewrite E. cbn [bind]. exact E'.
Qed.

(** Claim C10: the amended statement at the float 2.675. *)
Lemma double_rounding_is_single_witness :
  valid float_2_675
  /\ exists y z, round2 float_2_675 = Ok y /\ round2 y = Ok z /\ z = y
                 /\ feq z y = negb (is_nan float_2_675).
Proof.
  assert (V : valid float_2_675).
  { apply representableb_spec. vm_compute. reflexivity. }
  split; [exact V|].
  apply (proj1 double_rounding_is_single float_2_675 V).
Defined.

(** Claim C10 as stated fails at NaN: the event value ["nan"] makes
    the total NaN, both roundings return NaN, and
    [round(round(x, 2), 2) == round(x, 2)] is false. *)
Lemma double_rounding_counterexample :
  accumulate zero [event_value (PyStr "nan")] = Ok NaN
  /\ calc_score [event_value (PyStr "nan")] (user_of "free" "2020-01-01")
       now_2025 = Ok NaN
  /\ exists y z, round2 NaN = Ok y /\ round2 y = Ok z /\ feq z y = false.
Proof.
  split; [vm_compute; reflexivity|]. split; [vm_compute; reflexivity|].
  exists NaN, NaN. repeat split.
Qed.

(** Claim C5, as amended: when [calc_score] returns an infinity, the
    bonus-adjusted total is finite and the infinity is its product
    with the tier multiplier, which is not 1.0 (the tier is "vip" or
    "pro"); in every other case the result is finite or NaN. *)
Theorem infinite_score_needs_tier_overflow
    (events : list dict) (user : dict) (now : datetime) (r : float) :
  calc_score events user now = Ok r ->
  is_inf r = true ->
  exists total bonus,
    accumulate zero events = Ok total
    /\ loyalty_bonus user now = Ok bonus
    /\ is_finite (apply_bonus total bonus) = true
    /\ fmul (apply_bonus total bonus) (tier_multiplier user) = r
    /\ tier_multiplier user <> lit_1_0.
Proof.
  unfold calc_score.
  destruct (accumulate zero events) as [total|] eqn:A; cbn [bind]; [|discriminate].
  destruct (accumulate_reachable _ _ _ reachable_zero A) as [Vt _].
  destruct (loyalty_bonus_shape user now) as (vb & B & Rb & Hb).
  rewrite B. cbn [bind].
  assert (Hb' : 0 <= vb <= one) by (destruct Rb as [[? _] _]; pose proof one_pos; lia).
  set (t1 := apply_bonus total (Fin false vb)).
  set (t2 := fmul t1 (tier_multiplier user)).
  destruct (round2_total t2 (fmul_valid _ _)) as (a & Ea & Va & Ia & _).
  rewrite Ea. cbn [bind].
  destruct (round2_total a Va) as (b & Eb & _ & Ib & _).
  rewrite Eb. intros [= <-] I. rewrite Ib, Ia in I.
  assert (Ft : is_finite total = true).
  { destruct (is_finite total) eqn:Ft; [reflexivity|].
    subst t2 t1. rewrite apply_bonus_not_finite in I by assumption.
    discriminate. }
  destruct total as [| |s u]; try discriminate Ft.
  destruct (apply_bonus_finite s u vb Vt Hb') as (s' & u' & E & Ru & _).
  exists (Fin s u), (Fin false vb). split; [reflexivity|]. split; [reflexivity|].
  subst t2 t1. rewrite E in *. split; [reflexivity|]. split.
  - destruct (fmul (Fin s' u') (tier_multiplier user)); try discriminate.
    cbn [round2] in Ea. injection Ea as <-.
    cbn [round2] in Eb. injection Eb as <-. reflexivity.
  - intros C. rewrite C, fmul_one in I by assumption. discriminate.
Qed.

(** Claim C5: the amended statement for value "1.7e308" and tier
    "vip". *)
Lemma infinite_score_needs_tier_overflow_witness :
  exists total bonus,
    accumulate zero [event_of (PyStr "1.7e308") (PyInt 1)] = Ok total
    /\ loyalty_bonus (user_of "vip" "2020-01-01") now_2025 = Ok bonus
    /\ is_finite (apply_bonus total bonus) = true
    /\ fmul (apply_bonus total bonus)
         (tier_multiplier (user_of "vip" "2020-01-01")) = Inf false
    /\ tier_multiplier (user_of "vip" "2020-01-01") <> lit_1_0.
Proof.
  apply (infinite_score_needs_tier_overflow
           [event_of (PyStr "1.7e308") (PyInt 1)]
           (user_of "vip" "2020-01-01") now_2025 (Inf false));
    vm_compute; reflexivity.
Defined.

(** Claim C5 as stated fails: for value "1.7e308" and tier "vip" the
    product of the adjusted total with 1.2 overflows and [calc_score]
    returns [+inf]. *)
Lemma infinite_score_counterexample :
  calc_score [event_of (PyStr "1.7e308") (PyInt 1)]
    (user_of "vip" "2020-01-01") now_2025
  = Ok (Inf false).
Proof. vm_compute. reflexivity. Qed.

(** ** Tier ordering *)

Lemma nonneg_pack n d : 0 <= n -> 0 < d -> nonneg_ext (pack false (round_units n d)).
Proof.
  intros Hn Hd. pose proof (valid_pack false n d Hn Hd) as V.
  destruct (pack_cases false (round_units n d)) as [[E _]|[E _]];
    rewrite E in *; [exact V|exact I].
Qed.

Lemma fle_pack a b : a <= b -> fle (pack false a) (pack false b) = true.
Proof.
  intros H. unfold pack.
  destruct (Z.ltb_spec a top), (Z.ltb_spec b top); cbn [fle signed negb orb];
    try reflexivity; [apply Z.leb_le|]; lia.
Qed.

Lemma round2_nonneg_mono x y :
  nonneg_ext x -> nonneg_ext y -> fle x y = true ->
  exists a b, round2 x = Ok a /\ round2 y = Ok b
              /\ nonneg_ext a /\ nonneg_ext b /\ fle a b = true.
Proof.
  destruct x as [|[|]|[|] u], y as [|[|]|[|] v]; cbn [nonneg_ext]; try contradiction;
    intros Rx Ry L.
  - exists (Inf false), (Inf false). repeat split.
  - discriminate L.
  - destruct (round2_finite false u Rx) as [E R].
    exists (Fin false (round2_units u)), (Inf false).
    split; [exact E|]. split; [reflexivity|]. split; [exact R|].
    split; [exact I|reflexivity].
  - destruct (round2_finite false u Rx) as [E R].
    destruct (round2_finite false v Ry) as [E' R'].
    exists (Fin false (round2_units u)), (Fin false (round2_units v)).
    split; [exact E|]. split; [exact E'|]. split; [exact R|]. split; [exact R'|].
    cbn [fle signed] in *. apply Z.leb_le in L. apply Z.leb_le.
    apply round2_units_mono. destruct Rx as [[? _] _]. lia.
Qed.

Lemma tier_score_mono u m1 m2 :
  0 <= u -> 0 <= m1 <= m2 ->
  exists a b, tier_score (Fin false u) (Fin false m1) = Ok a
              /\ tier_score (Fin false u) (Fin false m2) = Ok b
              /\ fle a b = true.
Proof.
  intros Hu Hm. pose proof one_pos. unfold tier_score. cbn [fmul xorb].
  rewrite !Z.abs_eq by nia.
  destruct (round2_nonneg_mono
              (pack false (round_units (u * m1) one))
              (pack false (round_units (u * m2) one)))
    as (a & b & Ea & Eb & Na & Nb & L).
  { apply nonneg_pack; nia. }
  { apply nonneg_pack; nia. }
  { apply fle_pack. assert (u * m1 <= u * m2) by nia.
    apply round_units_mono; nia. }
  rewrite Ea, Eb. cbn [bind].
  destruct (round2_nonneg_mono a b Na Nb L) as (a' & b' & Ea' & Eb' & _ & _ & L').
  eauto.
Qed.

Lemma tier_score_value a m :
  0 <= a -> 0 <= m -> round_units (a * m) one < top ->
  tier_score (Fin false a) (Fin false m)
  = Ok (Fin false (round2_units (round_units (a * m) one))).
Proof.
  intros Ha Hm T. pose proof one_pos as P1.
  assert (Hn : 0 <= a * m) by nia.
  unfold tier_score. cbn [fmul xorb]. rewrite Z.abs_eq, pack_small by assumption.
  assert (R : representable (round_units (a * m) one)).
  { split; [split; [apply round_units_nonneg; lia|assumption]|].
    apply round_units_multiple; lia. }
  destruct (round2_finite false _ R) as [E R2]. rewrite E. cbn [bind].
  destruct (round2_finite false _ R2) as [E' _]. rewrite E'.
  rewrite round2_units_idempotent; [reflexivity|].
  apply round_units_nonneg; lia.
Qed.

(** Below [2^1022] no tier product overflows. *)
Lemma tier_product_finite a m :
  0 <= a <= pow2 2096 -> 0 <= m <= 2 * one ->
  round_units (a * m) one < top.
Proof.
  intros Ha Hm. pose proof one_pos as P1.
  destruct (representable_pow2 2097 ltac:(lia)) as [[P T] M].
  assert (E : pow2 2097 = 2 * pow2 2096).
  { replace 2097 with (1 + 2096) by lia. rewrite pow2_add by lia. reflexivity. }
  assert (round_units (a * m) one <= pow2 2097); [|lia].
  rewrite <- (round_units_id (pow2 2097) one) by (auto; lia).
  assert (a * m <= pow2 2096 * (2 * one)).
  { apply Z.mul_le_mono_nonneg; lia. }
  assert (0 <= a * m) by (apply Z.mul_nonneg_nonneg; lia).
  apply round_units_mono; try lia.
  apply Z.mul_le_mono_nonneg_r; lia.
Qed.

(** Two products of [a >= 0.5] whose multipliers are between 1 and 2
    and differ by at least 0.09 round to different hundredths. *)
Lemma tier_products_separated a mA mB :
  one <= 2 * a ->
  one <= mA -> mB <= 2 * one -> 9 * one <= 100 * (mB - mA) ->
  round2_units (round_units (a * mA) one)
  < round2_units (round_units (a * mB) one).
Proof.
  intros Ha HA HB Hd. pose proof one_pos as P1. pose proof one_large as O.
  assert (Ha0 : 0 <= a) by lia.
  assert (MA : a * mA <= 2 * a * one) by nia.
  assert (MB : a * mB <= 2 * a * one) by nia.
  assert (HmA : 0 <= a * mA) by nia.
  assert (HmB : 0 <= a * mB) by nia.
  assert (Gap : 9 * (a * one) <= 100 * (a * mB) - 100 * (a * mA)) by nia.
  destruct (round_units_error (a * mA) one HmA P1) as (sA & PA & [_ UA] & SA).
  destruct (round_units_error (a * mB) one HmB P1) as (sB & PB & [LB UB] & SB).
  pose proof (spacing_small sA _ one 2 a P1 Ha ltac:(lia) MA SA) as SAa.
  pose proof (spacing_small sB _ one 2 a P1 Ha ltac:(lia) MB SB) as SBa.
  set (xA := round_units (a * mA) one) in *.
  set (xB := round_units (a * mB) one) in *.
  assert (HxA : 0 <= xA) by (apply round_units_nonneg; lia).
  assert (HxB : 0 <= xB) by (apply round_units_nonneg; lia).
  (* the products differ by more than 0.08 a *)
  assert (X : 17 * a <= 200 * (xB - xA)).
  { apply le_cancel_one.
    assert (one * (1000000 * sA) <= one * a) by (apply Z.mul_le_mono_nonneg_l; lia).
    assert (one * (1000000 * sB) <= one * a) by (apply Z.mul_le_mono_nonneg_l; lia).
    lia. }
  assert (XB : 2 * xB <= 5 * a).
  { apply le_cancel_one.
    assert (one * (1000000 * sB) <= one * a) by (apply Z.mul_le_mono_nonneg_l; lia).
    lia. }
  (* so do the hundredths *)
  destruct (rne_spec (xA * 100) one P1) as ([_ CA] & _ & _).
  destruct (rne_spec (xB * 100) one P1) as ([CB CB'] & _ & _).
  set (cA := rne (xA * 100) one) in *.
  set (cB := rne (xB * 100) one) in *.
  assert (HcA : 0 <= cA) by (apply rne_nonneg; lia).
  assert (HcB : 0 <= cB) by (apply rne_nonneg; lia).
  assert (C : 13 * a <= 2 * (cB * one) - 2 * (cA * one)) by lia.
  assert (CBa : cB * one <= 251 * a * 1) by lia.
  assert (CAa : cA * one <= 251 * a * 1) by lia.
  (* and the doubles nearest to them *)
  unfold round2_units. fold cA. fold cB.
  assert (HnA : 0 <= cA * one) by nia.
  assert (HnB : 0 <= cB * one) by nia.
  destruct (round_units_error (cA * one) 100 HnA ltac:(lia)) as (tA & QA & [_ RA] & TA).
  destruct (round_units_error (cB * one) 100 HnB ltac:(lia)) as (tB & QB & [RB _] & TB).
  assert (TAa : 1000000 * tA <= a).
  { apply (spacing_small tA (cA * one) 100 3 a); try lia. }
  assert (TBa : 1000000 * tB <= a).
  { apply (spacing_small tB (cB * one) 100 3 a); try lia. }
  lia.
Qed.

Lemma calc_score_tier events user now tier total bonus :
  accumulate zero events = Ok total ->
  loyalty_bonus user now = Ok bonus ->
  calc_score events (<["tier" := tier]> user) now
  = tier_score (apply_bonus total bonus)
      (tier_multiplier (<["tier" := tier]> user)).
Proof.
  intros A B. unfold calc_score, tier_score. rewrite A. cbn [bind].
  assert (E : loyalty_bonus (<["tier" := tier]> user) now = loyalty_bonus user now).
  { unfold loyalty_bonus. now rewrite lookup_insert_ne. }
  rewrite E, B. reflexivity.
Qed.

(** Claim C4, as amended: for every events list whose base total is
    finite and not negative, every user record and reference time, the
    scores for the tiers "free", "pro" and "vip" are returned and
    ordered [free <= pro <= vip]; both inequalities are strict when the
    base total is at least 1.0 and at most 1e300. *)
Theorem tier_order_nonnegative
    (events : list dict) (user : dict) (now : datetime) (total : float) :
  accumulate zero events = Ok total ->
  is_finite total = true ->
  fle zero total = true ->
  exists free pro vip,
    calc_score events (<["tier" := PyStr "free"]> user) now = Ok free
    /\ calc_score events (<["tier" := PyStr "pro"]> user) now = Ok pro
    /\ calc_score events (<["tier" := PyStr "vip"]> user) now = Ok vip
    /\ fle free pro = true /\ fle pro vip = true
    /\ (fle lit_1_0 total = true -> fle total float_1e300 = true ->
        flt free pro = true /\ flt pro vip = true).
Proof.
  intros A F P.
  destruct (accumulate_reachable _ _ _ reachable_zero A) as [Vt Nt].
  destruct (loyalty_bonus_shape user now) as (vb & B & Rb & Hb).
  pose proof one_pos as P1.
  assert (Hb' : 0 <= vb <= one) by (destruct Rb as [[? _] _]; lia).
  destruct total as [| |s u]; try discriminate.
  assert (s = false).
  { destruct s; [|reflexivity]. cbn [fle zero signed] in P.
    apply Z.leb_le in P. destruct Vt as [[? _] _].
    assert (u = 0) by lia. subst u. contradiction. }
  subst s.
  destruct (apply_bonus_finite false u vb Vt Hb')
    as (s' & u' & E & [[Hu' _] _] & Le & S).
  rewrite (S eq_refl) in E.
  rewrite !(calc_score_tier events user now _ _ _ A B), !tier_multiplier_insert, E.
  cbn [String.eqb Ascii.eqb Bool.eqb].
  destruct tier_multiplier_gaps as (G1 & G2 & G3 & G4).
  set (m11 := magnitude lit_1_1) in *. set (m12 := magnitude lit_1_2) in *.
  set (big := magnitude float_1e300) in *.
  assert (E11 : lit_1_1 = Fin false m11) by reflexivity.
  assert (E12 : lit_1_2 = Fin false m12) by reflexivity.
  assert (Eb : float_1e300 = Fin false big) by reflexivity.
  clearbody m11 m12 big. rewrite E11, E12, lit_1_0_eq.
  destruct (tier_score_mono u' one m11 Hu') as (f & p & Ef & Ep & L1); [lia|].
  destruct (tier_score_mono u' m11 m12 Hu') as (p' & v & Ep' & Ev & L2); [lia|].
  rewrite Ep in Ep'. injection Ep' as <-.
  exists f, p, v. repeat (split; [assumption|]).
  (* strictness *)
  intros Lo Hi. rewrite Eb in Hi.
  cbn [fle signed] in Lo, Hi. apply Z.leb_le in Lo, Hi.
  destruct (apply_bonus_keeps_half u vb Vt Lo ltac:(lia) Hb)
    as (a & E' & _ & La & Ha).
  rewrite E in E'. injection E' as ->.
  rewrite tier_score_value in Ef, Ep, Ev
    by (try apply tier_product_finite; lia).
  injection Ef as <-. injection Ep as <-. injection Ev as <-.
  cbn [flt signed]. split; apply Z.ltb_lt; apply tier_products_separated; lia.
Qed.

(** Claim C4: the amended statement on the events of the second
    reference vector, whose base total is 3.0. *)
Lemma tier_order_nonnegative_witness :
  exists free pro vip,
    calc_score [event_of (PyStr "1.5") (PyStr "2")]
      (<["tier" := PyStr "free"]> (user_created "2020-01-01")) now_2025 = Ok free
    /\ calc_score [event_of (PyStr "1.5") (PyStr "2")]
         (<["tier" := PyStr "pro"]> (user_created "2020-01-01")) now_2025 = Ok pro
    /\ calc_score [event_of (PyStr "1.5") (PyStr "2")]
         (<["tier" := PyStr "vip"]> (user_created "2020-01-01")) now_2025 = Ok vip
    /\ fle free pro = true /\ fle pro vip = true
    /\ flt free pro = true /\ flt pro vip = true.
Proof.
  destruct (tier_order_nonnegative [event_of (PyStr "1.5") (PyStr "2")]
              (user_created "2020-01-01") now_2025 (of_decimal false 3 0))
    as (free & pro & vip & Ef & Ep & Ev & L1 & L2 & S);
    [vm_compute; reflexivity ..|].
  exists free, pro, vip.
  repeat (split; [assumption|]).
  apply S; vm_compute; reflexivity.
Defined.

(** Claim C4 as stated fails: for the base total -10.0 the scores are
    -9.75 (free), -10.73 (pro) and -11.7 (vip), in reverse order; for
    the positive base total 0.001 the three scores are all 0.0, so the
    inequalities are not strict. *)
Lemma tier_order_counterexample :
  (calc_score [event_value (PyStr "-10")]
      (<["tier" := PyStr "free"]> (user_created "2020-01-01")) now_2025
    = Ok (of_decimal true 975 (-2))
   /\ calc_score [event_value (PyStr "-10")]
        (<["tier" := PyStr "pro"]> (user_created "2020-01-01")) now_2025
      = Ok (of_decimal true 1073 (-2))
   /\ calc_score [event_value (PyStr "-10")]
        (<["tier" := PyStr "vip"]> (user_created "2020-01-01")) now_2025
      = Ok (of_decimal true 117 (-1))
   /\ fle (of_decimal true 1073 (-2)) (of_decimal true 117 (-1)) = false
   /\ fle (of_decimal true 975 (-2)) (of_decimal true 1073 (-2)) = false)
  /\ (accumulate zero [event_value (PyStr "0.001")] = Ok (of_decimal false 1 (-3))
      /\ flt zero (of_decimal false 1 (-3)) = true
      /\ calc_score [event_value (PyStr "0.001")]
           (<["tier" := PyStr "free"]> (user_created "2020-01-01")) now_2025
         = Ok zero
      /\ calc_score [event_value (PyStr "0.001")]
           (<["tier" := PyStr "pro"]> (user_created "2020-01-01")) now_2025
         = Ok zero
      /\ calc_score [event_value (PyStr "0.001")]
           (<["tier" := PyStr "vip"]> (user_created "2020-01-01")) now_2025
         = Ok zero
      /\ flt zero zero = false).
Proof.
  split; [split; [|split; [|split; [|split]]]
         |split; [|split; [|split; [|split; [|split]]]]];
    vm_compute; reflexivity.
Qed.

(** ** divide *)

Lemma as_long_raises z e : Dec.as_long z = Raise e -> e = OverflowError.
Proof. unfold Dec.as_long. destruct (_ && _); [discriminate|]. now intros [= <-]. Qed.

Lemma digits_of_raises xs e :
  Dec.digits_of xs = Raise e -> e = ValueError \/ e = OverflowError.
Proof.
  induction xs as [|[z|] xs IH]; cbn [Dec.digits_of]; [discriminate| |].
  - destruct (Dec.as_long z) as [l|e0] eqn:L; cbn [bind].
    + destruct (_ && _); [|intros [= <-]; auto].
      destruct (Dec.digits_of xs); cbn [bind]; [discriminate|].
      intros [= <-]. auto.
    + intros [= <-]. right. eapply as_long_raises, L.
  - intros [= <-]. auto.
Qed.

(** What the constructor raises on a tuple or list: [ValueError] for
    a malformed one, [OverflowError] for an int beyond 64 bits,
    [InvalidOperation] for an exponent out of range. *)
Lemma of_sequence_raises xs e :
  Dec.of_sequence xs = Raise e ->
  e = ValueError \/ e = OverflowError \/ e = InvalidOperation.
Proof.
  destruct xs as [|sign [|coefficient [|exponent [|? ?]]]];
    cbn [Dec.of_sequence]; try (intros [= <-]; auto).
  destruct (Dec.sign_of sign) as [neg|e0] eqn:S; cbn [bind].
  2:{ intros [= <-]. destruct sign as [z| | |]; cbn [Dec.sign_of] in S;
        try (injection S as <-; auto).
      destruct (Dec.as_long z) as [l|e1] eqn:L; cbn [bind] in S.
      - destruct (l =? 0); [discriminate|]. destruct (l =? 1); [discriminate|].
        injection S as <-. auto.
      - injection S as <-. right. left. eapply as_long_raises, L. }
  destruct (Dec.kind_of exponent) as [k|e0] eqn:K; cbn [bind].
  2:{ intros [= <-]. destruct exponent as [z|s| |]; cbn [Dec.kind_of] in K;
        try (injection K as <-; auto).
      - destruct (Dec.as_long z) as [l|e1] eqn:L; cbn [bind] in K; [discriminate|].
        injection K as <-. right. left. eapply as_long_raises, L.
      - destruct (String.eqb s "F"); [discriminate|].
        destruct (String.eqb s "n"); [discriminate|].
        destruct (String.eqb s "N"); [discriminate|].
        injection K as <-. auto. }
  destruct (Dec.coefficient_of coefficient) as [ds|e0] eqn:C; cbn [bind].
  2:{ intros [= <-]. destruct coefficient as [| |ys|]; cbn [Dec.coefficient_of] in C;
        try (injection C as <-; auto).
      destruct (digits_of_raises _ _ C); auto. }
  destruct k as [|g|ex]; try discriminate.
  destruct (Dec.is_exact _ _); [discriminate|]. intros [= <-]. auto.
Qed.

(** What [Decimal(x)] raises is caught by the [except] clause of
    [divide], but for the [OverflowError] of a tuple or list. *)
Lemma Decimal_raises x e :
  Decimal x = Raise e -> caught e = true \/ e = OverflowError.
Proof.
  destruct x; cbn [Decimal]; try discriminate; try (intros [= <-]; auto).
  - unfold Dec.of_string. destruct (Dec.of_literal _); [discriminate|].
    intros [= <-]. auto.
  - intros H. destruct (of_sequence_raises _ _ H) as [-> |[-> | ->]]; auto.
Qed.

Lemma Decimal_raises_sequence x e :
  Decimal x = Raise e -> caught e = false -> exists xs, x = NSeq xs.
Proof.
  destruct x; cbn [Decimal]; try discriminate; try (intros [= <-]; discriminate);
    eauto.
  unfold Dec.of_string. destruct (Dec.of_literal _); [discriminate|].
  intros [= <-]. discriminate.
Qed.

(** A failed conversion: the exception is replaced by [ValueError]
    when the [except] clause catches it and escapes otherwise; the
    denominator is converted only when the numerator converts. *)
Lemma divide_conversion_fails numerator denominator e :
  Decimal numerator = Raise e
  \/ (exists num, Decimal numerator = Ok num /\ Decimal denominator = Raise e) ->
  divide numerator denominator = Raise (if caught e then ValueError else e).
Proof.
  unfold divide. intros [-> |(num & -> & ->)]; cbn [bind];
    destruct (caught e); reflexivity.
Qed.

Lemma divide_converted numerator denominator num den :
  Decimal numerator = Ok num -> Decimal denominator = Ok den ->
  divide numerator denominator
  = (let? z := Dec.eq_zero den in
     if z then Raise ZeroDivisionError
     else let? q := Dec.truediv num den in Dec.normalize q).
Proof. unfold divide. intros -> ->. reflexivity. Qed.

Lemma fix_raises d e : Dec.fix_ d = Raise e -> e = DecimalOverflow /\ is_dfin d = true.
Proof.
  destruct d as [s c ex| |]; cbn [Dec.fix_]; try discriminate.
  destruct (c =? 0); [discriminate|].
  destruct (Dec.Etop <? _); [intros [= <-]; auto|].
  destruct (ex <? _); [|discriminate].
  destruct (_ <? 0); destruct (Dec.prec <? _); destruct (Dec.Etop <? _);
    try discriminate; intros [= <-]; auto.
Qed.

Lemma fix_finite d q : Dec.fix_ d = Ok q -> is_dfin d = true -> is_dfin q = true.
Proof.
  destruct d as [s c ex| |]; try discriminate. cbn [Dec.fix_].
  destruct (c =? 0); [intros [= <-]; reflexivity|].
  destruct (Dec.Etop <? _); [discriminate|].
  destruct (ex <? _); [|intros [= <-]; reflexivity].
  destruct (_ <? 0); destruct (Dec.prec <? _); destruct (Dec.Etop <? _);
    try discriminate; intros [= <-]; reflexivity.
Qed.

Lemma normalize_raises d e :
  Dec.normalize d = Raise e ->
  (e = InvalidOperation /\ is_snan d = true)
  \/ (e = DecimalOverflow /\ is_dfin d = true).
Proof.
  destruct d as [s c ex|s|s [|] p]; cbn [Dec.normalize].
  - destruct (Dec.fix_ (Dec.DFin s c ex)) as [dup|e'] eqn:F; cbn [bind].
    + destruct dup as [s' c' e'| |]; try discriminate.
      destruct (c' =? 0); [discriminate|].
      destruct (Dec.strip_zeros _ _ _). discriminate.
    + intros [= <-]. right. apply fix_raises in F. tauto.
  - cbn [Dec.fix_ bind]. discriminate.
  - intros [= <-]. auto.
  - discriminate.
Qed.

(** Division of two finite decimals by a non-zero denominator: it
    returns a finite decimal or signals [Overflow]. *)
Lemma truediv_finite s c1 e1 t c2 e2 :
  c2 <> 0 ->
  match Dec.truediv (Dec.DFin s c1 e1) (Dec.DFin t c2 e2) with
  | Ok q => is_dfin q = true
  | Raise e => e = DecimalOverflow
  end.
Proof.
  intros H. cbn [Dec.truediv].
  destruct (Z.eqb_spec c2 0); [contradiction|].
  match goal with
  | |- context [if c1 =? 0 then Dec.fix_ ?a else ?b] =>
      assert (G : forall d, is_dfin d = true ->
                    match Dec.fix_ d with
                    | Ok q => is_dfin q = true
                    | Raise e => e = DecimalOverflow
                    end)
  end.
  { intros d Fd. destruct (Dec.fix_ d) eqn:E.
    - eapply fix_finite; eassumption.
    - apply fix_raises in E. tauto. }
  destruct (c1 =? 0); [apply G; reflexivity|].
  destruct (if 0 <=? _ then _ else _) as [coeff remainder].
  destruct (if remainder =? 0 then _ else _) as [coeff' ex'].
  apply G. reflexivity.
Qed.

(** After the conversions: what the comparison, the division and the
    normalization do. *)
Lemma divide_core num den :
  match (let? z := Dec.eq_zero den in
         if z then Raise ZeroDivisionError
         else let? q := Dec.truediv num den in Dec.normalize q) with
  | Ok r => Dec.eq_zero den = Ok false
            /\ exists q, Dec.truediv num den = Ok q /\ Dec.normalize q = Ok r
  | Raise e =>
      (e = ZeroDivisionError /\ Dec.eq_zero den = Ok true)
      \/ (Dec.eq_zero den <> Ok true /\
          ((e = InvalidOperation
            /\ (is_snan num || is_snan den || is_dinf num && is_dinf den
                = true))
           \/ (e = DecimalOverflow
               /\ is_dfin num = true /\ is_dfin den = true)))
  end
  /\ (Dec.eq_zero den <> Ok true ->
      is_snan num || is_snan den || is_dinf num && is_dinf den = true ->
      (let? z := Dec.eq_zero den in
       if z then Raise ZeroDivisionError
       else let? q := Dec.truediv num den in Dec.normalize q)
      = Raise InvalidOperation).
Proof.
  destruct den as [t c2 e2|t|t [|] p2]; cbn [Dec.eq_zero bind].
  - (* finite denominator *)
    destruct (Z.eqb_spec c2 0) as [Z0|Zn].
    { split; [left; auto|]. intros C. contradiction. }
    destruct num as [s c1 e1|s|s [|] p1].
    + pose proof (truediv_finite s c1 e1 t c2 e2 Zn) as T.
      destruct (Dec.truediv _ _) as [q|e] eqn:Eq; cbn [bind].
      * split; [|intros _; discriminate].
        destruct (Dec.normalize q) as [r|e] eqn:Nq.
        -- split; [reflexivity|]. eauto.
        -- right. split; [discriminate|].
           destruct (normalize_raises _ _ Nq) as [[_ S]|[-> _]].
           ++ destruct q as [| |? [|] ?]; discriminate.
           ++ right. auto.
      * subst e. split; [|intros _; discriminate]. right. split; [discriminate|].
        right. auto.
    + cbn. split; [|intros _; discriminate]. split; [reflexivity|]. eauto.
    + cbn. split; [|intros _ _; reflexivity]. right. split; [discriminate|]. left. auto.
    + cbn. split; [|intros _; discriminate]. split; [reflexivity|]. eauto.
  - (* infinite denominator *)
    destruct num as [s c1 e1|s|s [|] p1]; cbn.
    + split; [|intros _; discriminate]. split; [reflexivity|]. eauto.
    + split; [|intros _ _; reflexivity]. right. split; [discriminate|]. left. auto.
    + split; [|intros _ _; reflexivity]. right. split; [discriminate|]. left. auto.
    + split; [|intros _; discriminate]. split; [reflexivity|]. eauto.
  - (* signalling NaN denominator: [den == 0] raises *)
    split.
    + right. split; [discriminate|]. left. split; [reflexivity|].
      destruct num as [| |? [|] ?]; reflexivity.
    + intros _ _. reflexivity.
  - (* quiet NaN denominator *)
    destruct num as [s c1 e1|s|s [|] p1]; cbn.
    + split; [|intros _; discriminate]. split; [reflexivity|]. eauto.
    + split; [|intros _; discriminate]. split; [reflexivity|]. eauto.
    + split; [|intros _ _; reflexivity]. right. split; [discriminate|]. left. auto.
    + split; [|intros _; discriminate]. split; [reflexivity|]. eauto.
Qed.

(** Claim C9, as amended: [divide] raises [ValueError] exactly when a
    conversion to [Decimal] fails with an exception of the [except]
    clause, the numerator being converted first and the denominator
    only after it; a conversion fails with nothing else than
    [OverflowError] (an int beyond 64 bits in a tuple or list), which
    escapes as it is.  It raises [ZeroDivisionError] exactly when both
    convert and [den == 0] is true; otherwise, when it returns, the
    result is the normalized quotient of the converted values, and
    when it raises, it raises [InvalidOperation] (an operand is a
    signalling NaN or both are infinite, and in these cases it always
    does) or [decimal.Overflow] (only for two finite operands). *)
Theorem divide_outcomes (numerator denominator : number) :
  (divide numerator denominator = Raise ValueError
   <-> (exists e, Decimal numerator = Raise e /\ caught e = true)
       \/ (exists num e, Decimal numerator = Ok num
                         /\ Decimal denominator = Raise e /\ caught e = true))
  /\ (divide numerator denominator = Raise OverflowError
      <-> Decimal numerator = Raise OverflowError
          \/ (exists num, Decimal numerator = Ok num
                          /\ Decimal denominator = Raise OverflowError))
  /\ (forall e, Decimal numerator = Raise e \/ Decimal denominator = Raise e ->
                caught e = true \/ e = OverflowError)
  /\ ((exists e, divide numerator denominator = Raise e
                 /\ is_zero_division e = true)
      <-> exists num den,
            Decimal numerator = Ok num /\ Decimal denominator = Ok den
            /\ Dec.eq_zero den = Ok true)
  /\ (forall num den,
        Decimal numerator = Ok num -> Decimal denominator = Ok den ->
        Dec.eq_zero den <> Ok true ->
        match divide numerator denominator with
        | Ok r =>
            exists q, Dec.truediv num den = Ok q /\ Dec.normalize q = Ok r
        | Raise e =>
            (e = InvalidOperation
             /\ (is_snan num || is_snan den || is_dinf num && is_dinf den
                 = true))
            \/ (e = DecimalOverflow
                /\ is_dfin num = true /\ is_dfin den = true)
        end)
  /\ (forall num den,
        Decimal numerator = Ok num -> Decimal denominator = Ok den ->
        Dec.eq_zero den <> Ok true ->
        is_snan num || is_snan den || is_dinf num && is_dinf den = true ->
        divide numerator denominator = Raise InvalidOperation).
Proof.
  assert (Fails : forall e,
            Decimal numerator = Raise e
            \/ (exists num, Decimal numerator = Ok num
                            /\ Decimal denominator = Raise e) ->
            (caught e = true
             /\ divide numerator denominator = Raise ValueError)
            \/ (e = OverflowError
                /\ divide numerator denominator = Raise OverflowError)).
  { intros e H. rewrite (divide_conversion_fails _ _ _ H).
    assert (R : exists x, Decimal x = Raise e).
    { destruct H as [H|(? & _ & H)]; eauto. }
    destruct R as [x R].
    destruct (Decimal_raises _ _ R) as [-> | ->]; auto. }
  destruct (Decimal numerator) as [num|e1] eqn:En.
  2:{ destruct (Fails e1 (or_introl eq_refl)) as [[C D]|[-> D]]; rewrite D.
      - split; [split; eauto|].
        split.
        { split; [discriminate|].
          intros [[= ->]|(? & ? & _)]; discriminate. }
        split.
        { intros e [[= <-]|H]; [auto|]. eapply Decimal_raises, H. }
        split; [|split; intros; discriminate].
        split.
        + intros (e & [= <-] & Z). discriminate.
        + intros (? & ? & ? & _). discriminate.
      - split.
        { split; [discriminate|].
          intros [(e & [= <-] & ?)|(? & ? & ? & _)]; discriminate. }
        split; [split; auto|].
        split.
        { intros e [[= <-]|H]; [auto|]. eapply Decimal_raises, H. }
        split; [|split; intros; discriminate].
        split.
        + intros (e & [= <-] & Z). discriminate.
        + intros (? & ? & ? & _). discriminate. }
  destruct (Decimal denominator) as [den|e2] eqn:Ed.
  2:{ destruct (Fails e2 (or_intror (ex_intro _ num (conj eq_refl eq_refl))))
        as [[C D]|[-> D]]; rewrite D.
      - split; [split; [intros _; right; exists num, e2; auto|reflexivity]|].
        split.
        { split; [discriminate|].
          intros [?|(? & _ & [= ->])]; discriminate. }
        split.
        { intros e [?|[= <-]]; [discriminate|auto]. }
        split; [|split; intros; discriminate].
        split.
        + intros (e & [= <-] & Z). discriminate.
        + intros (? & ? & _ & ? & _). discriminate.
      - split.
        { split; [discriminate|].
          intros [(e & ? & _)|(? & e & _ & [= <-] & ?)]; discriminate. }
        split; [split; [intros _; right; exists num; auto|reflexivity]|].
        split.
        { intros e [?|[= <-]]; [discriminate|auto]. }
        split; [|split; intros; discriminate].
        split.
        + intros (e & [= <-] & Z). discriminate.
        + intros (? & ? & _ & ? & _). discriminate. }
  clear Fails.
  rewrite (divide_converted _ _ num den En Ed).
  destruct (divide_core num den) as [Core Inv].
  split.
  { split.
    - intros D. rewrite D in Core.
      destruct Core as [[? _]|[_ [[? _]|[? _]]]]; discriminate.
    - intros [(? & ? & _)|(? & ? & _ & ? & _)]; discriminate. }
  split.
  { split.
    - intros D. rewrite D in Core.
      destruct Core as [[? _]|[_ [[? _]|[? _]]]]; discriminate.
    - intros [?|(? & _ & ?)]; discriminate. }
  split.
  { intros e [?|?]; discriminate. }
  destruct (let? z := Dec.eq_zero den in _) as [r|e] eqn:D.
  - destruct Core as [Zf Q].
    split; [split|split].
    + intros (? & ? & _). discriminate.
    + intros (n' & d' & [= <-] & [= <-] & Z). congruence.
    + intros n' d' [= <-] [= <-] _. exact Q.
    + intros n' d' [= <-] [= <-] Nz S. specialize (Inv Nz S). discriminate.
  - split; [split|split].
    + intros (e' & [= <-] & Z).
      destruct Core as [[_ Zt]|[_ [[-> _]|[-> _]]]]; try discriminate.
      eauto.
    + intros (n' & d' & [= <-] & [= <-] & Z).
      destruct Core as [[-> _]|[Nz _]]; [eauto|contradiction].
    + intros n' d' [= <-] [= <-] Nz.
      destruct Core as [[_ Zt]|[_ C]]; [contradiction|exact C].
    + intros n' d' [= <-] [= <-] Nz S. exact (Inv Nz S).
Qed.

(** Claim C9: the amended statement for [divide(10, 4)], which returns
    2.5. *)
Lemma divide_outcomes_witness :
  exists q, Dec.truediv (Dec.DFin false 10 0) (Dec.DFin false 4 0) = Ok q
            /\ Dec.normalize q = Ok (Dec.DFin false 25 (-1)).
Proof.
  pose proof (divide_outcomes (NInt 10) (NInt 4)) as (_ & _ & _ & _ & C & _).
  specialize (C (Dec.DFin false 10 0) (Dec.DFin false 4 0) eq_refl eq_refl).
  apply C. discriminate.
Defined.

(** Claim C9 as stated fails twice.  Both infinities convert, the
    denominator is not zero, and the division raises
    [InvalidOperation]: [divide] neither returns nor raises one of the
    two exceptions of the claim.  And the conversion of the tuple
    [(0, (1,), 10**100)] fails with [OverflowError], which [divide]
    does not turn into [ValueError]. *)
Lemma divide_escaping_exceptions :
  (Decimal (NFloat (B64.Inf false)) = Ok (Dec.DInf false)
   /\ Dec.eq_zero (Dec.DInf false) = Ok false
   /\ divide (NFloat (B64.Inf false)) (NFloat (B64.Inf false))
      = Raise InvalidOperation)
  /\ (Decimal (NSeq [Dec.IInt 0; Dec.ISeq [Dec.EInt 1]; Dec.IInt (10 ^ 100)])
      = Raise OverflowError
      /\ divide (NSeq [Dec.IInt 0; Dec.ISeq [Dec.EInt 1]; Dec.IInt (10 ^ 100)])
                (NInt 1)
         = Raise OverflowError).
Proof. split; [split; [|split]|split]; reflexivity. Qed.

(** The cases of the unit tests. *)
Example divide_10_4 : divide (NInt 10) (NInt 4) = Ok (Dec.DFin false 25 (-1)).
Proof. vm_compute. reflexivity. Qed.

Example divide_1_0 : divide (NInt 1) (NInt 0) = Raise ZeroDivisionError.
Proof. reflexivity. Qed.

Example divide_a_3 : divide (NStr "a") (NInt 3) = Raise ValueError.
Proof. reflexivity. Qed.

Example divide_overflow :
  divide (NStr "1e999999") (NStr "1e-999999") = Raise DecimalOverflow.
Proof. vm_compute. reflexivity. Qed.

(** The exponent range of the constructor. *)
Example decimal_exponent_limits :
  Dec.of_string "1e999999999999999999"
  = Ok (Dec.DFin false 1 999999999999999999)
  /\ Dec.of_string "1e1000000000000000000" = Raise InvalidOperation
  /\ Dec.of_string "12e999999999999999998"
     = Ok (Dec.DFin false 12 999999999999999998)
  /\ Dec.of_string "12e999999999999999999" = Raise InvalidOperation
  /\ Dec.of_string "0.1e-1999999999999999996"
     = Ok (Dec.DFin false 1 (-1999999999999999997))
  /\ Dec.of_string "0.10e-1999999999999999996" = Raise InvalidOperation
  /\ divide (NStr "1e1000000000000000000") (NInt 1) = Raise ValueError.
Proof. repeat split; vm_compute; reflexivity. Qed.

(** Tuples and lists. *)
Example decimal_of_sequence :
  Decimal (NSeq [Dec.IInt 0; Dec.ISeq [Dec.EInt 1; Dec.EInt 2; Dec.EInt 3];
                 Dec.IInt (-2)])
  = Ok (Dec.DFin false 123 (-2))
  /\ Decimal (NSeq [Dec.IInt 1; Dec.ISeq []; Dec.IStr "F"]) = Ok (Dec.DInf true)
  /\ Decimal (NSeq [Dec.IInt 0; Dec.ISeq [Dec.EInt 0; Dec.EInt 7]; Dec.IStr "N"])
     = Ok (Dec.DNaN false true 7)
  /\ Decimal (NSeq [Dec.IInt 1; Dec.IInt 2]) = Raise ValueError
  /\ Decimal (NSeq [Dec.IInt 2; Dec.ISeq [Dec.EInt 1]; Dec.IInt (10 ^ 100)])
     = Raise ValueError
  /\ Decimal (NSeq [Dec.IInt 0; Dec.ISeq [Dec.EOther]; Dec.IInt (10 ^ 100)])
     = Raise OverflowError
  /\ Decimal (NSeq [Dec.IInt 0; Dec.ISeq [Dec.EInt 1]; Dec.IInt (10 ^ 18)])
     = Raise InvalidOperation
  /\ divide (NSeq [Dec.IInt 0; Dec.ISeq [Dec.EInt 0]; Dec.IInt 0]) (NInt 1)
     = Ok (Dec.DFin false 0 0)
  /\ divide (NInt 1) (NSeq [Dec.IInt 0; Dec.ISeq [Dec.EInt 0]; Dec.IInt 0])
     = Raise ZeroDivisionError.
Proof. repeat split; vm_compute; reflexivity. Qed.

(** * Further properties *)

(** ** Weights *)

Lemma clamp_weight_max w : clamp_weight w = Z.max 0 w.
Proof.
  unfold clamp_weight.
  destruct (Z.ltb_spec w 0).
  - change (0 =? - 0) with true. cbv iota. lia.
  - destruct (Z.eqb_spec w (- 0)); lia.
Qed.

(** The second test of lines 36-39, [w == -0], changes nothing. *)
Lemma clamp_weight_first_test w : clamp_weight w = if w <? 0 then 0 else w.
Proof. rewrite clamp_weight_max. destruct (Z.ltb_spec w 0); lia. Qed.

(** The weight of an event (lines 30-39) never raises and is never
    negative: a missing key counts as 1, a weight [int] rejects counts
    as 1, and every other weight is [int(w)] clamped below at 0, the
    [w == -0] test of line 38 changing nothing.  Kind by kind: [None]
    counts as 1, a bool as 1 or 0, an int as itself or 0, a float as
    its truncation or 0, and as 1 when it is NaN or infinite; a string
    counts as 1 unless it is an integer literal; any other object goes
    through its own [__int__]. *)
Theorem parse_weight_chain (e : dict) :
  parse_weight e =
  Ok match e !! "weight" with
     | None => 1
     | Some w =>
         match py_int w with
         | Ok z => Z.max 0 z
         | Raise _ => 1
         end
     end
  /\ parse_weight e =
     Ok match e !! "weight" with
        | None | Some PyNone => 1
        | Some (PyBool b) => if b then 1 else 0
        | Some (PyInt z) => Z.max 0 z
        | Some (PyFloat (Fin s u)) => Z.max 0 (signed s (u / one))
        | Some (PyFloat _) => 1
        | Some (PyStr s) =>
            match int_of_string s with
            | Ok z => Z.max 0 z
            | Raise _ => 1
            end
        | Some (PyObj o) =>
            match on_int o with
            | Ok z => Z.max 0 z
            | Raise _ => 1
            end
        end
  /\ (exists w, parse_weight e = Ok w /\ 0 <= w)
  /\ (forall w, clamp_weight w = if w <? 0 then 0 else w).
Proof.
  assert (Chain : parse_weight e =
    Ok match e !! "weight" with
       | None => 1
       | Some w =>
           match py_int w with
           | Ok z => Z.max 0 z
           | Raise _ => 1
           end
       end).
  { unfold parse_weight, int_weight.
    destruct (e !! "weight") as [w|]; cbn [default from_option id].
    - destruct (py_int w) as [z|]; cbn [try_except bind].
      + now rewrite clamp_weight_max.
      + reflexivity.
    - reflexivity. }
  split; [exact Chain|]. split; [|split].
  - rewrite Chain. f_equal.
    destruct (e !! "weight") as [[|b|z|[|s|s u]|s|o]|]; cbn [py_int to_int];
      try reflexivity.
    destruct b; reflexivity.
  - rewrite Chain. eexists. split; [reflexivity|].
    destruct (e !! "weight") as [w|]; [|lia].
    destruct (py_int w); lia.
  - exact clamp_weight_first_test.
Qed.

(** Weights given as text. *)
Example text_weights :
  map (fun w => parse_weight (event_of (PyInt 1) (PyStr w)))
    ["3"; " 3 "; "-3"; "2.5"; "1e2"; "three"; ""]
  = [Ok 3; Ok 3; Ok 0; Ok 1; Ok 1; Ok 1; Ok 1]
  /\ parse_weight (event_of (PyInt 1) (PyStr (String "028" "3"))) = Ok 1.
Proof. split; vm_compute; reflexivity. Qed.

(** ** Events that do not count *)

Lemma accumulate_app a : forall total b,
  accumulate total (a ++ b)
  = let? mid := accumulate total a in accumulate mid b.
Proof.
  induction a as [|e a IH]; intros total b; cbn [app accumulate bind];
    [reflexivity|].
  destruct (add_event total e); cbn [bind]; [apply IH|reflexivity].
Qed.

Lemma add_event_zero_product total e v w s :
  reachable total ->
  parse_value e = Ok v -> parse_weight e = Ok w ->
  fmul_int v w = Ok (Fin s 0) ->
  add_event total e = Ok total.
Proof.
  intros [V N] Pv Pw M. unfold add_event. rewrite Pv, Pw. cbn [bind].
  rewrite M. cbn [bind]. now rewrite fadd_zero_r.
Qed.

Lemma accumulate_skip before e after :
  (forall total, reachable total -> add_event total e = Ok total) ->
  accumulate zero (before ++ e :: after) = accumulate zero (before ++ after).
Proof.
  intros H. rewrite !accumulate_app.
  destruct (accumulate zero before) as [mid|] eqn:A; cbn [bind accumulate];
    [|reflexivity].
  rewrite H; [reflexivity|].
  exact (accumulate_reachable _ _ _ reachable_zero A).
Qed.

Lemma calc_score_same_total ev1 ev2 user now :
  accumulate zero ev1 = accumulate zero ev2 ->
  calc_score ev1 user now = calc_score ev2 user now.
Proof. intros H. unfold calc_score. now rewrite H. Qed.

(** An event whose value parses to a zero (for instance a missing or
    unparseable value, which falls back to 0.0) and whose weight fits a
    float can be removed from the list, wherever it stands, without
    changing what [calc_score] returns or raises. *)
Theorem zero_value_event_is_neutral
    (before after : list dict) (e : dict) (user : dict) (now : datetime)
    (s : bool) (w : Z) (y : float) :
  parse_value e = Ok (Fin s 0) ->
  parse_weight e = Ok w ->
  of_int w = Ok y ->
  calc_score (before ++ e :: after) user now
  = calc_score (before ++ after) user now.
Proof.
  intros Pv Pw Oy. apply calc_score_same_total, accumulate_skip.
  intros total R.
  assert (F : exists t u, y = Fin t u).
  { unfold of_int in Oy. destruct (_ <? top); [|discriminate].
    injection Oy as <-. eauto. }
  destruct F as (t & u & ->).
  eapply add_event_zero_product; try eassumption.
  unfold fmul_int. rewrite Oy. cbn [bind]. now rewrite fmul_zero_l.
Qed.

Lemma zero_value_event_is_neutral_witness :
  calc_score ([event_of (PyStr "2") (PyInt 1)]
              ++ event_of (PyStr "bad") (PyInt 3) :: [])
    (user_of "free" "2020-01-01") now_2025
  = calc_score ([event_of (PyStr "2") (PyInt 1)] ++ [])
      (user_of "free" "2020-01-01") now_2025.
Proof.
  apply (zero_value_event_is_neutral _ _ _ _ _ false 3 (Fin false (3 * one)));
    reflexivity.
Defined.

(** An event whose weight parses to zero or less and whose value is
    finite can be removed from the list, wherever it stands, without
    changing what [calc_score] returns or raises. *)
Theorem nonpositive_weight_event_is_neutral
    (before after : list dict) (e : dict) (user : dict) (now : datetime)
    (w : Z) (v : float) :
  int_weight e = Ok w -> w <= 0 ->
  parse_value e = Ok v -> is_finite v = true ->
  calc_score (before ++ e :: after) user now
  = calc_score (before ++ after) user now.
Proof.
  intros W Hw Pv F. apply calc_score_same_total, accumulate_skip.
  intros total R.
  assert (Pw : parse_weight e = Ok 0).
  { unfold parse_weight. rewrite W. cbn [bind]. rewrite clamp_weight_max.
    f_equal. lia. }
  destruct v as [| |s u]; try discriminate.
  eapply add_event_zero_product; try eassumption.
  unfold fmul_int. change (of_int 0) with (Ok (Fin false 0)). cbn [bind].
  now rewrite fmul_zero_r.
Qed.

Lemma nonpositive_weight_event_is_neutral_witness :
  calc_score ([event_of (PyStr "2") (PyInt 1)]
              ++ event_of (PyStr "10") (PyInt (-5)) :: [])
    (user_of "pro" "2020-01-01") now_2025
  = calc_score ([event_of (PyStr "2") (PyInt 1)] ++ [])
      (user_of "pro" "2020-01-01") now_2025.
Proof.
  apply (nonpositive_weight_event_is_neutral _ _ _ _ _ (-5)
           (of_decimal false 10 0)); [reflexivity|lia|reflexivity|reflexivity].
Defined.

(** A float weight is truncated toward zero; a negative float weight
    counts as 0; NaN and both infinities, which [int] rejects, count
    as 1. *)
Theorem float_weight_truncates (e : dict) (f : float) :
  valid f ->
  e !! "weight" = Some (PyFloat f) ->
  parse_weight e =
  Ok match f with
     | Fin false u => u / one
     | Fin true _ => 0
     | Inf _ | NaN => 1
     end.
Proof.
  intros V L. unfold parse_weight, int_weight. rewrite L.
  cbn [default from_option id py_int].
  destruct f as [|s|[|] u]; cbn [to_int try_except bind signed];
    try reflexivity; rewrite clamp_weight_max; f_equal;
    destruct V as [[Hu _] _]; pose proof one_pos;
    pose proof (Z.div_pos u one Hu ltac:(lia)); lia.
Qed.

Lemma float_weight_truncates_witness :
  parse_weight (event_of (PyInt 1) (PyFloat float_2_675))
  = Ok (magnitude float_2_675 / one).
Proof.
  apply (float_weight_truncates
           (event_of (PyInt 1) (PyFloat float_2_675)) float_2_675).
  - apply representableb_spec. vm_compute. reflexivity.
  - reflexivity.
Defined.

(** ** Weights that overflow *)

(** [float(z)] overflows exactly from [2^1024 - 2^970] on. *)
Lemma of_int_limit z :
  of_int z = Raise OverflowError <-> float_int_limit <= Z.abs z.
Proof.
  pose proof one_pos as P1. unfold of_int.
  assert (T : round_units (float_int_limit * one) 1 = top)
    by (vm_compute; reflexivity).
  assert (B : round_units ((float_int_limit - 1) * one) 1 < top)
    by (apply Z.ltb_lt; vm_compute; reflexivity).
  destruct (Z.ltb_spec (round_units (Z.abs z * one) 1) top) as [L|L].
  - split; [discriminate|]. intros H. exfalso.
    assert (round_units (float_int_limit * one) 1
            <= round_units (Z.abs z * one) 1).
    { apply round_units_mono; [|lia|lia|].
      - apply Z.mul_nonneg_nonneg; [|lia]. apply Z.leb_le. vm_compute. reflexivity.
      - rewrite !Z.mul_1_r. apply Z.mul_le_mono_nonneg_r; lia. }
    lia.
  - split; [|reflexivity]. intros _.
    destruct (Z_lt_le_dec (Z.abs z) float_int_limit) as [C|C]; [|exact C].
    exfalso.
    assert (round_units (Z.abs z * one) 1
            <= round_units ((float_int_limit - 1) * one) 1).
    { apply round_units_mono; [|lia|lia|].
      - apply Z.mul_nonneg_nonneg; lia.
      - rewrite !Z.mul_1_r. apply Z.mul_le_mono_nonneg_r; lia. }
    lia.
Qed.

Lemma add_event_raises total e w :
  parse_weight e = Ok w -> of_int w = Raise OverflowError ->
  add_event total e = Raise OverflowError.
Proof.
  intros W O. unfold add_event, fmul_int.
  destruct (parse_value_returns e) as [v ->]. rewrite W. cbn [bind].
  rewrite O. reflexivity.
Qed.

Lemma accumulate_overflows events : forall total e w,
  In e events -> parse_weight e = Ok w -> of_int w = Raise OverflowError ->
  accumulate total events = Raise OverflowError.
Proof.
  induction events as [|e0 rest IH]; intros total e w I W O; [destruct I|].
  cbn [accumulate].
  destruct (add_event total e0) as [t|err] eqn:A; cbn [bind].
  - destruct I as [->|I].
    + rewrite (add_event_raises total e w W O) in A. discriminate.
    + eapply IH; eassumption.
  - f_equal.
    destruct (accumulate_raises [e0] total err) as [-> _]; [|reflexivity].
    cbn [accumulate]. rewrite A. reflexivity.
Qed.

(** [calc_score] raises nothing but [OverflowError], and raises it
    exactly when the weight of some event is [2^1024 - 2^970] or
    more, the first int that does not convert to a float. *)
Theorem calc_score_raises_iff
    (events : list dict) (user : dict) (now : datetime) :
  (forall err, calc_score events user now = Raise err -> err = OverflowError)
  /\ (calc_score events user now = Raise OverflowError
      <-> exists e w, In e events /\ parse_weight e = Ok w
                      /\ float_int_limit <= w).
Proof.
  split.
  - intros err H. now destruct (calc_score_raises _ _ _ _ H).
  - split.
    + intros H. destruct (calc_score_raises _ _ _ _ H) as (_ & e & w & I & W & O).
      exists e, w. split; [exact I|]. split; [exact W|].
      apply of_int_limit in O.
      destruct (parse_weight_returns e) as (w' & W' & Hw).
      rewrite W in W'. injection W' as <-. lia.
    + intros (e & w & I & W & L).
      unfold calc_score.
      rewrite (accumulate_overflows events zero e w I W); [reflexivity|].
      apply of_int_limit.
      assert (0 <= float_int_limit) by (apply Z.leb_le; vm_compute; reflexivity).
      lia.
Qed.

Lemma calc_score_raises_iff_witness :
  calc_score [event_of (PyInt 1) (PyInt float_int_limit)]
    (user_of "free" "2020-01-01") now_2025
  = Raise OverflowError.
Proof.
  destruct (calc_score_raises_iff
              [event_of (PyInt 1) (PyInt float_int_limit)]
              (user_of "free" "2020-01-01") now_2025) as [_ [_ H]].
  apply H. exists (event_of (PyInt 1) (PyInt float_int_limit)), float_int_limit.
  split; [now left|]. split; [vm_compute; reflexivity|lia].
Defined.

(** ** Thresholds of the loyalty bonus *)

Lemma loyalty_bonus_naive user now created :
  valid_datetime now -> dt_aware now = false ->
  strptime (default (PyStr "") (user !! "created_at")) = Ok created ->
  loyalty_bonus user now
  = Ok (fmul (Fin false
                (clamp_years (Z.quot (toordinal now - toordinal created) 365)
                 * one))
          lit_0_005).
Proof.
  intros Vn An P. unfold loyalty_bonus. rewrite P. cbn [bind].
  destruct (strptime_shape _ _ P) as (Vc & Ac & Ch & Cm & Cs & Cu).
  rewrite sub_days_naive by assumption. cbn [bind].
  pose proof (toordinal_range _ Vn). pose proof (toordinal_range _ Vc).
  destruct (int_truediv_365 (toordinal now - toordinal created))
    as (q & Eq & Et); [lia|].
  rewrite Eq. cbn [bind]. rewrite Et. cbn [bind].
  pose proof (clamp_years_range
                (Z.quot (toordinal now - toordinal created) 365)) as R.
  rewrite of_int_small by (change (pow2 53) with 9007199254740992; lia).
  cbn [bind try_except].
  replace (clamp_years _ <? 0) with false by (symmetry; apply Z.ltb_ge; lia).
  rewrite Z.abs_eq by lia. reflexivity.
Qed.

Lemma clamp_years_quot days k :
  0 <= k <= 6 -> 365 * k <= days < 365 * (k + 1) ->
  clamp_years (Z.quot days 365) = k.
Proof.
  intros Hk Hd. rewrite Z.quot_div_nonneg by lia.
  assert (E : days / 365 = k) by (symmetry; apply Z.div_unique with (days - 365 * k); lia).
  rewrite E. unfold clamp_years.
  destruct (Z.leb_spec 7 k); [lia|]. destruct (Z.leb_spec k (-1)); lia.
Qed.

Lemma clamp_years_young days : days < 365 -> clamp_years (Z.quot days 365) = 0.
Proof.
  intros H.
  assert (Q : Z.quot days 365 <= 0).
  { destruct (Z_le_gt_dec 0 days).
    - rewrite Z.quot_small; lia.
    - pose proof (Z.quot_opp_l (- days) 365 ltac:(lia)) as O.
      rewrite Z.opp_involutive in O. rewrite O.
      pose proof (Z.quot_pos (- days) 365 ltac:(lia) ltac:(lia)). lia. }
  unfold clamp_years.
  destruct (Z.leb_spec 7 (Z.quot days 365)); [lia|].
  destruct (Z.leb_spec (Z.quot days 365) (-1)); lia.
Qed.

Lemma clamp_years_old days : 2555 <= days -> clamp_years (Z.quot days 365) = 6.
Proof.
  intros H. rewrite Z.quot_div_nonneg by lia.
  assert (7 <= days / 365) by (apply Z.div_le_lower_bound; lia).
  unfold clamp_years.
  destruct (Z.leb_spec 7 (days / 365)); [|lia]. reflexivity.
Qed.

(** With a naive reference time and a [created_at] that parses, the
    bonus depends on the number of days between the two dates only:
    0.0 below 365 days (and for dates in the future), [k * 0.005] from
    [365 * k] days up to the day before [365 * (k + 1)], and 0.03 from
    2555 days on. *)
Theorem loyalty_bonus_thresholds
    (user : dict) (now created : datetime) (k : Z) :
  valid_datetime now -> dt_aware now = false ->
  strptime (default (PyStr "") (user !! "created_at")) = Ok created ->
  let days := toordinal now - toordinal created in
  (days < 365 -> loyalty_bonus user now = Ok zero)
  /\ (0 <= k <= 6 -> 365 * k <= days < 365 * (k + 1) ->
      loyalty_bonus user now = Ok (fmul (Fin false (k * one)) lit_0_005))
  /\ (2555 <= days -> loyalty_bonus user now = Ok float_0_03).
Proof.
  intros Vn An P days.
  rewrite (loyalty_bonus_naive user now created Vn An P). fold days.
  split; [|split].
  - intros H. rewrite clamp_years_young by assumption. reflexivity.
  - intros Hk Hd. rewrite (clamp_years_quot days k) by assumption. reflexivity.
  - intros H. rewrite clamp_years_old by assumption.
    vm_compute. reflexivity.
Qed.

Lemma loyalty_bonus_thresholds_witness :
  loyalty_bonus (user_created "2020-01-01") now_2025
  = Ok (fmul (Fin false (5 * one)) lit_0_005).
Proof.
  destruct (loyalty_bonus_thresholds (user_created "2020-01-01") now_2025
              {| dt_year := 2020; dt_month := 1; dt_day := 1;
                 dt_hour := 0; dt_minute := 0; dt_second := 0;
                 dt_microsecond := 0; dt_aware := false |} 5
              valid_now_2025 eq_refl eq_refl) as (_ & H & _).
  apply H; [lia|]. vm_compute. split; [discriminate|reflexivity].
Defined.

(** ** Only the date of [now] matters *)

(** Two reference times on the same calendar day, both naive or both
    aware, give the same result: the time of day is not used. *)
Theorem time_of_day_is_irrelevant
    (events : list dict) (user : dict) (now1 now2 : datetime) :
  valid_datetime now1 -> valid_datetime now2 ->
  dt_aware now1 = dt_aware now2 ->
  dt_year now1 = dt_year now2 -> dt_month now1 = dt_month now2 ->
  dt_day now1 = dt_day now2 ->
  calc_score events user now1 = calc_score events user now2.
Proof.
  intros V1 V2 A Y M D.
  assert (B : loyalty_bonus user now1 = loyalty_bonus user now2).
  { unfold loyalty_bonus.
    destruct (strptime _) as [created|] eqn:P; cbn [bind]; [|reflexivity].
    destruct (strptime_shape _ _ P) as (Vc & Ac & Ch & Cm & Cs & Cu).
    destruct (dt_aware now1) eqn:A1.
    - rewrite !sub_days_aware by congruence. reflexivity.
    - rewrite !sub_days_naive by congruence.
      unfold toordinal. rewrite Y, M, D. reflexivity. }
  unfold calc_score. rewrite B. reflexivity.
Qed.

Lemma time_of_day_is_irrelevant_witness :
  calc_score [event_of (PyStr "1.5") (PyStr "2")]
    (user_of "pro" "2020-01-01") now_2025
  = calc_score [event_of (PyStr "1.5") (PyStr "2")]
      (user_of "pro" "2020-01-01")
      {| dt_year := 2025; dt_month := 1; dt_day := 1;
         dt_hour := 23; dt_minute := 59; dt_second := 59;
         dt_microsecond := 999999; dt_aware := false |}.
Proof.
  apply time_of_day_is_irrelevant; try reflexivity.
  - exact valid_now_2025.
  - unfold valid_datetime. vm_compute.
    repeat split; try discriminate.
Defined.

(** ** The values of the loyalty bonus *)

(** The loyalty bonus never raises and takes one of seven values:
    [k * 0.005] for a whole number of years [k] from 0 to 6; it lies
    between 0.0 and 0.03. *)
Theorem loyalty_bonus_values (user : dict) (now : datetime) :
  exists k bonus,
    0 <= k <= 6
    /\ loyalty_bonus user now = Ok bonus
    /\ bonus = fmul (Fin false (k * one)) lit_0_005
    /\ fle zero bonus = true /\ fle bonus float_0_03 = true.
Proof.
  assert (G : forall k, 0 <= k <= 6 ->
            fle zero (fmul (Fin false (k * one)) lit_0_005) = true
            /\ fle (fmul (Fin false (k * one)) lit_0_005) float_0_03 = true).
  { intros k H.
    assert (C : k = 0 \/ k = 1 \/ k = 2 \/ k = 3 \/ k = 4 \/ k = 5 \/ k = 6) by lia.
    destruct C as [-> | [-> | [-> | [-> | [-> | [-> | ->]]]]]];
      split; vm_compute; reflexivity. }
  assert (Z0 : exists k bonus,
            0 <= k <= 6
            /\ Ok (fadd zero zero) = Ok bonus
            /\ bonus = fmul (Fin false (k * one)) lit_0_005
            /\ fle zero bonus = true /\ fle bonus float_0_03 = true).
  { exists 0, zero. split; [lia|]. split; [reflexivity|].
    split; [reflexivity|]. split; reflexivity. }
  unfold loyalty_bonus.
  destruct (strptime _) as [created|]; cbn [bind try_except]; [|exact Z0].
  destruct (sub_days now created) as [days|]; cbn [bind try_except]; [|exact Z0].
  destruct (int_truediv days 365) as [q|]; cbn [bind try_except]; [|exact Z0].
  destruct (to_int q) as [years|]; cbn [bind try_except]; [|exact Z0].
  pose proof (clamp_years_range years) as R.
  rewrite of_int_small by (change (pow2 53) with 9007199254740992; lia).
  cbn [bind try_except].
  replace (clamp_years years <? 0) with false by (symmetry; apply Z.ltb_ge; lia).
  rewrite Z.abs_eq by lia.
  exists (clamp_years years), (fmul (Fin false (clamp_years years * one)) lit_0_005).
  split; [exact R|]. split; [reflexivity|]. split; [reflexivity|].
  exact (G _ R).
Qed.

(** ** A total that is not finite *)

(** When the accumulated total is infinite or NaN, the bonus step
    ([total - total * bonus]) makes it NaN and [calc_score] returns
    NaN, for every user and reference time. *)
Theorem non_finite_total_gives_nan
    (events : list dict) (user : dict) (now : datetime) (total : float) :
  accumulate zero events = Ok total ->
  is_finite total = false ->
  calc_score events user now = Ok NaN.
Proof.
  intros A F. unfold calc_score. rewrite A. cbn [bind].
  destruct (loyalty_bonus_shape user now) as (vb & -> & _). cbn [bind].
  rewrite apply_bonus_not_finite by exact F.
  reflexivity.
Qed.

Lemma non_finite_total_gives_nan_witness :
  calc_score [event_of (PyStr "inf") (PyInt 1)]
    (user_of "vip" "2020-01-01") now_2025 = Ok NaN.
Proof.
  apply (non_finite_total_gives_nan _ _ _ (Inf false)); reflexivity.
Defined.

(** ** Tiers other than "vip" and "pro" *)

Lemma fmul_lit_1_0 x : valid x -> fmul x lit_1_0 = x.
Proof.
  destruct x as [|s|s u]; intros V.
  - reflexivity.
  - rewrite lit_1_0_eq. cbn [fmul].
    destruct (Z.eqb_spec one 0) as [E|_];
      [pose proof one_pos; lia|]. now rewrite xorb_false_r.
  - now apply fmul_one.
Qed.

Lemma tier_multiplier_other user :
  let tier := default PyNone (user !! "tier") in
  tier <> PyStr "vip" -> tier <> PyStr "pro" ->
  tier_multiplier user = lit_1_0.
Proof.
  intros tier Nv Np. unfold tier_multiplier. fold tier.
  destruct tier as [| | | |s|]; try reflexivity. cbn [tier_is].
  destruct (String.eqb_spec s "vip") as [->|_]; [contradiction|].
  destruct (String.eqb_spec s "pro") as [->|_]; [contradiction|].
  reflexivity.
Qed.

(** For a tier other than "vip" and "pro" (a missing tier, [None],
    "free", any other value) the multiplier 1.0 changes nothing: the
    score is the bonus-adjusted total rounded once to two decimals. *)
Theorem other_tiers_score_unscaled
    (events : list dict) (user : dict) (now : datetime) :
  let tier := default PyNone (user !! "tier") in
  tier <> PyStr "vip" -> tier <> PyStr "pro" ->
  calc_score events user now =
  (let? total := accumulate zero events in
   let? bonus := loyalty_bonus user now in
   round2 (apply_bonus total bonus)).
Proof.
  intros tier Nv Np. unfold calc_score.
  rewrite (tier_multiplier_other user Nv Np).
  destruct (accumulate zero events) as [total|]; cbn [bind]; [|reflexivity].
  destruct (loyalty_bonus user now) as [bonus|]; cbn [bind]; [|reflexivity].
  assert (V : valid (apply_bonus total bonus)) by apply fadd_valid.
  rewrite (fmul_lit_1_0 _ V).
  destruct (round2_idempotent _ V) as (y & E & E').
  rewrite E. cbn [bind]. exact E'.
Qed.

Lemma other_tiers_score_unscaled_witness :
  calc_score [event_of (PyStr "2") (PyInt 1)]
    (user_of "gold" "2020-01-01") now_2025 =
  (let? total := accumulate zero [event_of (PyStr "2") (PyInt 1)] in
   let? bonus := loyalty_bonus (user_of "gold" "2020-01-01") now_2025 in
   round2 (apply_bonus total bonus)).
Proof.
  apply other_tiers_score_unscaled; discriminate.
Defined.

(** ** The loyalty bonus lowers a non-negative score *)

Lemma tier_score_mono_total u1 u2 m :
  0 <= u1 <= u2 -> 0 <= m ->
  exists a b, tier_score (Fin false u1) (Fin false m) = Ok a
              /\ tier_score (Fin false u2) (Fin false m) = Ok b
              /\ fle a b = true.
Proof.
  intros Hu Hm. pose proof one_pos. unfold tier_score. cbn [fmul xorb].
  rewrite !Z.abs_eq by nia.
  destruct (round2_nonneg_mono
              (pack false (round_units (u1 * m) one))
              (pack false (round_units (u2 * m) one)))
    as (a & b & Ea & Eb & Na & Nb & L).
  { apply nonneg_pack; nia. }
  { apply nonneg_pack; nia. }
  { apply fle_pack. assert (u1 * m <= u2 * m) by nia.
    apply round_units_mono; nia. }
  rewrite Ea, Eb. cbn [bind].
  destruct (round2_nonneg_mono a b Na Nb L) as (a' & b' & Ea' & Eb' & _ & _ & L').
  eauto.
Qed.

Lemma loyalty_bonus_without_date user now :
  loyalty_bonus (delete "created_at" user) now = Ok zero.
Proof.
  unfold loyalty_bonus. rewrite lookup_delete_eq. reflexivity.
Qed.

Lemma tier_multiplier_without_date user :
  tier_multiplier (delete "created_at" user) = tier_multiplier user.
Proof.
  unfold tier_multiplier. now rewrite lookup_delete_ne.
Qed.

(** The loyalty "bonus" is subtracted: for a finite non-negative
    total, the score of a user is at most the score of the same user
    without a [created_at] date. *)
Theorem loyalty_bonus_lowers_score
    (events : list dict) (user : dict) (now : datetime) (total : float) :
  accumulate zero events = Ok total ->
  is_finite total = true ->
  fle zero total = true ->
  exists with_date without_date,
    calc_score events user now = Ok with_date
    /\ calc_score events (delete "created_at" user) now = Ok without_date
    /\ fle with_date without_date = true.
Proof.
  intros A F L.
  pose proof (accumulate_reachable _ _ _ reachable_zero A) as R.
  destruct total as [| |s u]; try discriminate.
  assert (s = false) as ->.
  { destruct s; [|reflexivity]. exfalso. destruct R as [[[Hu _] _] N].
    unfold zero in L. cbn [fle signed] in L. apply Z.leb_le in L.
    assert (u = 0) by lia. subst u. now apply N. }
  pose proof R as [[Ru Mu] _]. 
  destruct (loyalty_bonus_shape user now) as (vb & B & Rb & Hb).
  destruct (tier_multiplier_shape user) as (m & M & Rm & Hm & _).
  pose proof one_pos as P1.
  destruct (apply_bonus_finite false u vb (conj Ru Mu)) as (s' & u' & E & Ru' & Le & S).
  { destruct Rb as [[? _] _]. lia. }
  rewrite (S eq_refl) in E.
  destruct (tier_score_mono_total u' u m) as (a & b & Ea & Eb & Lab).
  { destruct Ru' as [[? _] _]. lia. }
  { lia. }
  exists a, b. split; [|split; [|exact Lab]].
  - unfold calc_score. rewrite A. cbn [bind]. rewrite B. cbn [bind].
    rewrite E, M. exact Ea.
  - unfold calc_score. rewrite A. cbn [bind].
    rewrite loyalty_bonus_without_date. cbn [bind].
    rewrite (apply_zero_bonus _ R). cbn [is_inf].
    rewrite tier_multiplier_without_date, M. exact Eb.
Qed.

Lemma loyalty_bonus_lowers_score_witness :
  exists with_date without_date,
    calc_score [event_of (PyStr "100") (PyStr "1")]
      (user_of "vip" "2018-01-01") now_2025 = Ok with_date
    /\ calc_score [event_of (PyStr "100") (PyStr "1")]
         (delete "created_at" (user_of "vip" "2018-01-01")) now_2025
       = Ok without_date
    /\ fle with_date without_date = true.
Proof.
  apply (loyalty_bonus_lowers_score _ _ _ (of_decimal false 100 0));
    vm_compute; reflexivity.
Defined.

(** ** The shape of the score *)

(** A finite score is the double nearest to a whole number of
    hundredths. *)
Theorem score_is_whole_hundredths
    (events : list dict) (user : dict) (now : datetime) (r : float) :
  calc_score events user now = Ok r ->
  match r with
  | Fin _ u => exists c, 0 <= c /\ u = of_cents c
  | _ => True
  end.
Proof.
  unfold calc_score.
  destruct (accumulate zero events) as [total|]; cbn [bind]; [|discriminate].
  destruct (loyalty_bonus user now) as [bonus|]; cbn [bind]; [|discriminate].
  set (x := fmul (apply_bonus total bonus) (tier_multiplier user)).
  assert (V : valid x) by apply fmul_valid. clearbody x.
  destruct (round2_idempotent x V) as (y & E & E'). rewrite E. cbn [bind].
  rewrite E'. intros [= <-].
  destruct x as [|s|s u].
  - injection E as <-. exact I.
  - injection E as <-. exact I.
  - destruct (round2_finite s u V) as [F _]. rewrite F in E. injection E as <-.
    exists (rne (u * 100) one). split; [|apply round2_units_eq].
    destruct V as [[Hu _] _]. apply rne_nonneg; [lia|exact one_pos].
Qed.

Lemma score_is_whole_hundredths_witness :
  exists c, 0 <= c /\ magnitude (of_decimal false 322 (-2)) = of_cents c.
Proof.
  exact (score_is_whole_hundredths [event_of (PyStr "1.5") (PyStr "2")]
           (user_of "pro" "2020-01-01") now_2025 _
           ltac:(vm_compute; reflexivity)).
Defined.

(** ** Non-negative values *)

Lemma fadd_nonneg x y : nonneg_ext x -> nonneg_ext y -> nonneg_ext (fadd x y).
Proof.
  destruct x as [|[|]|[|] a], y as [|[|]|[|] b]; cbn [nonneg_ext];
    try contradiction; intros Rx Ry; cbn [fadd Bool.eqb nonneg_ext]; try exact I.
  destruct Rx as [[Ha _] _], Ry as [[Hb _] _]. cbn [signed andb].
  destruct (Z.eqb_spec (a + b) 0).
  - apply (valid_zero false).
  - replace (a + b <? 0) with false by (symmetry; apply Z.ltb_ge; lia).
    apply nonneg_pack; lia.
Qed.

Lemma add_event_nonneg total e u r :
  nonneg_ext total -> parse_value e = Ok (Fin false u) ->
  add_event total e = Ok r -> nonneg_ext r.
Proof.
  intros N Pv. unfold add_event, fmul_int. rewrite Pv. cbn [bind].
  destruct (parse_weight_returns e) as (w & -> & Hw). cbn [bind].
  unfold of_int. destruct (_ <? top); cbn [bind]; [|discriminate].
  intros [= <-]. apply fadd_nonneg; [exact N|].
  replace (w <? 0) with false by (symmetry; apply Z.ltb_ge; lia).
  cbn [fmul xorb]. apply nonneg_pack; [lia|exact one_pos].
Qed.

Lemma accumulate_nonneg events : forall total r,
  nonneg_ext total ->
  Forall (fun e => exists u, parse_value e = Ok (Fin false u)) events ->
  accumulate total events = Ok r -> nonneg_ext r.
Proof.
  induction events as [|e rest IH]; intros total r N F; cbn [accumulate].
  - intros [= <-]. exact N.
  - inversion F as [|? ? [u Pv] Fr]; subst.
    destruct (add_event total e) as [t|] eqn:A; cbn [bind]; [|discriminate].
    apply IH; [|exact Fr]. eapply add_event_nonneg; eassumption.
Qed.

(** When every event value parses to a finite float with a positive
    sign, the score is never negative: it is NaN (the total
    overflowed to infinity) or at least 0.0. *)
Theorem nonnegative_values_nonnegative_score
    (events : list dict) (user : dict) (now : datetime) (r : float) :
  Forall (fun e => exists u, parse_value e = Ok (Fin false u)) events ->
  calc_score events user now = Ok r ->
  is_nan r = true \/ fle zero r = true.
Proof.
  intros F. unfold calc_score.
  destruct (accumulate zero events) as [total|] eqn:A; cbn [bind]; [|discriminate].
  assert (N0 : nonneg_ext zero) by apply (valid_zero false).
  pose proof (accumulate_nonneg _ _ _ N0 F A) as N.
  destruct (loyalty_bonus_shape user now) as (vb & -> & Rb & Hb). cbn [bind].
  destruct (tier_multiplier_shape user) as (m & -> & Rm & Hm & _).
  pose proof one_pos as P1.
  destruct total as [|[|]|[|] u]; cbn [nonneg_ext] in N; try contradiction.
  - rewrite apply_bonus_not_finite by reflexivity. cbn [fmul round2 bind].
    intros [= <-]. now left.
  - destruct (apply_bonus_finite false u vb N) as (s' & u' & -> & Ru' & _ & S).
    { destruct Rb as [[? _] _]. lia. }
    rewrite (S eq_refl). cbn [fmul xorb].
    destruct Ru' as [[Hu' _] _]. destruct Rm as [[Hm' _] _].
    rewrite Z.abs_eq by (apply Z.mul_nonneg_nonneg; lia).
    destruct (pack_cases false (round_units (u' * m) one)) as [[-> T]|[-> T]].
    + assert (R : representable (round_units (u' * m) one)).
      { split; [split; [apply round_units_nonneg; [apply Z.mul_nonneg_nonneg|]; lia|exact T]|].
        apply round_units_multiple; [apply Z.mul_nonneg_nonneg|]; lia. }
      destruct (round2_finite false _ R) as [E R2]. rewrite E. cbn [bind].
      destruct (round2_finite false _ R2) as [E' [[H2 _] _]]. rewrite E'.
      intros [= <-]. right. unfold zero. cbn [fle signed]. apply Z.leb_le. exact H2.
    + cbn [round2 bind]. intros [= <-]. now right.
Qed.

Lemma nonnegative_values_nonnegative_score_witness :
  is_nan (of_decimal false 322 (-2)) = true
  \/ fle zero (of_decimal false 322 (-2)) = true.
Proof.
  apply (nonnegative_values_nonnegative_score
           [event_of (PyStr "1.5") (PyStr "2")]
           (user_of "pro" "2020-01-01") now_2025).
  - constructor; [|constructor]. eexists. vm_compute. reflexivity.
  - vm_compute. reflexivity.
Defined.

(** ** The order of the events *)

Lemma fadd_comm x y : fadd x y = fadd y x.
Proof.
  destruct x as [|s|s u], y as [|t|t v]; cbn [fadd]; try reflexivity.
  - destruct s, t; reflexivity.
  - rewrite (Z.add_comm (signed t v)), (andb_comm t). reflexivity.
Qed.

Lemma fadd_zero_l x :
  valid x -> x <> Fin true 0 -> fadd zero x = x.
Proof.
  intros V N. rewrite fadd_comm. unfold zero. now apply fadd_zero_r.
Qed.

Lemma fadd_first_two x y :
  valid x -> valid y -> fadd (fadd zero x) y = fadd (fadd zero y) x.
Proof.
  intros Vx Vy.
  assert (D : forall z : float, {z = Fin true 0} + {z <> Fin true 0}).
  { intros [|s|[|] [| |]]; (left; reflexivity) || (right; discriminate). }
  assert (M : fadd zero (Fin true 0) = zero) by reflexivity.
  destruct (D x) as [->|Nx], (D y) as [->|Ny]; try reflexivity.
  - rewrite M, (fadd_zero_l y Vy Ny). rewrite (fadd_zero_r y true Vy Ny).
    reflexivity.
  - rewrite M, (fadd_zero_l x Vx Nx). rewrite (fadd_zero_r x true Vx Nx).
    reflexivity.
  - rewrite (fadd_zero_l x Vx Nx), (fadd_zero_l y Vy Ny). apply fadd_comm.
Qed.

Lemma add_event_product total e :
  add_event total e = let? p := event_product e in Ok (fadd total p).
Proof.
  unfold add_event, event_product.
  destruct (parse_value e); cbn [bind]; [|reflexivity].
  destruct (parse_weight e); cbn [bind]; [|reflexivity].
  destruct (fmul_int _ _); reflexivity.
Qed.

Lemma event_product_cases e :
  (exists p, event_product e = Ok p /\ valid p)
  \/ event_product e = Raise OverflowError.
Proof.
  unfold event_product.
  destruct (parse_value_returns e) as [v ->].
  destruct (parse_weight_returns e) as (w & -> & _). cbn [bind].
  unfold fmul_int. destruct (of_int w) as [y|err] eqn:O; cbn [bind].
  - left. eexists. split; [reflexivity|apply fmul_valid].
  - right. now rewrite (of_int_raises _ _ O).
Qed.

Lemma accumulate_two a b :
  accumulate zero [a; b]
  = let? pa := event_product a in
    let? pb := event_product b in
    Ok (fadd (fadd zero pa) pb).
Proof.
  cbn [accumulate]. rewrite add_event_product.
  destruct (event_product a); cbn [bind]; [|reflexivity].
  rewrite add_event_product.
  destruct (event_product b); reflexivity.
Qed.

(** Two events may be swapped; with three, the order can change the
    score: the sum [1e16 + 1.0 + 1.0] loses both ones, the sum
    [1.0 + 1.0 + 1e16] does not. *)
Theorem two_events_commute :
  (forall (a b user : dict) (now : datetime),
      calc_score [a; b] user now = calc_score [b; a] user now)
  /\ calc_score [event_value (PyStr "1e16"); event_value (PyInt 1);
                 event_value (PyInt 1)] (user_of "free" "") now_2025
     <> calc_score [event_value (PyInt 1); event_value (PyInt 1);
                    event_value (PyStr "1e16")] (user_of "free" "") now_2025.
Proof.
  split.
  - intros a b user now. apply calc_score_same_total.
    rewrite !accumulate_two.
    destruct (event_product_cases a) as [(pa & -> & Va)| ->],
             (event_product_cases b) as [(pb & -> & Vb)| ->];
      cbn [bind]; try reflexivity.
    now rewrite fadd_first_two.
  - vm_compute. discriminate.
Qed.

(** ** [divide] on integers *)

Lemma div_eucl_exact a k : a <> 0 -> Z.div_eucl (a * k) a = (k, 0).
Proof.
  intros H. pose proof (Z.div_eucl_eq (a * k) a H) as E.
  pose proof (Z_div_mod_full (a * k) a H) as B.
  destruct (Z.div_eucl (a * k) a) as [q r]. destruct B as [_ B].
  assert (Q : q = (a * k) / a) .
  { apply Z.div_unique with r; [|lia].
    unfold Remainder in B. lia. }
  rewrite Z.mul_comm, Z.div_mul in Q by exact H. subst q.
  f_equal. lia.
Qed.

(** Every non-zero integer divided by itself gives [Decimal("1")]. *)
Theorem divide_by_itself (a : Z) :
  a <> 0 -> divide (NInt a) (NInt a) = Ok (Dec.DFin false 1 0).
Proof.
  intros H. unfold divide. cbn [Decimal bind Dec.eq_zero].
  destruct (Z.eqb_spec (Z.abs a) 0) as [E|N]; [lia|].
  cbn [Dec.truediv]. 
  destruct (Z.eqb_spec (Z.abs a) 0) as [E|_]; [lia|].
  replace (Dec.ndigits (Z.abs a) - Dec.ndigits (Z.abs a) + Dec.prec + 1)
    with 29 by (unfold Dec.prec; lia).
  change (0 <=? 29) with true. cbv iota.
  rewrite div_eucl_exact by exact N.
  rewrite xorb_nilpotent.
  vm_compute. reflexivity.
Qed.

Lemma divide_by_itself_witness :
  divide (NInt (-7)) (NInt (-7)) = Ok (Dec.DFin false 1 0).
Proof. apply divide_by_itself. discriminate. Defined.

(** Zero divided by a non-zero integer gives a zero with exponent 0
    that carries the sign of the denominator: [Decimal("-0")] for a
    negative one. *)
Theorem divide_zero_numerator (b : Z) :
  b <> 0 -> divide (NInt 0) (NInt b) = Ok (Dec.DFin (b <? 0) 0 0).
Proof.
  intros H. unfold divide. cbn [Decimal bind Dec.eq_zero].
  destruct (Z.eqb_spec (Z.abs b) 0) as [E|N]; [lia|].
  cbn [Dec.truediv].
  destruct (Z.eqb_spec (Z.abs b) 0) as [E|_]; [lia|].
  change (Z.abs 0 =? 0) with true. cbv iota.
  change (0 <? 0) with false. cbn [xorb].
  destruct (b <? 0); reflexivity.
Qed.

Lemma divide_zero_numerator_witness :
  divide (NInt 0) (NInt (-3)) = Ok (Dec.DFin true 0 0).
Proof. apply (divide_zero_numerator (-3)). discriminate. Defined.

Lemma truediv_sign s t s' t' c1 e1 c2 e2 :
  xorb s t = xorb s' t' ->
  Dec.truediv (Dec.DFin s c1 e1) (Dec.DFin t c2 e2)
  = Dec.truediv (Dec.DFin s' c1 e1) (Dec.DFin t' c2 e2).
Proof. intros H. cbn [Dec.truediv]. now rewrite H. Qed.

(** Negating both integer arguments does not change the result, as
    long as the numerator is not zero. *)
Theorem divide_opposites (a b : Z) :
  a <> 0 -> divide (NInt (- a)) (NInt (- b)) = divide (NInt a) (NInt b).
Proof.
  intros H. unfold divide. cbn [Decimal bind Dec.eq_zero].
  rewrite !Z.abs_opp.
  destruct (Z.abs b =? 0) eqn:E; [reflexivity|].
  rewrite (truediv_sign (- a <? 0) (- b <? 0) (a <? 0) (b <? 0));
    [reflexivity|].
  apply Z.eqb_neq in E.
  destruct (Z.ltb_spec (- a) 0), (Z.ltb_spec (- b) 0),
    (Z.ltb_spec a 0), (Z.ltb_spec b 0); try reflexivity; lia.
Qed.

Lemma divide_opposites_witness :
  divide (NInt (- 10)) (NInt (- 4)) = divide (NInt 10) (NInt 4).
Proof. apply (divide_opposites 10 4). discriminate. Defined.

(** ** The faulty variants of [divide] *)

Lemma correct_is_divide n d : Correct.divide n d = divide n d.
Proof. reflexivity. Qed.

Lemma truediv_raises a b e :
  Dec.truediv a b = Raise e ->
  e = InvalidOperation \/ e = DivisionByZero \/ e = DecimalOverflow.
Proof.
  destruct a as [s c1 e1|s|s [|] p], b as [t c2 e2|t|t [|] q];
    cbn [Dec.truediv]; try discriminate;
    try (intros [= <-]; auto).
  destruct (Z.eqb_spec c2 0) as [Z0|Zn].
  - destruct (c1 =? 0); intros [= <-]; auto.
  - intros H. pose proof (truediv_finite s c1 e1 t c2 e2 Zn) as T.
    cbn [Dec.truediv] in T.
    destruct (Z.eqb_spec c2 0); [contradiction|].
    rewrite H in T. auto.
Qed.

(** The comparison with [0] raises for a signalling NaN, or what the
    [__eq__] of an object raises. *)
Lemma raw_eq_zero_raises x e :
  raw_eq_zero x = Raise e -> e = InvalidOperation \/ x = NObject (Raise e).
Proof.
  destruct x as [z|b|f|[s c ex|s|s [|] p]|s|xs| |r]; cbn; try discriminate.
  - intros [= <-]. auto.
  - intros ->. auto.
Qed.

(** [Decimal] raises [ValueError] only for a tuple or list. *)
Lemma Decimal_value_error x :
  Decimal x = Raise ValueError -> exists xs, x = NSeq xs.
Proof.
  intros H. destruct x; cbn [Decimal] in H; try discriminate; eauto.
  unfold Dec.of_string in H. destruct (Dec.of_literal _); discriminate.
Qed.

Lemma divide_value_error n d :
  divide n d = Raise ValueError ->
  (exists e, Decimal n = Raise e) \/ (exists e, Decimal d = Raise e).
Proof.
  unfold divide.
  destruct (Decimal n) as [num|]; cbn [bind]; [|eauto].
  destruct (Decimal d) as [den|]; cbn [bind]; [|eauto].
  destruct (Dec.eq_zero den) as [[|]|e] eqn:Z; cbn [bind]; try discriminate.
  - destruct (Dec.truediv num den) as [q|e] eqn:T; cbn [bind].
    + intros H. destruct (normalize_raises _ _ H) as [[? _]|[? _]]; discriminate.
    + intros [= ->]. destruct (truediv_raises _ _ _ T) as [?|[?|?]]; discriminate.
  - intros [= ->]. destruct den as [| |? [|] ?]; cbn in Z; try discriminate.
Qed.

(** broken_invalid_input.py has no [except] clause and raises what
    the comparison, [Decimal] or the division raises.  It raises
    [ValueError] only for a tuple or list that [Decimal] itself rejects
    with [ValueError], or for a denominator whose [__eq__] raises it:
    never for a number, a string or [None].  Wherever [divide] raises
    [ValueError] it raises too; and where [divide] has replaced an
    [InvalidOperation] or a [TypeError] of a conversion, the
    denominator not being equal to 0, it raises that exception
    instead. *)
Theorem broken_invalid_input_value_errors (numerator denominator : number) :
  (BrokenInvalidInput.divide numerator denominator = Raise ValueError ->
   (exists xs, numerator = NSeq xs /\ Decimal numerator = Raise ValueError)
   \/ (exists xs, denominator = NSeq xs
                  /\ Decimal denominator = Raise ValueError)
   \/ denominator = NObject (Raise ValueError))
  /\ (divide numerator denominator = Raise ValueError ->
      exists e, BrokenInvalidInput.divide numerator denominator = Raise e)
  /\ (forall e,
        e = InvalidOperation \/ e = TypeError ->
        raw_eq_zero denominator = Ok false ->
        Decimal numerator = Raise e
        \/ (exists num, Decimal numerator = Ok num
                        /\ Decimal denominator = Raise e) ->
        divide numerator denominator = Raise ValueError
        /\ BrokenInvalidInput.divide numerator denominator = Raise e).
Proof.
  split; [|split].
  - unfold BrokenInvalidInput.divide.
    destruct (raw_eq_zero denominator) as [[|]|e0] eqn:R; cbn [bind].
    + discriminate.
    + destruct (Decimal numerator) as [num|e1] eqn:N; cbn [bind].
      * destruct (Decimal denominator) as [den|e2] eqn:D; cbn [bind].
        -- intros T. destruct (truediv_raises _ _ _ T) as [?|[?|?]]; discriminate.
        -- intros [= ->]. right. left.
           destruct (Decimal_value_error _ D) as [xs ->]. eauto.
      * intros [= ->]. left.
        destruct (Decimal_value_error _ N) as [xs ->]. eauto.
    + intros [= ->]. right. right.
      destruct (raw_eq_zero_raises _ _ R) as [?|?]; [discriminate|assumption].
  - intros H. apply divide_value_error in H.
    unfold BrokenInvalidInput.divide.
    destruct (raw_eq_zero denominator) as [[|]|e0]; cbn [bind]; eauto.
    destruct (Decimal numerator) as [num|e1]; cbn [bind]; eauto.
    destruct (Decimal denominator) as [den|e2]; cbn [bind]; eauto.
    destruct H as [[? ?]|[? ?]]; discriminate.
  - intros e He R H. split.
    + rewrite (divide_conversion_fails _ _ _ H).
      destruct He as [-> | ->]; reflexivity.
    + unfold BrokenInvalidInput.divide. rewrite R. cbn [bind].
      destruct H as [-> |(num & -> & ->)]; reflexivity.
Qed.

Lemma broken_invalid_input_value_errors_witness :
  divide (NStr "a") (NInt 3) = Raise ValueError
  /\ BrokenInvalidInput.divide (NStr "a") (NInt 3) = Raise InvalidOperation.
Proof.
  destruct (broken_invalid_input_value_errors (NStr "a") (NInt 3))
    as (_ & _ & H).
  apply H; [now left|reflexivity|now left].
Defined.

Lemma trailing_zeros_spec fuel : forall u,
  0 < u ->
  0 <= Dec.trailing_zeros fuel u <= Z.of_nat fuel
  /\ exists q, 0 < q /\ u = q * 2 ^ Dec.trailing_zeros fuel u.
Proof.
  induction fuel as [|f IH]; intros u Hu.
  - cbn [Dec.trailing_zeros]. split; [lia|]. exists u. lia.
  - cbn [Dec.trailing_zeros]. destruct (Z.even u) eqn:E.
    + apply Z.even_spec in E. destruct E as [h ->].
      assert (Hh : 0 < h) by lia.
      replace (2 * h / 2) with h by (rewrite Z.mul_comm, Z.div_mul; lia).
      destruct (IH h Hh) as (B & q & Hq & Eq).
      split; [lia|]. exists q. split; [exact Hq|].
      rewrite Z.pow_add_r, Z.pow_1_r by lia. lia.
    + split; [lia|]. exists u. lia.
Qed.

Lemma of_float_eq_zero f :
  valid f -> Dec.eq_zero (Dec.of_float f) = Ok (feq f zero).
Proof.
  destruct f as [|s|s u]; try reflexivity. intros [[Hu _] _].
  unfold zero. cbn [Dec.of_float feq signed].
  destruct (Z.eqb_spec u 0) as [->|N].
  - cbn [Dec.eq_zero]. destruct s; reflexivity.
  - cbn [Dec.eq_zero]. f_equal.
    destruct (trailing_zeros_spec 1074 u ltac:(lia)) as (B & q & Hq & Eq).
    set (j := Dec.trailing_zeros 1074 u) in *.
    change (Z.of_nat 1074) with 1074 in B. clearbody j.
    rewrite pow2_spec by lia.
    assert (D : u / 2 ^ j = q).
    { rewrite Eq at 1. apply Z.div_mul. apply Z.pow_nonzero; lia. }
    rewrite D.
    assert (0 < 5 ^ (1074 - j)) by (apply Z.pow_pos_nonneg; lia).
    assert (0 < q * 5 ^ (1074 - j)) by (apply Z.mul_pos_pos; lia).
    destruct (Z.eqb_spec (q * 5 ^ (1074 - j)) 0); [lia|].
    symmetry. apply Z.eqb_neq. destruct s; cbn [signed]; lia.
Qed.

(** But for a string, a tuple or a list, comparing the argument with
    [0] is comparing its conversion with [0]. *)
Lemma raw_eq_zero_converted x den :
  wf_number x ->
  Decimal x = Ok den ->
  (exists s, x = NStr s) \/ (exists xs, x = NSeq xs)
  \/ raw_eq_zero x = Dec.eq_zero den.
Proof.
  destruct x as [z|b|f|d|s|xs| |r]; cbn [Decimal raw_eq_zero]; intros W;
    try discriminate; try (injection 1 as <-); eauto; right; right;
    cbn [Dec.eq_zero].
  - f_equal. destruct (Z.eqb_spec z 0), (Z.eqb_spec (Z.abs z) 0); try reflexivity; lia.
  - destruct b; reflexivity.
  - symmetry. now apply of_float_eq_zero.
Qed.

(** Wherever [divide] returns, both faulty variants return the same
    quotient before normalization: normalizing their result gives the
    result of [divide]. *)
Theorem variants_omit_normalize (numerator denominator : number) (r : Dec.decimal) :
  wf_number denominator ->
  divide numerator denominator = Ok r ->
  exists q,
    BrokenInvalidInput.divide numerator denominator = Ok q
    /\ BrokenZeroDivision.divide numerator denominator = Ok q
    /\ Dec.normalize q = Ok r.
Proof.
  intros W. unfold divide.
  destruct (Decimal numerator) as [num|e1] eqn:N; cbn [bind].
  2:{ destruct (caught e1); discriminate. }
  destruct (Decimal denominator) as [den|e2] eqn:D; cbn [bind].
  2:{ destruct (caught e2); discriminate. }
  destruct (Dec.eq_zero den) as [[|]|e] eqn:Z; cbn [bind]; try discriminate.
  destruct (Dec.truediv num den) as [q|e] eqn:T; cbn [bind]; [|discriminate].
  intros H. exists q.
  assert (R : raw_eq_zero denominator = Ok false).
  { destruct (raw_eq_zero_converted _ _ W D) as [[s ->]|[[xs ->]| ->]];
      [reflexivity|reflexivity|exact Z]. }
  unfold BrokenInvalidInput.divide, BrokenZeroDivision.divide.
  rewrite R, N, D. cbn [bind]. rewrite T. auto.
Qed.

Lemma variants_omit_normalize_witness :
  exists q,
    BrokenInvalidInput.divide (NInt 10) (NInt 5) = Ok q
    /\ BrokenZeroDivision.divide (NInt 10) (NInt 5) = Ok q
    /\ Dec.normalize q = Ok (Dec.DFin false 2 0).
Proof.
  apply variants_omit_normalize; [exact I|]. vm_compute. reflexivity.
Defined.

(** Where [divide] raises [ZeroDivisionError] and the denominator is
    neither a string nor a tuple or list (which are not equal to [0]
    before the conversion), broken_invalid_input.py raises it too and
    broken_zero_division.py returns [Decimal("0")]. *)
Theorem zero_denominator_in_variants (numerator denominator : number) :
  wf_number denominator ->
  (forall s, denominator <> NStr s) ->
  (forall xs, denominator <> NSeq xs) ->
  divide numerator denominator = Raise ZeroDivisionError ->
  BrokenInvalidInput.divide numerator denominator = Raise ZeroDivisionError
  /\ BrokenZeroDivision.divide numerator denominator = Ok (Dec.DFin false 0 0).
Proof.
  intros W S Q. unfold divide.
  destruct (Decimal numerator) as [num|e1] eqn:N; cbn [bind].
  2:{ destruct (Decimal_raises _ _ N) as [C| ->]; [rewrite C|]; discriminate. }
  destruct (Decimal denominator) as [den|e2] eqn:D; cbn [bind].
  2:{ destruct (Decimal_raises _ _ D) as [C| ->]; [rewrite C|]; discriminate. }
  destruct (Dec.eq_zero den) as [[|]|e] eqn:Z; cbn [bind].
  - intros _.
    assert (R : raw_eq_zero denominator = Ok true).
    { destruct (raw_eq_zero_converted _ _ W D) as [[s E]|[[xs E]| ->]];
        [now destruct (S s)|now destruct (Q xs)|exact Z]. }
    unfold BrokenInvalidInput.divide, BrokenZeroDivision.divide.
    rewrite R. split; reflexivity.
  - destruct (Dec.truediv num den) as [q|e] eqn:T; cbn [bind].
    + intros H. destruct (normalize_raises _ _ H) as [[? _]|[? _]]; discriminate.
    + intros [= ->]. destruct (truediv_raises _ _ _ T) as [?|[?|?]]; discriminate.
  - intros [= ->]. destruct den as [| |? [|] ?]; cbn in Z; discriminate.
Qed.

Lemma zero_denominator_in_variants_witness :
  BrokenInvalidInput.divide (NInt 1) (NInt 0) = Raise ZeroDivisionError
  /\ BrokenZeroDivision.divide (NInt 1) (NInt 0) = Ok (Dec.DFin false 0 0).
Proof.
  apply zero_denominator_in_variants;
    [exact I|discriminate|discriminate|reflexivity].
Defined.

(** A denominator that converts to zero without being equal to [0]:
    the variants go on to divide. *)
Example zero_tuple_denominator :
  divide (NInt 1) (NSeq [Dec.IInt 0; Dec.ISeq [Dec.EInt 0]; Dec.IInt 0])
  = Raise ZeroDivisionError
  /\ BrokenZeroDivision.divide (NInt 1)
       (NSeq [Dec.IInt 0; Dec.ISeq [Dec.EInt 0]; Dec.IInt 0])
     = Raise DivisionByZero
  /\ BrokenInvalidInput.divide (NSeq [Dec.IInt 1; Dec.IInt 2]) (NInt 3)
     = Raise ValueError.
Proof. repeat split; vm_compute; reflexivity. Qed.

(** ** The unit tests and the meta tests *)

(** The three unit tests pass on the reference implementation; the
    zero-denominator test and the non-numeric test fail on
    broken_zero_division.py; the non-numeric test fails on
    broken_invalid_input.py; so the assertions of the three meta
    tests hold. *)
Theorem suite_verdicts :
  run_division_suite Correct.divide = [passed; passed; passed]
  /\ run_division_suite BrokenZeroDivision.divide = [passed; failed; failed]
  /\ run_division_suite BrokenInvalidInput.divide = [passed; passed; failed]
  /\ test_suite_passes_for_correct_divide = true
  /\ test_suite_detects_missing_zero_division_guard = true
  /\ test_suite_detects_missing_value_error = true.
Proof.
  split; [|split; [|split; [|split; [|split]]]]; vm_compute; reflexivity.
Qed.

(** ** The number of digits of a coefficient *)

Lemma of_lu_bound d :
  (DecimalPos.Unsigned.of_lu d < 10 ^ N.of_nat (Decimal.nb_digits d))%N.
Proof.
  induction d; cbn [DecimalPos.Unsigned.of_lu Decimal.nb_digits];
    rewrite ?Nat2N.inj_succ, ?N.pow_succ_r'; lia.
Qed.

Lemma string_of_uint_length d :
  String.length (NilEmpty.string_of_uint d) = Decimal.nb_digits d.
Proof. induction d; cbn; congruence. Qed.

Lemma ndigits_pos p :
  Dec.ndigits (Zpos p)
  = Z.of_nat (Decimal.nb_digits (Pos.to_little_uint p)).
Proof.
  unfold Dec.ndigits. cbn [Z.to_int NilZero.string_of_int].
  unfold NilZero.string_of_uint.
  pose proof (DecimalPos.Unsigned.to_uint_nonnil p) as N.
  destruct (Pos.to_uint p) eqn:E; try contradiction;
    rewrite <- E, string_of_uint_length; unfold Pos.to_uint;
    now rewrite DecimalFacts.nb_digits_rev.
Qed.

Lemma ndigits_bound c : 0 < c -> c < 10 ^ Dec.ndigits c.
Proof.
  destruct c as [|p|p]; try lia. intros _.
  rewrite ndigits_pos.
  pose proof (of_lu_bound (Pos.to_little_uint p)) as B.
  rewrite <- DecimalPos.Unsigned.of_lu_rev in B.
  change (Decimal.rev (Pos.to_little_uint p)) with (Pos.to_uint p) in B.
  rewrite DecimalPos.Unsigned.of_to in B.
  apply N2Z.inj_lt in B. rewrite N2Z.inj_pow in B.
  rewrite nat_N_Z in B. exact B.
Qed.

Lemma ndigits_positive c : 0 < Dec.ndigits c.
Proof.
  unfold Dec.ndigits.
  destruct c as [|p|p]; cbn [Z.to_int NilZero.string_of_int].
  - cbn. lia.
  - fold (Dec.ndigits (Zpos p)). pose proof (ndigits_bound (Zpos p) ltac:(lia)).
    destruct (Z_lt_le_dec 0 (Dec.ndigits (Z.pos p))) as [L|L]; [exact L|].
    exfalso.
    assert (10 ^ Dec.ndigits (Z.pos p) <= 1).
    { destruct (Z.eq_dec (Dec.ndigits (Z.pos p)) 0) as [->|]; [cbn; lia|].
      rewrite Z.pow_neg_r by lia. lia. }
    lia.
  - cbn [String.length]. lia.
Qed.

(** ** Coefficients stay non-negative *)

Lemma take_digits_range s :
  Forall (fun d => 0 <= d <= 9) (fst (take_digits s)).
Proof.
  induction s as [|c r IH]; cbn [take_digits]; [constructor|].
  destruct (is_digit c) eqn:D; [|constructor].
  destruct (take_digits r) as [ds rest]. cbn [fst] in *.
  constructor; [|exact IH].
  unfold is_digit in D. apply andb_true_iff in D. destruct D as [L U].
  apply Z.leb_le in L, U. unfold digit_val. lia.
Qed.

Lemma fold_digits_nonneg ds : forall acc,
  0 <= acc -> Forall (fun d => 0 <= d <= 9) ds ->
  0 <= fold_left (fun acc d => 10 * acc + d) ds acc.
Proof.
  induction ds as [|d ds IH]; intros acc Ha F; cbn [fold_left]; [exact Ha|].
  inversion F as [|? ? Hd Fr]; subst. apply IH; [lia|exact Fr].
Qed.

Lemma digits_value_nonneg ds :
  Forall (fun d => 0 <= d <= 9) ds -> 0 <= digits_value ds.
Proof. intros F. apply fold_digits_nonneg; [lia|exact F]. Qed.

Lemma of_literal_wf s d : Dec.of_literal s = Some d -> wf_decimal d.
Proof.
  unfold Dec.of_literal.
  destruct (take_sign s) as [neg body].
  destruct (_ || _); [intros [= <-]; exact I|].
  assert (G :
    (let '(ip, r1) := take_digits body in
     let '(fp, r2) :=
       match r1 with
       | String "." r => take_digits r
       | _ => (nil, r1)
       end in
     match ip ++ fp with
     | nil => None
     | ds =>
         match Dec.literal_exponent r2 with
         | Some ex =>
             let c := digits_value ds in
             let e := ex - Z.of_nat (length fp) in
             if Dec.is_exact c e then Some (Dec.DFin neg c e) else None
         | None => None
         end
     end) = Some d -> wf_decimal d).
  { pose proof (take_digits_range body) as Fi.
    destruct (take_digits body) as [ip r1]. cbn [fst] in Fi.
    assert (Ff : Forall (fun d => 0 <= d <= 9)
                   (fst match r1 with
                        | String "." r => take_digits r
                        | _ => (nil, r1)
                        end)).
    { destruct r1 as [|c r]; [constructor|].
      destruct (Ascii.eqb_spec c "."%char) as [->|N].
      - apply take_digits_range.
      - destruct c as [[|] [|] [|] [|] [|] [|] [|] [|]];
          try constructor; contradiction. }
    destruct (match r1 with String "." r => take_digits r | _ => (nil, r1) end)
      as [fp r2]. cbn [fst] in Ff.
    pose proof (digits_value_nonneg (ip ++ fp)
                  (proj2 (Forall_app _ _ _) (conj Fi Ff))) as P.
    destruct (ip ++ fp) as [|d0 ds]; [discriminate|].
    destruct (Dec.literal_exponent r2); [|discriminate].
    cbv zeta. destruct (Dec.is_exact _ _); [|discriminate].
    intros [= <-]. exact P. }
  destruct (lower body) as [|c1 l1]; [exact G|].
  destruct c1 as [[|] [|] [|] [|] [|] [|] [|] [|]]; try exact G;
    destruct l1 as [|c2 l2]; try exact G;
    destruct c2 as [[|] [|] [|] [|] [|] [|] [|] [|]]; try exact G;
    destruct l2 as [|c3 l3]; try exact G;
    destruct c3 as [[|] [|] [|] [|] [|] [|] [|] [|]]; try exact G.
  - destruct l3 as [|c4 l4]; try exact G.
    destruct c4 as [[|] [|] [|] [|] [|] [|] [|] [|]]; try exact G.
    destruct (take_digits l4) as [ds [|? ?]]; [|discriminate].
    intros [= <-]. exact I.
  - destruct (take_digits l3) as [ds [|? ?]]; [|discriminate].
    intros [= <-]. exact I.
Qed.

Lemma of_float_wf f : valid f -> wf_decimal (Dec.of_float f).
Proof.
  destruct f as [|s|s u]; try (intros; exact I). intros [[Hu _] _].
  cbn [Dec.of_float]. destruct (u =? 0); cbn [wf_decimal]; [lia|].
  apply Z.mul_nonneg_nonneg; [|apply Z.pow_nonneg; lia].
  set (p := pow2 _).
  assert (0 <= p) by (apply Z.shiftl_nonneg; lia).
  destruct (Z.eq_dec p 0) as [->|]; [now rewrite Z.div_0_r|].
  apply Z.div_pos; lia.
Qed.

Lemma digits_of_range xs : forall ds,
  Dec.digits_of xs = Ok ds -> Forall (fun d => 0 <= d <= 9) ds.
Proof.
  induction xs as [|[z|] xs IH]; intros ds; cbn [Dec.digits_of].
  - intros [= <-]. constructor.
  - destruct (Dec.as_long z) as [l|]; cbn [bind]; [|discriminate].
    destruct (_ && _) eqn:R; [|discriminate].
    destruct (Dec.digits_of xs) as [ds'|]; cbn [bind]; [|discriminate].
    intros [= <-]. apply andb_true_iff in R. destruct R as [L U].
    apply Z.leb_le in L, U. constructor; [lia|]. now apply IH.
  - discriminate.
Qed.

Lemma of_sequence_wf xs d : Dec.of_sequence xs = Ok d -> wf_decimal d.
Proof.
  destruct xs as [|sign [|coefficient [|exponent [|? ?]]]];
    cbn [Dec.of_sequence]; try discriminate.
  destruct (Dec.sign_of sign) as [neg|]; cbn [bind]; [|discriminate].
  destruct (Dec.kind_of exponent) as [k|]; cbn [bind]; [|discriminate].
  destruct (Dec.coefficient_of coefficient) as [ds|] eqn:C; cbn [bind];
    [|discriminate].
  destruct k as [|g|e]; try (intros [= <-]; exact I).
  destruct (Dec.is_exact _ _); [|discriminate]. intros [= <-].
  destruct coefficient as [| |ys|]; try discriminate.
  apply digits_value_nonneg. eapply digits_of_range. exact C.
Qed.

Lemma Decimal_wf x d : wf_number x -> Decimal x = Ok d -> wf_decimal d.
Proof.
  destruct x as [z|b|f|d0|s|xs| |r]; cbn [Decimal wf_number]; intros W;
    try discriminate; try (intros [= <-]).
  - cbn. lia.
  - cbn. destruct b; lia.
  - now apply of_float_wf.
  - exact W.
  - unfold Dec.of_string.
    destruct (Dec.of_literal _) as [d1|] eqn:L; [|discriminate].
    intros [= <-]. eapply of_literal_wf. exact L.
  - now apply of_sequence_wf.
Qed.

(** ** [_fix] keeps at most [prec] digits *)

Lemma pow10_pos k : 0 <= k -> 0 < 10 ^ k.
Proof. intros. apply Z.pow_pos_nonneg; lia. Qed.

Lemma few_digits_small c : 0 <= c -> Dec.ndigits c <= Dec.prec -> c < 10 ^ Dec.prec.
Proof.
  intros Hc Hd. destruct (Z.eq_dec c 0) as [->|N].
  - apply pow10_pos. unfold Dec.prec. lia.
  - pose proof (ndigits_bound c ltac:(lia)).
    pose proof (Z.pow_le_mono_r 10 _ _ ltac:(lia) Hd). lia.
Qed.

Lemma fix_shape s c e r :
  0 <= c -> Dec.fix_ (Dec.DFin s c e) = Ok r ->
  exists c' e', r = Dec.DFin s c' e' /\ 0 <= c' < 10 ^ Dec.prec
                /\ (c = 0 -> c' = 0).
Proof.
  intros Hc. cbn [Dec.fix_].
  assert (P28 : 0 < 10 ^ Dec.prec) by (apply pow10_pos; unfold Dec.prec; lia).
  destruct (Z.eqb_spec c 0) as [->|N].
  { intros [= <-]. eexists _, _. split; [reflexivity|]. split; [lia|reflexivity]. }
  destruct (Dec.Etop <? _); [discriminate|].
  set (exp_min := Z.max (Dec.ndigits c + e - Dec.prec) Dec.Etiny).
  assert (Hm : Dec.ndigits c + e - Dec.prec <= exp_min) by (unfold exp_min; lia).
  clearbody exp_min.
  destruct (Z.ltb_spec e exp_min) as [Lt|Ge].
  2:{ intros [= <-]. eexists _, _. split; [reflexivity|]. split; [|lia].
      split; [lia|]. apply few_digits_small; lia. }
  destruct (Z.ltb_spec (Dec.ndigits c + e - exp_min) 0) as [Neg|Pos].
  - replace (exp_min - (exp_min - 1)) with 1 by lia.
    change (rne 1 (10 ^ 1)) with 0.
    change (Dec.prec <? Dec.ndigits 0) with false. cbv iota.
    destruct (Dec.Etop <? exp_min); [discriminate|].
    intros [= <-]. eexists _, _. split; [reflexivity|]. split; [lia|lia].
  - set (k := exp_min - e) in *.
    assert (Hk : 0 < k) by (unfold k; lia).
    pose proof (pow10_pos k ltac:(lia)) as Pk.
    pose proof (rne_nonneg c (10 ^ k) Hc Pk) as R0.
    pose proof (rne_floor c (10 ^ k) Pk) as [_ R1].
    assert (Q : c / 10 ^ k < 10 ^ Dec.prec).
    { apply Z.div_lt_upper_bound; [exact Pk|].
      rewrite <- Z.pow_add_r by (unfold Dec.prec; lia).
      pose proof (ndigits_bound c ltac:(lia)).
      assert (Dec.ndigits c <= k + Dec.prec) by (unfold k; lia).
      pose proof (Z.pow_le_mono_r 10 _ _ ltac:(lia) H0). lia. }
    set (c' := rne c (10 ^ k)) in *. clearbody c'.
    destruct (Z.ltb_spec Dec.prec (Dec.ndigits c')) as [Big|Small].
    + destruct (Dec.Etop <? exp_min + 1); [discriminate|].
      intros [= <-]. eexists _, _. split; [reflexivity|]. split; [|lia].
      split; [apply Z.div_pos; lia|].
      apply Z.div_lt_upper_bound; lia.
    + destruct (Dec.Etop <? exp_min); [discriminate|].
      intros [= <-]. eexists _, _. split; [reflexivity|]. split; [|lia].
      split; [exact R0|]. apply few_digits_small; lia.
Qed.

Lemma fix_wf d r : wf_decimal d -> Dec.fix_ d = Ok r -> wf_decimal r.
Proof.
  destruct d as [s c e|s|s g p]; cbn [wf_decimal]; intros W.
  - intros F. destruct (fix_shape s c e r W F) as (c' & e' & -> & B & _).
    cbn. lia.
  - intros [= <-]. exact I.
  - intros [= <-]. exact I.
Qed.

Lemma to_ideal_nonneg fuel : forall coeff exp ideal,
  0 <= coeff -> 0 <= fst (Dec.to_ideal fuel coeff exp ideal).
Proof.
  induction fuel as [|f IH]; intros coeff exp ideal H; cbn [Dec.to_ideal fst];
    [exact H|].
  destruct (_ && _); [|exact H].
  apply IH. apply Z.div_pos; lia.
Qed.

Lemma div_eucl_nonneg a b : 0 <= a -> 0 <= b -> 0 <= fst (Z.div_eucl a b).
Proof.
  intros Ha Hb. change (fst (Z.div_eucl a b)) with (a / b).
  destruct (Z.eq_dec b 0) as [->|]; [now rewrite Z.div_0_r|].
  apply Z.div_pos; lia.
Qed.

Lemma truediv_wf a b q :
  wf_decimal a -> wf_decimal b -> Dec.truediv a b = Ok q -> wf_decimal q.
Proof.
  destruct a as [s c1 e1|s|s [|] p], b as [t c2 e2|t|t [|] p'];
    cbn [Dec.truediv wf_decimal Dec.fix_nan]; intros Wa Wb;
    try discriminate; try (intros [= <-]; cbn; lia).
  destruct (c2 =? 0); [destruct (c1 =? 0); discriminate|].
  destruct (c1 =? 0).
  { apply fix_wf. cbn. lia. }
  set (shift := Dec.ndigits c2 - Dec.ndigits c1 + Dec.prec + 1).
  assert (Q : 0 <= fst (if 0 <=? shift
                        then Z.div_eucl (c1 * 10 ^ shift) c2
                        else Z.div_eucl c1 (c2 * 10 ^ (- shift)))).
  { destruct (0 <=? shift); apply div_eucl_nonneg;
      try apply Z.mul_nonneg_nonneg; try apply Z.pow_nonneg; lia. }
  destruct (if 0 <=? shift then _ else _) as [coeff remainder].
  cbn [fst] in Q.
  destruct (remainder =? 0).
  - pose proof (to_ideal_nonneg (Z.to_nat (e1 - e2 - (e1 - e2 - shift)))
                  coeff (e1 - e2 - shift) (e1 - e2) Q) as T.
    destruct (Dec.to_ideal _ _ _ _) as [c' e']. cbn [fst] in T.
    apply fix_wf. exact T.
  - apply fix_wf. cbn. destruct (coeff mod 5 =? 0); lia.
Qed.

(** ** [normalize] removes the trailing zeros *)

Lemma strip_zeros_spec fuel : forall c e c' e',
  0 < c < 10 ^ Z.of_nat fuel ->
  Dec.strip_zeros fuel c e = (c', e') ->
  0 < c' <= c /\ (c' mod 10 <> 0 \/ Dec.Emax <= e').
Proof.
  induction fuel as [|f IH]; intros c e c' e' B.
  - cbn in B. lia.
  - cbn [Dec.strip_zeros].
    destruct (Z.eqb_spec (c mod 10) 0) as [M|M]; cbn [andb].
    + destruct (Z.ltb_spec e Dec.Emax) as [L|L].
      * intros S.
        assert (E : c = 10 * (c / 10)).
        { pose proof (Z.div_mod c 10 ltac:(lia)). lia. }
        assert (B' : 0 < c / 10 < 10 ^ Z.of_nat f).
        { rewrite Nat2Z.inj_succ, Z.pow_succ_r in B by lia. lia. }
        destruct (IH _ _ _ _ B' S) as [[? ?] ?]. split; [lia|assumption].
      * intros [= <- <-]. split; [lia|]. right. exact L.
    + intros [= <- <-]. split; [lia|]. left. exact M.
Qed.

Lemma normalize_shape d s c e :
  wf_decimal d -> Dec.normalize d = Ok (Dec.DFin s c e) ->
  0 <= c < 10 ^ Dec.prec
  /\ (c = 0 -> e = 0)
  /\ (c <> 0 -> c mod 10 <> 0 \/ Dec.Emax <= e).
Proof.
  destruct d as [s0 c0 e0|s0|s0 [|] p]; cbn [Dec.normalize wf_decimal];
    intros W; try discriminate.
  destruct (Dec.fix_ (Dec.DFin s0 c0 e0)) as [dup|] eqn:F; cbn [bind];
    [|discriminate].
  destruct (fix_shape _ _ _ _ W F) as (c1 & e1 & -> & B & _).
  destruct (Z.eqb_spec c1 0) as [->|N].
  - intros [= <- <- <-]. split; [lia|]. split; [reflexivity|]. intros C. now destruct C.
  - destruct (Dec.strip_zeros _ c1 e1) as [c2 e2] eqn:S.
    intros [= <- <- <-].
    pose proof (ndigits_positive c1) as Dp.
    pose proof (ndigits_bound c1 ltac:(lia)) as Db.
    destruct (strip_zeros_spec (Z.to_nat (Dec.ndigits c1)) c1 e1 c2 e2) as [[P L] T].
    { rewrite Z2Nat.id by lia. lia. }
    { exact S. }
    split; [lia|]. split; [lia|]. intros _. exact T.
Qed.

(** A finite result of [divide] has a coefficient of at most 28
    digits; a zero result has exponent 0, and a non-zero coefficient
    has no trailing zero (unless the exponent has reached [Emax]). *)
Theorem divide_result_normalized
    (numerator denominator : number) (s : bool) (c e : Z) :
  wf_number numerator -> wf_number denominator ->
  divide numerator denominator = Ok (Dec.DFin s c e) ->
  0 <= c < 10 ^ Dec.prec
  /\ (c = 0 -> e = 0)
  /\ (c <> 0 -> c mod 10 <> 0 \/ Dec.Emax <= e).
Proof.
  intros Wn Wd. unfold divide.
  destruct (Decimal numerator) as [num|e1] eqn:N; cbn [bind].
  2:{ destruct (caught e1); discriminate. }
  destruct (Decimal denominator) as [den|e2] eqn:D; cbn [bind].
  2:{ destruct (caught e2); discriminate. }
  destruct (Dec.eq_zero den) as [[|]|e0]; cbn [bind]; try discriminate.
  destruct (Dec.truediv num den) as [q|e0] eqn:T; cbn [bind]; [|discriminate].
  apply normalize_shape.
  eapply truediv_wf;
    [exact (Decimal_wf _ _ Wn N)|exact (Decimal_wf _ _ Wd D)|exact T].
Qed.

Lemma divide_result_normalized_witness :
  0 <= 25 < 10 ^ Dec.prec
  /\ (25 = 0 -> -1 = 0)
  /\ (25 <> 0 -> 25 mod 10 <> 0 \/ Dec.Emax <= -1).
Proof.
  apply (divide_result_normalized (NInt 10) (NInt 4) false 25 (-1));
    [exact I|exact I|vm_compute; reflexivity].
Defined.

(** ** The leading digit of a coefficient *)

Lemma usize_nb_digits d :
  DecimalPos.Unsigned.usize d = N.of_nat (Decimal.nb_digits d).
Proof.
  induction d; cbn [DecimalPos.Unsigned.usize Decimal.nb_digits];
    rewrite ?Nat2N.inj_succ; [reflexivity|..]; now f_equal.
Qed.

Lemma to_uint_leading p :
  exists d', (N.pos p >= 10 ^ N.of_nat (Decimal.nb_digits d'))%N
             /\ Decimal.nb_digits (Pos.to_uint p) = S (Decimal.nb_digits d').
Proof.
  pose proof (DecimalPos.Unsigned.to_of (Pos.to_uint p)) as U.
  rewrite DecimalPos.Unsigned.of_to in U. cbn [N.to_uint] in U.
  pose proof (DecimalPos.Unsigned.to_uint_nonzero p) as NZ.
  pose proof (DecimalPos.Unsigned.of_to p) as V.
  rewrite DecimalPos.Unsigned.of_uint_alt in V.
  set (d := Pos.to_uint p) in *. clearbody d.
  assert (H : Decimal.nzhead d = d).
  { unfold Decimal.unorm in U. destruct (Decimal.nzhead d); congruence. }
  assert (G : forall d' k,
            (1 <= k ->
             DecimalPos.Unsigned.of_lu (Decimal.rev d')
             + k * 10 ^ DecimalPos.Unsigned.usize d' = N.pos p ->
             N.pos p >= 10 ^ N.of_nat (Decimal.nb_digits d'))%N).
  { intros d' k Hk E. rewrite <- usize_nb_digits.
    assert (0 < 10 ^ DecimalPos.Unsigned.usize d')%N
      by (apply N.neq_0_lt_0, N.pow_nonzero; discriminate).
    nia. }
  destruct d as [|d'|d'|d'|d'|d'|d'|d'|d'|d'|d'];
    try (exists d'; split; [|reflexivity];
         unfold Decimal.rev in V; cbn [Decimal.revapp] in V;
         rewrite DecimalPos.Unsigned.of_lu_revapp in V;
         cbn [DecimalPos.Unsigned.of_lu] in V;
         eapply G; [|exact V]; lia).
  - cbn in V. discriminate.
  - exfalso. cbn [Decimal.nzhead] in H.
    pose proof (DecimalFacts.nb_digits_nzhead d') as L.
    rewrite H in L. cbn in L. lia.
Qed.

Lemma ndigits_lower c : 0 < c -> 10 ^ (Dec.ndigits c - 1) <= c.
Proof.
  destruct c as [|p|p]; try lia. intros _.
  rewrite ndigits_pos.
  destruct (to_uint_leading p) as (d' & B & L).
  unfold Pos.to_uint in L. rewrite DecimalFacts.nb_digits_rev in L.
  rewrite L, Nat2Z.inj_succ.
  replace (Z.succ (Z.of_nat (Decimal.nb_digits d')) - 1)
    with (Z.of_nat (Decimal.nb_digits d')) by lia.
  apply N.ge_le, N2Z.inj_le in B. rewrite N2Z.inj_pow, nat_N_Z in B.
  exact B.
Qed.

Lemma ndigits_le c n : 0 < c -> c < 10 ^ n -> Dec.ndigits c <= n.
Proof.
  intros Hc Hn. pose proof (ndigits_lower c Hc) as L.
  destruct (Z_le_gt_dec (Dec.ndigits c) n) as [?|G]; [assumption|exfalso].
  assert (0 <= n).
  { destruct (Z_le_gt_dec 0 n); [assumption|]. rewrite Z.pow_neg_r in Hn; lia. }
  pose proof (Z.pow_le_mono_r 10 n (Dec.ndigits c - 1) ltac:(lia) ltac:(lia)).
  lia.
Qed.

Lemma ndigits_gt c n : 10 ^ n <= c -> n < Dec.ndigits c.
Proof.
  intros Hn.
  destruct (Z_le_gt_dec 0 n) as [P|P].
  - assert (0 < c) by (pose proof (pow10_pos n P); lia).
    pose proof (ndigits_bound c H) as U.
    destruct (Z_lt_le_dec n (Dec.ndigits c)) as [?|G]; [assumption|exfalso].
    pose proof (Z.pow_le_mono_r 10 _ _ ltac:(lia) G). lia.
  - pose proof (ndigits_positive c). lia.
Qed.

(** ** The rounding error of [_fix] *)

Lemma fix_stable s c e :
  0 <= c < 10 ^ Dec.prec -> Dec.Etiny <= e <= Dec.Etop ->
  Dec.fix_ (Dec.DFin s c e) = Ok (Dec.DFin s c e).
Proof.
  intros Hc He. cbn [Dec.fix_].
  destruct (Z.eqb_spec c 0) as [->|N].
  - do 2 f_equal. unfold Dec.Etiny, Dec.Etop, Dec.Emin, Dec.Emax, Dec.prec in *. lia.
  - pose proof (ndigits_le c Dec.prec ltac:(lia) ltac:(lia)) as D.
    destruct (Z.ltb_spec Dec.Etop (Dec.ndigits c + e - Dec.prec)) as [?|_]; [lia|].
    destruct (Z.ltb_spec e (Z.max (Dec.ndigits c + e - Dec.prec) Dec.Etiny));
      [lia|reflexivity].
Qed.

Lemma fix_spec s c e r :
  0 < c -> Dec.fix_ (Dec.DFin s c e) = Ok r ->
  exists cr er,
    r = Dec.DFin s cr er /\ e <= er /\ 0 <= cr < 10 ^ Dec.prec
    /\ 2 * Z.abs (cr * 10 ^ (er - e) - c) <= 10 ^ (er - e)
    /\ (Dec.prec < Dec.ndigits c -> e < er)
    /\ Dec.fix_ r = Ok r.
Proof.
  intros Hc F. pose proof F as F0. cbn [Dec.fix_] in F.
  assert (P28 : 0 < 10 ^ Dec.prec) by (apply pow10_pos; unfold Dec.prec; lia).
  destruct (Z.eqb_spec c 0) as [?|_]; [lia|].
  destruct (Z.ltb_spec Dec.Etop (Dec.ndigits c + e - Dec.prec)) as [?|Top];
    [discriminate|].
  set (exp_min := Z.max (Dec.ndigits c + e - Dec.prec) Dec.Etiny) in *.
  assert (Hm : Dec.ndigits c + e - Dec.prec <= exp_min) by (unfold exp_min; lia).
  assert (Ht : Dec.Etiny <= exp_min) by (unfold exp_min; lia).
  clearbody exp_min.
  pose proof (ndigits_bound c Hc) as Ub.
  destruct (Z.ltb_spec e exp_min) as [Lt|Ge].
  2:{ injection F as <-. exists c, e.
      split; [reflexivity|]. split; [lia|].
      split; [split; [lia|apply few_digits_small; lia]|].
      rewrite Z.sub_diag, Z.mul_1_r, Z.sub_diag. cbn.
      split; [lia|]. split; [lia|exact F0]. }
  set (k := exp_min - e) in *.
  assert (Hk : 0 < k) by (unfold k; lia).
  pose proof (pow10_pos k ltac:(lia)) as Pk.
  assert (E10 : 10 ^ k = 10 * 10 ^ (k - 1)).
  { replace k with (Z.succ (k - 1)) at 1 by lia. apply Z.pow_succ_r. lia. }
  pose proof (pow10_pos (k - 1) ltac:(lia)) as Pk1.
  destruct (Z.ltb_spec (Dec.ndigits c + e - exp_min) 0) as [Neg|Pos].
  - replace (exp_min - (exp_min - 1)) with 1 in F by lia.
    change (rne 1 (10 ^ 1)) with 0 in F.
    change (Dec.prec <? Dec.ndigits 0) with false in F. cbv iota in F.
    destruct (Z.ltb_spec Dec.Etop exp_min) as [?|Top']; [discriminate|].
    injection F as <-. exists 0, exp_min.
    split; [reflexivity|]. split; [lia|]. split; [lia|].
    fold k. split.
    + rewrite Z.mul_0_l, Z.sub_0_l, Z.abs_opp, Z.abs_eq by lia.
      assert (Dec.ndigits c <= k - 1) by (unfold k; lia).
      pose proof (Z.pow_le_mono_r 10 _ _ ltac:(lia) H). lia.
    + split; [lia|]. apply fix_stable; lia.
  - fold k in F.
    pose proof (rne_nonneg c (10 ^ k) ltac:(lia) Pk) as R0.
    pose proof (rne_floor c (10 ^ k) Pk) as [_ R1].
    pose proof (rne_spec c (10 ^ k) Pk) as (Rs & _).
    assert (Q : c / 10 ^ k < 10 ^ Dec.prec).
    { apply Z.div_lt_upper_bound; [exact Pk|].
      rewrite <- Z.pow_add_r by (unfold Dec.prec; lia).
      assert (Dec.ndigits c <= k + Dec.prec) by (unfold k; lia).
      pose proof (Z.pow_le_mono_r 10 _ _ ltac:(lia) H). lia. }
    set (c' := rne c (10 ^ k)) in *. clearbody c'.
    destruct (Z.ltb_spec Dec.prec (Dec.ndigits c')) as [Big|Small].
    + destruct (Z.ltb_spec Dec.Etop (exp_min + 1)) as [?|Top']; [discriminate|].
      injection F as <-.
      assert (C : c' = 10 ^ Dec.prec).
      { assert (0 < c').
        { destruct (Z.eq_dec c' 0) as [->|]; [|lia].
          change (Dec.ndigits 0) with 1 in Big. unfold Dec.prec in Big. lia. }
        pose proof (ndigits_lower c' H) as L.
        pose proof (Z.pow_le_mono_r 10 Dec.prec (Dec.ndigits c' - 1)
                      ltac:(lia) ltac:(lia)). lia. }
      assert (T : 10 ^ Dec.prec = 10 * 10 ^ (Dec.prec - 1)) by reflexivity.
      assert (D : c' / 10 = 10 ^ (Dec.prec - 1)).
      { rewrite C, T, Z.mul_comm. apply Z.div_mul. lia. }
      exists (c' / 10), (exp_min + 1).
      split; [reflexivity|]. split; [lia|].
      split; [rewrite D; split; [apply Z.pow_nonneg; lia|rewrite T;
              assert (0 < 10 ^ (Dec.prec - 1)) by (apply pow10_pos; unfold Dec.prec; lia); lia]|].
      replace (exp_min + 1 - e) with (Z.succ k) by (unfold k; lia).
      rewrite Z.pow_succ_r by lia.
      split.
      * rewrite D. replace (10 ^ (Dec.prec - 1) * (10 * 10 ^ k))
          with (c' * 10 ^ k) by (rewrite C, T; ring). lia.
      * split; [lia|]. apply fix_stable; [|lia].
        rewrite D. split; [apply Z.pow_nonneg; lia|].
        rewrite T.
        assert (0 < 10 ^ (Dec.prec - 1)) by (apply pow10_pos; unfold Dec.prec; lia). lia.
    + destruct (Z.ltb_spec Dec.Etop exp_min) as [?|Top']; [discriminate|].
      injection F as <-. exists c', exp_min.
      split; [reflexivity|]. split; [lia|].
      assert (B : 0 <= c' < 10 ^ Dec.prec)
        by (split; [exact R0|apply few_digits_small; lia]).
      split; [exact B|]. fold k.
      split; [lia|]. split; [lia|]. apply fix_stable; lia.
Qed.

(** ** The quotient is correctly rounded *)

Lemma div_eucl_div_mod a b : Z.div_eucl a b = (a / b, a mod b).
Proof. unfold Z.div, Z.modulo. now destruct (Z.div_eucl a b). Qed.

Lemma to_ideal_value fuel : forall coeff exp ideal c e,
  0 < coeff ->
  Dec.to_ideal fuel coeff exp ideal = (c, e) ->
  0 < c /\ exp <= e /\ coeff = c * 10 ^ (e - exp).
Proof.
  induction fuel as [|f IH]; intros coeff exp ideal c e Hc; cbn [Dec.to_ideal].
  - intros [= <- <-]. rewrite Z.sub_diag. cbn. lia.
  - destruct (_ <? _); cbn [andb].
    2:{ intros [= <- <-]. rewrite Z.sub_diag. cbn. lia. }
    destruct (Z.eqb_spec (coeff mod 10) 0) as [M|M].
    2:{ intros [= <- <-]. rewrite Z.sub_diag. cbn. lia. }
    intros T.
    assert (E : coeff = 10 * (coeff / 10)).
    { pose proof (Z.div_mod coeff 10 ltac:(lia)). lia. }
    destruct (IH (coeff / 10) (exp + 1) ideal c e ltac:(lia) T) as (P & L & V).
    split; [exact P|]. split; [lia|].
    replace (e - exp) with (Z.succ (e - (exp + 1))) by lia.
    rewrite Z.pow_succ_r by lia. lia.
Qed.

(** The adjusted quotient [coeff + 1] (taken when the division leaves a
    remainder and [coeff] ends in 0 or 5) rounds like the exact
    quotient. *)
Lemma sticky_round N D R k m :
  0 < D -> 0 <= N -> N mod D <> 0 -> 0 < k -> R = m * 10 ^ k ->
  let q := N / D in
  let c := if q mod 5 =? 0 then q + 1 else q in
  2 * Z.abs (R - c) <= 10 ^ k ->
  2 * Z.abs (R * D - N) <= 10 ^ k * D.
Proof.
  intros HD HN Hr Hk ER q c B.
  pose proof (Z.div_mod N D ltac:(lia)) as E. fold q in E.
  pose proof (Z.mod_pos_bound N D HD) as Br.
  set (r := N mod D) in *. clearbody r.
  assert (E10 : 10 ^ k = 10 * 10 ^ (k - 1)).
  { replace k with (Z.succ (k - 1)) at 1 by lia. apply Z.pow_succ_r. lia. }
  pose proof (pow10_pos (k - 1) ltac:(lia)) as Pt.
  set (t := 10 ^ (k - 1)) in *. clearbody t. rewrite E10 in *.
  assert (C5 : c mod 5 <> 0).
  { unfold c. destruct (Z.eqb_spec (q mod 5) 0) as [M|M]; [|exact M].
    pose proof (Z.div_mod q 5 ltac:(lia)).
    rewrite <- (Z.mod_unique_pos (q + 1) 5 (q / 5) 1); lia. }
  assert (S : Z.abs (R - c) <= 5 * t - 1).
  { destruct (Z.eq_dec (Z.abs (R - c)) (5 * t)) as [A|A]; [|lia].
    exfalso. apply C5.
    assert (c = 5 * (2 * m * t - t) \/ c = 5 * (2 * m * t + t)) as [-> | ->] by lia;
      rewrite Z.mul_comm; apply Z.mod_mul; lia. }
  assert (Q : q <= c <= q + 1 /\ (c = q \/ c = q + 1)).
  { unfold c. destruct (q mod 5 =? 0); lia. }
  clearbody c. clear B C5.
  assert (X : - (5 * t) * D <= (R - q) * D - r <= 5 * t * D).
  { destruct Q as [_ [-> | ->]].
    - assert (- (5 * t - 1) * D <= (R - q) * D <= (5 * t - 1) * D) by nia.
      nia.
    - assert (- (5 * t - 2) * D <= (R - q) * D <= 5 * t * D) by nia.
      nia. }
  replace (R * D - N) with ((R - q) * D - r) by (rewrite E; ring).
  lia.
Qed.

Lemma rescale A B C x y b b' :
  0 <= C -> b' <= b -> b <= x -> b <= y ->
  (2 * Z.abs (A * 10 ^ (x - b) - B * 10 ^ (y - b)) <= C * 10 ^ (x - b)
   <-> 2 * Z.abs (A * 10 ^ (x - b') - B * 10 ^ (y - b')) <= C * 10 ^ (x - b')).
Proof.
  intros HC Hb Hx Hy.
  replace (x - b') with ((x - b) + (b - b')) by lia.
  replace (y - b') with ((y - b) + (b - b')) by lia.
  rewrite !Z.pow_add_r by lia.
  pose proof (pow10_pos (b - b') ltac:(lia)) as Pt.
  set (t := 10 ^ (b - b')) in *. clearbody t.
  set (u := A * 10 ^ (x - b)). set (v := B * 10 ^ (y - b)).
  set (w := C * 10 ^ (x - b)).
  replace (A * (10 ^ (x - b) * t) - B * (10 ^ (y - b) * t))
    with ((u - v) * t) by (unfold u, v; ring).
  replace (C * (10 ^ (x - b) * t)) with (w * t) by (unfold w; ring).
  rewrite Z.abs_mul, (Z.abs_eq t) by lia.
  clearbody u v w. nia.
Qed.

Lemma rescale_any A B C x y b0 b :
  0 <= C -> b0 <= x -> b0 <= y -> b <= x -> b <= y ->
  2 * Z.abs (A * 10 ^ (x - b0) - B * 10 ^ (y - b0)) <= C * 10 ^ (x - b0) ->
  2 * Z.abs (A * 10 ^ (x - b) - B * 10 ^ (y - b)) <= C * 10 ^ (x - b).
Proof.
  intros HC H1 H2 H3 H4 H.
  apply (rescale A B C x y b0 (Z.min b0 b)) in H; try lia.
  apply (rescale A B C x y b (Z.min b0 b)); try lia.
Qed.

Lemma quotient_rounding sign N D exp ideal fuel r :
  0 < D -> 0 <= N -> 10 ^ Dec.prec <= N / D ->
  (let '(coeff, exp') :=
     if N mod D =? 0 then Dec.to_ideal fuel (N / D) exp ideal
     else (if (N / D) mod 5 =? 0 then N / D + 1 else N / D, exp) in
   Dec.fix_ (Dec.DFin sign coeff exp')) = Ok r ->
  exists cr er,
    r = Dec.DFin sign cr er /\ 0 <= cr < 10 ^ Dec.prec /\ exp <= er
    /\ 2 * Z.abs (cr * 10 ^ (er - exp) * D - N) <= 10 ^ (er - exp) * D.
Proof.
  intros HD HN HQ.
  assert (P28 : 0 < 10 ^ Dec.prec) by (apply pow10_pos; unfold Dec.prec; lia).
  destruct (Z.eqb_spec (N mod D) 0) as [M|M].
  - destruct (Dec.to_ideal fuel (N / D) exp ideal) as [c e'] eqn:T.
    assert (Hq : 0 < N / D) by lia.
    destruct (to_ideal_value _ _ _ _ _ _ Hq T) as (Hc & Le & V).
    intros F.
    destruct (fix_spec _ _ _ _ Hc F) as (cr & er & -> & Ler & Bc & Err & _).
    exists cr, er. split; [reflexivity|]. split; [exact Bc|]. split; [lia|].
    pose proof (Z.div_mod N D ltac:(lia)) as E. rewrite M, V in E.
    replace (er - exp) with ((er - e') + (e' - exp)) by lia.
    rewrite Z.pow_add_r by lia.
    pose proof (pow10_pos (e' - exp) ltac:(lia)) as Pb.
    set (ta := 10 ^ (er - e')) in *. set (tb := 10 ^ (e' - exp)) in *.
    clearbody ta tb.
    replace (cr * (ta * tb) * D - N) with ((cr * ta - c) * (tb * D))
      by (rewrite E; ring).
    rewrite Z.abs_mul, (Z.abs_eq (tb * D)) by nia.
    replace (ta * tb * D) with (ta * (tb * D)) by ring.
    assert (0 <= tb * D) by nia.
    set (w := tb * D) in *. clearbody w.
    set (a := Z.abs (cr * ta - c)) in *. clearbody a. nia.
  - intros F.
    set (c := if (N / D) mod 5 =? 0 then N / D + 1 else N / D) in *.
    assert (Hc : 10 ^ Dec.prec <= c) by (unfold c; destruct (_ =? 0); lia).
    assert (Hc0 : 0 < c) by lia.
    destruct (fix_spec _ _ _ _ Hc0 F) as (cr & er & -> & Ler & Bc & Err & Gt & _).
    specialize (Gt (ndigits_gt _ _ Hc)).
    exists cr, er. split; [reflexivity|]. split; [exact Bc|]. split; [lia|].
    apply (sticky_round N D (cr * 10 ^ (er - exp)) (er - exp) cr);
      try lia.
Qed.

(** [num / den] for two finite non-zero decimals is within half a
    unit in the last place of the exact quotient. *)
Theorem truediv_correctly_rounded
    (s1 s2 : bool) (c1 e1 c2 e2 : Z) (r : Dec.decimal) :
  0 < c1 -> 0 < c2 ->
  Dec.truediv (Dec.DFin s1 c1 e1) (Dec.DFin s2 c2 e2) = Ok r ->
  exists c e,
    r = Dec.DFin (xorb s1 s2) c e /\ 0 <= c < 10 ^ Dec.prec
    /\ forall base, base <= e1 -> base <= e + e2 ->
         2 * Z.abs (c * c2 * 10 ^ (e + e2 - base) - c1 * 10 ^ (e1 - base))
         <= c2 * 10 ^ (e + e2 - base).
Proof.
  intros H1 H2. cbn [Dec.truediv].
  destruct (Z.eqb_spec c2 0) as [?|_]; [lia|].
  destruct (Z.eqb_spec c1 0) as [?|_]; [lia|].
  pose proof (ndigits_lower c1 H1) as L1.
  pose proof (ndigits_bound c2 H2) as U2.
  pose proof (ndigits_positive c1) as P1.
  pose proof (ndigits_positive c2) as P2.
  set (n1 := Dec.ndigits c1) in *. set (n2 := Dec.ndigits c2) in *.
  clearbody n1 n2.
  assert (P28 : 0 < 10 ^ Dec.prec) by (apply pow10_pos; unfold Dec.prec; lia).
  assert (Hp : Dec.prec = 28) by reflexivity.
  set (shift := n2 - n1 + Dec.prec + 1).
  set (exp := e1 - e2 - shift).
  destruct (Z.leb_spec 0 shift) as [S|S]; rewrite div_eucl_div_mod.
  - (* the numerator is scaled up *)
    pose proof (pow10_pos shift S) as Ps.
    assert (Q : 10 ^ Dec.prec <= c1 * 10 ^ shift / c2).
    { apply Z.div_le_lower_bound; [lia|].
      assert (E : 10 ^ (n1 - 1) * 10 ^ shift = 10 ^ n2 * 10 ^ Dec.prec).
      { rewrite <- !Z.pow_add_r by lia. f_equal. unfold shift. lia. }
      nia. }
    intros F.
    assert (HN : 0 <= c1 * 10 ^ shift) by nia.
    destruct (quotient_rounding _ _ _ _ _ _ _ H2 HN Q F)
      as (cr & er & -> & Bc & Le & Err).
    exists cr, er. split; [reflexivity|]. split; [exact Bc|].
    intros base B1 B2.
    apply (rescale_any (cr * c2) c1 c2 (er + e2) e1 (exp + e2) base);
      try lia; try (unfold exp; lia).
    replace (er + e2 - (exp + e2)) with (er - exp) by lia.
    replace (e1 - (exp + e2)) with shift by (unfold exp; lia).
    replace (cr * c2 * 10 ^ (er - exp)) with (cr * 10 ^ (er - exp) * c2) by ring.
    rewrite (Z.mul_comm c2). exact Err.
  - (* the denominator is scaled up *)
    pose proof (pow10_pos (- shift) ltac:(lia)) as Ps.
    assert (Q : 10 ^ Dec.prec <= c1 / (c2 * 10 ^ (- shift))).
    { apply Z.div_le_lower_bound; [nia|].
      assert (E : 10 ^ n2 * 10 ^ (- shift) * 10 ^ Dec.prec = 10 ^ (n1 - 1)).
      { rewrite <- !Z.pow_add_r by lia. f_equal. unfold shift. lia. }
      nia. }
    intros F.
    assert (HD : 0 < c2 * 10 ^ (- shift)) by nia.
    assert (HN : 0 <= c1) by lia.
    destruct (quotient_rounding _ _ _ _ _ _ _ HD HN Q F)
      as (cr & er & -> & Bc & Le & Err).
    exists cr, er. split; [reflexivity|]. split; [exact Bc|].
    intros base B1 B2.
    apply (rescale_any (cr * c2) c1 c2 (er + e2) e1 e1 base);
      try lia; try (unfold exp in Le; lia).
    replace (er + e2 - e1) with ((er - exp) + (- shift)) by (unfold exp; lia).
    rewrite Z.sub_diag, Z.pow_0_r, Z.mul_1_r, Z.pow_add_r by lia.
    replace (cr * c2 * (10 ^ (er - exp) * 10 ^ (- shift)))
      with (cr * 10 ^ (er - exp) * (c2 * 10 ^ (- shift))) by ring.
    replace (c2 * (10 ^ (er - exp) * 10 ^ (- shift)))
      with (10 ^ (er - exp) * (c2 * 10 ^ (- shift))) by ring.
    exact Err.
Qed.

Lemma truediv_correctly_rounded_witness :
  exists c e,
    Dec.DFin false 3333333333333333333333333333 (-28)
    = Dec.DFin (xorb false false) c e
    /\ 0 <= c < 10 ^ Dec.prec
    /\ forall base, base <= 0 -> base <= e + 0 ->
         2 * Z.abs (c * 3 * 10 ^ (e + 0 - base) - 1 * 10 ^ (0 - base))
         <= 3 * 10 ^ (e + 0 - base).
Proof.
  apply (truediv_correctly_rounded false false 1 0 3 0);
    [lia|lia|vm_compute; reflexivity].
Defined.

(** ** Normalization keeps the value *)

Lemma fix_fixed d r : wf_decimal d -> Dec.fix_ d = Ok r -> Dec.fix_ r = Ok r.
Proof.
  destruct d as [s c e|s|s g p]; cbn [wf_decimal]; intros W F.
  - destruct (Z.eq_dec c 0) as [->|N].
    + cbn [Dec.fix_] in F. change (0 =? 0) with true in F. cbv iota in F.
      injection F as <-. cbn [Dec.fix_]. change (0 =? 0) with true. cbv iota.
      do 2 f_equal. lia.
    + destruct (fix_spec s c e r ltac:(lia) F) as (_ & _ & _ & _ & _ & _ & _ & I).
      exact I.
  - injection F as <-. reflexivity.
  - injection F as <-. cbn [Dec.fix_ Dec.fix_nan]. do 2 f_equal.
    apply Z.mod_mod. unfold Dec.prec. lia.
Qed.

Lemma truediv_fixed a b q :
  wf_decimal a -> wf_decimal b -> Dec.truediv a b = Ok q -> Dec.fix_ q = Ok q.
Proof.
  destruct a as [s c1 e1|s|s [|] p], b as [t c2 e2|t|t [|] p'];
    cbn [Dec.truediv wf_decimal Dec.fix_nan]; intros Wa Wb;
    try discriminate;
    try (intros [= <-]; cbn [Dec.fix_ Dec.fix_nan]; try reflexivity;
         do 2 f_equal; apply Z.mod_mod; unfold Dec.prec; lia).
  destruct (c2 =? 0); [destruct (c1 =? 0); discriminate|].
  destruct (c1 =? 0).
  { apply fix_fixed. cbn. lia. }
  set (shift := Dec.ndigits c2 - Dec.ndigits c1 + Dec.prec + 1).
  assert (Q : 0 <= fst (if 0 <=? shift
                        then Z.div_eucl (c1 * 10 ^ shift) c2
                        else Z.div_eucl c1 (c2 * 10 ^ (- shift)))).
  { destruct (0 <=? shift); apply div_eucl_nonneg;
      try apply Z.mul_nonneg_nonneg; try apply Z.pow_nonneg; lia. }
  destruct (if 0 <=? shift then _ else _) as [coeff remainder].
  cbn [fst] in Q.
  destruct (remainder =? 0).
  - pose proof (to_ideal_nonneg (Z.to_nat (e1 - e2 - (e1 - e2 - shift)))
                  coeff (e1 - e2 - shift) (e1 - e2) Q) as T.
    destruct (Dec.to_ideal _ _ _ _) as [c' e']. cbn [fst] in T.
    apply fix_fixed. exact T.
  - apply fix_fixed. cbn. destruct (coeff mod 5 =? 0); lia.
Qed.

Lemma strip_zeros_value fuel : forall c e c' e',
  Dec.strip_zeros fuel c e = (c', e') ->
  e <= e' /\ c = c' * 10 ^ (e' - e).
Proof.
  induction fuel as [|f IH]; intros c e c' e'; cbn [Dec.strip_zeros].
  - intros [= <- <-]. rewrite Z.sub_diag. cbn. lia.
  - destruct (Z.eqb_spec (c mod 10) 0) as [M|M]; cbn [andb].
    2:{ intros [= <- <-]. rewrite Z.sub_diag. cbn. lia. }
    destruct (e <? Dec.Emax).
    2:{ intros [= <- <-]. rewrite Z.sub_diag. cbn. lia. }
    intros S. destruct (IH _ _ _ _ S) as [L V].
    split; [lia|].
    assert (E : c = 10 * (c / 10)).
    { pose proof (Z.div_mod c 10 ltac:(lia)). lia. }
    replace (e' - e) with (Z.succ (e' - (e + 1))) by lia.
    rewrite Z.pow_succ_r by lia. lia.
Qed.

(** The result of [divide] compares equal ([==]) to the quotient
    [num / den] it normalizes, whenever that quotient is not a NaN. *)
Theorem divide_equals_quotient
    (numerator denominator : number) (r : Dec.decimal) :
  wf_number numerator -> wf_number denominator ->
  divide numerator denominator = Ok r ->
  exists num den q,
    Decimal numerator = Ok num /\ Decimal denominator = Ok den
    /\ Dec.truediv num den = Ok q
    /\ (match q with Dec.DNaN _ _ _ => True | _ => decimal_eq q r = Ok true end).
Proof.
  intros Wn Wd. unfold divide.
  destruct (Decimal numerator) as [num|e1] eqn:N; cbn [bind].
  2:{ destruct (caught e1); discriminate. }
  destruct (Decimal denominator) as [den|e2] eqn:D; cbn [bind].
  2:{ destruct (caught e2); discriminate. }
  destruct (Dec.eq_zero den) as [[|]|e0]; cbn [bind]; try discriminate.
  destruct (Dec.truediv num den) as [q|e0] eqn:T; cbn [bind]; [|discriminate].
  intros Nq. exists num, den, q. split; [reflexivity|]. split; [reflexivity|].
  split; [exact T|].
  pose proof (truediv_fixed _ _ _ (Decimal_wf _ _ Wn N) (Decimal_wf _ _ Wd D) T) as F.
  destruct q as [s c e|s|s g p]; [| |exact I].
  - cbn [Dec.normalize] in Nq. rewrite F in Nq. cbn [bind] in Nq.
    destruct (Z.eqb_spec c 0) as [->|Nz].
    + injection Nq as <-. reflexivity.
    + destruct (Dec.strip_zeros _ c e) as [c' e'] eqn:S.
      injection Nq as <-.
      destruct (strip_zeros_value _ _ _ _ _ S) as [L V].
      cbn [decimal_eq].
      assert (c' <> 0) by (intros ->; lia).
      destruct (Z.eqb_spec c 0) as [?|_]; [contradiction|].
      destruct (Z.eqb_spec c' 0) as [?|_]; [contradiction|].
      cbn [orb]. rewrite eqb_reflx. cbn [andb].
      rewrite Z.min_l by lia. rewrite Z.sub_diag, Z.mul_1_r.
      do 2 f_equal. apply Z.eqb_eq. exact V.
  - cbn in Nq. injection Nq as <-. cbn. now rewrite eqb_reflx.
Qed.

Lemma divide_equals_quotient_witness :
  exists num den q,
    Decimal (NInt 10) = Ok num /\ Decimal (NInt 4) = Ok den
    /\ Dec.truediv num den = Ok q
    /\ (match q with
        | Dec.DNaN _ _ _ => True
        | _ => decimal_eq q (Dec.DFin false 25 (-1)) = Ok true
        end).
Proof.
  apply (divide_equals_quotient (NInt 10) (NInt 4));
    [exact I|exact I|vm_compute; reflexivity].
Defined.

(** ** [_results_equal] *)

Lemma exn_eqb_eq a b : exn_eqb a b = true <-> a = b.
Proof.
  destruct a, b; cbn [exn_eqb]; split; try discriminate; try reflexivity.
  - intros H. apply String.eqb_eq in H. now subst.
  - intros [= ->]. apply String.eqb_refl.
Qed.

Lemma feq_sym x y : feq x y = feq y x.
Proof.
  destruct x as [|s|s u], y as [|t|t v]; cbn [feq]; try reflexivity.
  - destruct s, t; reflexivity.
  - apply Z.eqb_sym.
Qed.

Lemma feq_trans x y z : feq x y = true -> feq y z = true -> feq x z = true.
Proof.
  destruct x as [|s|s u], y as [|t|t v], z as [|r|r w]; cbn [feq];
    try discriminate.
  - destruct s, t, r; auto.
  - intros H1 H2. apply Z.eqb_eq in H1, H2. apply Z.eqb_eq. lia.
Qed.

Lemma feq_nan x y : feq x y = true -> is_nan x = false /\ is_nan y = false.
Proof. destruct x, y; cbn; try discriminate; auto. Qed.

(** [_results_equal] is an equivalence relation on call results:
    reflexive (also on NaN results, unlike [==]), symmetric and
    transitive. *)
Theorem results_equal_equivalence :
  (forall a, results_equal a a = true)
  /\ (forall a b, results_equal a b = results_equal b a)
  /\ (forall a b c, results_equal a b = true -> results_equal b c = true ->
                    results_equal a c = true).
Proof.
  split; [|split].
  - intros [x|t m]; unfold results_equal; cbn [tuple_eq].
    + destruct x as [|s|s u]; cbn [feq is_nan andb]; try reflexivity.
      * now rewrite eqb_reflx.
      * now rewrite Z.eqb_refl.
    + replace (exn_eqb t t) with true by (symmetry; now apply exn_eqb_eq).
      now rewrite String.eqb_refl.
  - intros [x|t m] [y|u n]; unfold results_equal; cbn [tuple_eq]; try reflexivity.
    + rewrite (feq_sym x y), (andb_comm (is_nan x)). reflexivity.
    + replace (exn_eqb u t) with (exn_eqb t u).
      * now rewrite (String.eqb_sym m n).
      * destruct (exn_eqb t u) eqn:E.
        -- apply exn_eqb_eq in E. subst. symmetry. now apply exn_eqb_eq.
        -- destruct (exn_eqb u t) eqn:E'; [|reflexivity].
           apply exn_eqb_eq in E'. subst.
           assert (exn_eqb t t = true) by now apply exn_eqb_eq. congruence.
  - intros [x|t m] [y|u n] [z|v o]; unfold results_equal; cbn [tuple_eq];
      try discriminate.
    + destruct (feq x y) eqn:Exy.
      * intros _. destruct (feq y z) eqn:Eyz.
        -- intros _. now rewrite (feq_trans _ _ _ Exy Eyz).
        -- intros H. apply andb_true_iff in H. destruct H as [Ny _].
           destruct (feq_nan _ _ Exy). congruence.
      * intros H. apply andb_true_iff in H. destruct H as [Nx Ny].
        destruct (feq y z) eqn:Eyz.
        -- destruct (feq_nan _ _ Eyz). congruence.
        -- intros H. apply andb_true_iff in H. destruct H as [_ Nz].
           rewrite Nx, Nz. now destruct (feq x z).
    + destruct (exn_eqb t u && String.eqb m n) eqn:E1; [|discriminate].
      destruct (exn_eqb u v && String.eqb n o) eqn:E2; [|discriminate].
      intros _ _.
      apply andb_true_iff in E1, E2. destruct E1 as [T1 M1], E2 as [T2 M2].
      apply exn_eqb_eq in T1, T2. apply String.eqb_eq in M1, M2. subst.
      replace (exn_eqb v v) with true by (symmetry; now apply exn_eqb_eq).
      now rewrite String.eqb_refl.
Qed.

Lemma results_equal_equivalence_witness :
  results_equal (CallOk (Fin true 0)) (CallOk (Fin false 0)) = true.
Proof.
  destruct results_equal_equivalence as (_ & _ & T).
  apply (T _ (CallOk (Fin false 0))); reflexivity.
Defined.

(** Results the helper identifies: the same value, two NaNs, or two
    zeros. *)
Theorem results_equal_values (x y : float) :
  valid x -> valid y ->
  (results_equal (CallOk x) (CallOk y) = true
   <-> x = y \/ (magnitude x = 0 /\ magnitude y = 0
                 /\ is_finite x = true /\ is_finite y = true)).
Proof.
  intros Vx Vy. unfold results_equal. cbn [tuple_eq].
  destruct x as [|s|s u], y as [|t|t v]; cbn [feq is_nan andb magnitude is_finite];
    try (split; [discriminate|intros [?|(_ & _ & ? & ?)]; discriminate]);
    try (split; [reflexivity|auto]).
  - split; auto.
  - destruct s, t; cbn; split; auto; try discriminate;
      intros [?|(_ & _ & ? & _)]; discriminate.
  - destruct Vx as [[Hu _] _], Vy as [[Hv _] _].
    destruct (Z.eqb_spec (signed s u) (signed t v)) as [E|E].
    + split; [intros _|reflexivity].
      destruct s, t; cbn [signed] in E.
      * left. f_equal. lia.
      * right. repeat split; lia.
      * right. repeat split; lia.
      * left. f_equal. lia.
    + split; [discriminate|]. intros [[= -> ->]|(-> & -> & _)].
      * now destruct E.
      * destruct E. destruct s, t; reflexivity.
Qed.

Lemma results_equal_values_witness :
  results_equal (CallOk (Fin false 0)) (CallOk (Fin true 0)) = true.
Proof.
  apply (results_equal_values (Fin false 0) (Fin true 0)).
  - apply valid_zero.
  - apply valid_zero.
  - right. repeat split.
Defined.
